(** * pam_pkcs11, [src/common/cert_vfy.c]: certificate and CRL verification

    A shallow embedding of [base64_to_bin], [download_crl], [verify_crl],
    [check_for_revocation] and [verify_certificate], and the properties of
    the specification that concern them.

    Conventions.
    - C integers are [Z]; the conversions the code performs between
      [size_t], [int], [unsigned int] and [long] are written out
      (LP64: 32-bit [int], 64-bit [size_t] and [long]).
    - A [char *] is the list of characters of the object it points into,
      from the pointer to the end of the object.  A read past that end is
      the outcome [Fault].
    - OpenSSL and [get_from_uri] are collaborators; they are the fields of
      a record [World], so that every statement holds for every behaviour
      of the library. *)

From Equations Require Import Equations.
From Stdlib Require Import ZArith List String Ascii Bool Lia DecimalString.
Import ListNotations.

Local Open Scope Z_scope.

(** ** Outcomes, machine integers, memory *)

(** Either a result, or a read outside the object the pointer points into
    (behaviour the C standard leaves undefined; the model stops there). *)
Inductive outcome (A : Type) : Type :=
| Done (a : A)
| Fault.
Arguments Done {A} a.
Arguments Fault {A}.

Definition SIZE_T_MOD : Z := 2 ^ 64.
Definition UINT_MOD : Z := 2 ^ 32.
Definition INT_MAX : Z := 2 ^ 31 - 1.

(** Arithmetic on [size_t] wraps modulo 2^64. *)
Definition to_size_t (z : Z) : Z := z mod SIZE_T_MOD.

(** Arithmetic on [unsigned int] wraps modulo 2^32. *)
Definition to_uint (z : Z) : Z := z mod UINT_MOD.

(** Conversion to [int] keeps the low 32 bits, two's complement. *)
Definition to_int (z : Z) : Z :=
  let r := z mod UINT_MOD in
  if r <=? INT_MAX then r else r - UINT_MOD.

(** Conversion to [long] keeps the low 64 bits, two's complement. *)
Definition to_long (z : Z) : Z :=
  let r := z mod SIZE_T_MOD in
  if r <? 2 ^ 63 then r else r - SIZE_T_MOD.

Definition code (c : ascii) : Z := Z.of_N (N_of_ascii c).
Definition uchar (z : Z) : ascii := ascii_of_N (Z.to_N (z mod 256)).

Definition NUL : ascii := "000"%char.

(** The characters of a C string literal followed by its terminator. *)
Definition cstr (s : string) : list ascii := list_ascii_of_string s ++ [NUL].

(** [strlen]: the index of the first NUL; a fault when the object has none. *)
Fixpoint strlen (str : list ascii) : outcome Z :=
  match str with
  | [] => Fault
  | c :: str' =>
      if Ascii.eqb c NUL then Done 0
      else match strlen str' with
           | Done n => Done (n + 1)
           | Fault => Fault
           end
  end.

(** ** [base64_to_bin] (lines 27-70) *)

Module Base64.

(** [unsigned char val[4]] *)
Record quad : Type := Quad { v0 : Z; v1 : Z; v2 : Z; v3 : Z }.

(** [val[i] = x] *)
Definition set_val (val : quad) (i x : Z) : quad :=
  if i =? 0 then Quad x (v1 val) (v2 val) (v3 val)
  else if i =? 1 then Quad (v0 val) x (v2 val) (v3 val)
  else if i =? 2 then Quad (v0 val) (v1 val) x (v3 val)
  else if i =? 3 then Quad (v0 val) (v1 val) (v2 val) x
  else val.

Definition between (lo c hi : ascii) : bool :=
  (code lo <=? code c) && (code c <=? code hi).

(** The value a character of the alphabet stands for (lines 38-47). *)
Definition alphabet_value (c : ascii) : option Z :=
  if between "A"%char c "Z"%char then Some (code c - code "A"%char)
  else if between "a"%char c "z"%char then Some ((code c - code "a"%char) + 26)
  else if between "0"%char c "9"%char then Some ((code c - code "0"%char) + 52)
  else if Ascii.eqb c "+"%char then Some 62
  else if Ascii.eqb c "/"%char then Some 63
  else None.

Definition is_pad (c : ascii) : bool := Ascii.eqb c "="%char.

(** One pass of the body of the [for] loop, lines 38-49: the if/else-if
    chain has no final [else], so any other character leaves [i], [val]
    and [pad_len] as they are. *)
Definition classify (c : ascii) (i : Z) (val : quad) (pad_len : Z)
  : Z * quad * Z :=
  match alphabet_value c with
  | Some x => (i + 1, set_val val i x, pad_len)
  | None =>
      if is_pad c then (i + 1, set_val val i 0, to_size_t (pad_len + 1))
      else (i, val, pad_len)
  end.

(** How the [for] loop of lines 37-53 ends. *)
Inductive for_result : Type :=
| ForExit (str : list ascii) (val : quad) (str_len pad_len : Z)
| ForReturn (rv : Z)
| ForFault.

(** [for (i = 0; i < 4;) { ...; str++; if (--str_len < 0) return -1; }]
    [str_len] is a [size_t]: the decrement wraps and the test is on the
    wrapped value. *)
Fixpoint for_loop (str : list ascii) (i : Z) (val : quad)
    (str_len pad_len : Z) {struct str} : for_result :=
  if i <? 4 then
    match str with
    | [] => ForFault
    | c :: str' =>
        let '(i', val', pad_len') := classify c i val pad_len in
        let str_len' := to_size_t (str_len - 1) in
        if str_len' <? 0 then ForReturn (-1)
        else for_loop str' i' val' str_len' pad_len'
    end
  else ForExit str val str_len pad_len.

(** The bytes written through [b] so far, and the value returned. *)
Definition result : Type := Z * list ascii.

(** [while (str_len > 3) { ... }  return length;] (lines 35-69).  [fuel]
    bounds the number of groups; [None] is "out of fuel". *)
Fixpoint while_loop (fuel : nat) (str : list ascii)
    (str_len pad_len length buf_len : Z) (val : quad) (out : list ascii)
  : option (outcome result) :=
  if 3 <? str_len then
    match fuel with
    | O => None
    | S fuel' =>
        match for_loop str 0 val str_len pad_len with
        | ForFault => Some Fault
        | ForReturn rv => Some (Done (rv, out))
        | ForExit str' val' str_len' pad_len' =>
            let length1 := to_size_t (length + 1) in
            if buf_len <? length1 then Some (Done (-1, out)) else
            let out1 := out ++ [uchar (Z.shiftl (v0 val') 2 + Z.shiftr (v1 val') 4)] in
            if pad_len' =? 2 then Some (Done (to_int length1, out1)) else
            let length2 := to_size_t (length1 + 1) in
            if buf_len <? length2 then Some (Done (-1, out1)) else
            let out2 := out1 ++ [uchar (Z.shiftl (v1 val') 4 + Z.shiftr (v2 val') 2)] in
            if pad_len' =? 1 then Some (Done (to_int length2, out2)) else
            let length3 := to_size_t (length2 + 1) in
            if buf_len <? length3 then Some (Done (-1, out2)) else
            let out3 := out2 ++ [uchar (Z.shiftl (v2 val') 6 + v3 val')] in
            while_loop fuel' str' str_len' pad_len' length3 buf_len val' out3
        end
    end
  else Some (Done (to_int length, out)).

(** Every group takes at least four characters, so one more than the
    number of characters of the object is fuel enough. *)
Definition base64_to_bin (str : list ascii) (buf_len : Z) : outcome result :=
  match strlen str with
  | Fault => Fault
  | Done str_len =>
      match while_loop (S (List.length str)) str str_len 0 0 buf_len
                       (Quad 0 0 0 0) [] with
      | Some r => r
      | None => Fault
      end
  end.

End Base64.

Import Base64.


(** ** The data of the collaborating libraries *)

Definition X509_NAME : Type := string.
Definition ASN1_INTEGER : Type := Z.
Definition ASN1_TIME : Type := string.
Definition EVP_PKEY : Type := string.

(** [GENERAL_NAME]: [type] and, for the IA5 string kinds, [d.ia5->data]. *)
Record GENERAL_NAME : Type := {
  gn_type : Z;
  gn_ia5 : string
}.

Definition GEN_URI : Z := 6.

(** [DIST_POINT_NAME]: [name.fullname], a stack of names or NULL; an
    element of the stack may itself be NULL. *)
Record DIST_POINT_NAME : Type := {
  fullname : option (list (option GENERAL_NAME))
}.

Record DIST_POINT : Type := {
  distpoint : option DIST_POINT_NAME
}.

(** What this file reads of a certificate. *)
Record X509 : Type := {
  subject_name : X509_NAME;
  issuer_name : X509_NAME;
  serialNumber : ASN1_INTEGER;
  (** [X509_get_ext_d2i(x, NID_crl_distribution_points, NULL, NULL)] *)
  crl_distribution_points : option (list DIST_POINT);
  (** [X509_get_pubkey(x)] *)
  pubkey : option EVP_PKEY
}.

Record X509_REVOKED : Type := {
  rev_serialNumber : ASN1_INTEGER;
  revocationDate : ASN1_TIME
}.

Record X509_CRL : Type := {
  crl_issuer : X509_NAME;
  revoked : list X509_REVOKED;
  lastUpdate : ASN1_TIME;
  nextUpdate : ASN1_TIME;
  crl_signature : string
}.

Definition X509_FILETYPE_PEM : Z := 1.
Definition X509_FILETYPE_ASN1 : Z := 2.

(** The hash-dir lookup of a store: the directories registered with it. *)
Record X509_STORE : Type := {
  lookup_dirs : list (string * Z)
}.

Record X509_STORE_CTX : Type := {
  ctx_store : X509_STORE;
  ctx_cert : X509
}.

(** [crl_policy_t].  [cert_vfy.h] is not among the sources; the four
    enumerators are the ones this file names, and [CRLP_other n] is any
    other value [n] of the underlying integer. *)
Inductive crl_policy_t : Type :=
| CRLP_NONE
| CRLP_ONLINE
| CRLP_OFFLINE
| CRLP_AUTO
| CRLP_other (n : Z).

(** ** The process state this file writes: error slot, debug trace, I/O *)

Inductive debug_arg : Type :=
| ArgString (s : string)
| ArgPolicy (p : crl_policy_t).

(** An entry of the debug trace: [DBG(msg)] or [DBG1(fmt, arg)]. *)
Inductive debug_entry : Type :=
| Dbg (msg : string)
| Dbg1 (fmt : string) (arg : debug_arg).

(** A call to a collaborator that reads the outside world. *)
Inductive io_call : Type :=
| Fetch (uri : string)
| LookupCert (name : X509_NAME)
| LookupCrl (name : X509_NAME).

Record state : Type := {
  last_error : string;        (* the slot of set_error / get_error *)
  debug : list debug_entry;   (* oldest first *)
  io : list io_call           (* oldest first *)
}.

Definition initial_state : state :=
  {| last_error := ""; debug := []; io := [] |}.

(** What [get_from_uri] hands back: its return value, the buffer it
    allocated, and the text it leaves in the error slot when it fails. *)
Record fetched : Type := {
  fetch_rv : Z;
  fetch_data : list ascii;
  fetch_error : string
}.

(** The collaborators. *)
Record World : Type := {
  get_from_uri : string -> fetched;
  malloc : Z -> bool;
  (** [d2i_X509_CRL(NULL, &p, len)] on the bytes of the object at [p] *)
  d2i_X509_CRL : list ascii -> Z -> option X509_CRL;
  (** [X509_STORE_get_by_subject(ctx, X509_LU_X509, name, &obj)]:
      [Some x] stands for a return value above 0 with [obj.data.x509 = x] *)
  lookup_cert : X509_STORE_CTX -> X509_NAME -> option X509;
  (** the same with [X509_LU_CRL] and [obj.data.crl] *)
  lookup_crl : X509_STORE_CTX -> X509_NAME -> option X509_CRL;
  X509_CRL_verify : X509_CRL -> EVP_PKEY -> Z;
  X509_cmp_current_time : ASN1_TIME -> Z;
  (** [ERR_error_string(ERR_get_error(), NULL)] *)
  ERR_error_string : string;
  X509_STORE_new : bool;
  X509_STORE_add_lookup : bool;
  X509_LOOKUP_add_dir : string -> Z -> Z;
  X509_STORE_CTX_new : bool;
  X509_verify_cert : X509_STORE_CTX -> Z;
  (** what a read of [ctx->error] yields once [ctx] has been released *)
  released_ctx_error : X509_STORE_CTX -> Z;
  X509_verify_cert_error_string : Z -> string
}.

(** ** A state monad with faults *)

Definition M (A : Type) : Type := state -> outcome (A * state).

Definition ret {A} (a : A) : M A := fun s => Done (a, s).

Definition bind {A B} (m : M A) (k : A -> M B) : M B :=
  fun s => match m s with
           | Done (a, s') => k a s'
           | Fault => Fault
           end.

Definition fault {A} : M A := fun _ => Fault.

Definition lift {A} (o : outcome A) : M A :=
  fun s => match o with Done a => Done (a, s) | Fault => Fault end.

Declare Scope cmd_scope.
Delimit Scope cmd_scope with cmd.
Notation "x <- m ;; k" := (bind m (fun x => k))
  (at level 61, m at next level, right associativity) : cmd_scope.
Notation "m ;; k" := (bind m (fun _ => k))
  (at level 61, right associativity) : cmd_scope.
Local Open Scope cmd_scope.

Definition set_error (msg : string) : M unit :=
  fun s => Done (tt, {| last_error := msg; debug := debug s; io := io s |}).

Definition get_error : M string :=
  fun s => Done (last_error s, s).

Definition DBG (msg : string) : M unit :=
  fun s => Done (tt, {| last_error := last_error s;
                        debug := debug s ++ [Dbg msg]; io := io s |}).

Definition DBG1 (fmt : string) (arg : debug_arg) : M unit :=
  fun s => Done (tt, {| last_error := last_error s;
                        debug := debug s ++ [Dbg1 fmt arg]; io := io s |}).

Definition call (c : io_call) : M unit :=
  fun s => Done (tt, {| last_error := last_error s;
                        debug := debug s; io := io s ++ [c] |}).

(** ** [download_crl] (lines 72-124) *)

Module Download.

Definition BEGIN_MARKER : string := "-----BEGIN X509 CRL-----".
Definition END_MARKER : string := "-----END X509 CRL-----".

(** [strncmp(s1, s2, n)]: 0 when the first [n] characters agree or both
    strings end together before that; a fault when [s1] is read past the
    end of its object. *)
Fixpoint strncmp (s1 s2 : list ascii) (n : nat) {struct n} : outcome Z :=
  match n with
  | O => Done 0
  | S n' =>
      match s1, s2 with
      | c1 :: s1', c2 :: s2' =>
          if Ascii.eqb c1 c2 then
            if Ascii.eqb c1 NUL then Done 0 else strncmp s1' s2' n'
          else Done (code c1 - code c2)
      | _, _ => Fault
      end
  end.

(** [for (i = i0; i <= bound; i++) if (!strncmp(&data[i], marker, n)) break;]
    with [p = &data[i]]; the value of [i] after the loop.  [i] is an
    [unsigned int]: where the increment would wrap, the model stops. *)
Fixpoint scan (marker : string) (n : nat) (bound : Z) (i : Z)
    (p : list ascii) {struct p} : outcome Z :=
  if i <=? bound then
    match strncmp p (cstr marker) n with
    | Fault => Fault
    | Done 0 => Done i
    | Done _ =>
        match p with
        | [] => Fault
        | _ :: p' =>
            if i + 1 <? UINT_MOD then scan marker n bound (i + 1) p'
            else Fault
        end
    end
  else Done i.

(** [data[j] = 0] *)
Fixpoint store_nul (data : list ascii) (j : nat) : list ascii :=
  match data, j with
  | [], _ => []
  | _ :: data', O => NUL :: data'
  | c :: data', S j' => c :: store_nul data' j'
  end.

(** Lines 121-123: [if (crl == NULL) set_error(...); return crl;] *)
Definition parsed (crl : option X509_CRL) : M (option X509_CRL) :=
  match crl with
  | None => set_error "d2i_X509_CRL() failed" ;; ret None
  | Some c => ret (Some c)
  end.

Section WithWorld.
Variable W : World.

(** The buffers [data] and [der] are released on every path; the model
    does not follow the heap.  [get_from_uri] leaves its own text in the
    error slot when it fails. *)
Definition download_crl (uri : string) : M (option X509_CRL) :=
  call (Fetch uri) ;;
  let f := get_from_uri W uri in
  if negb (fetch_rv f =? 0) then
    set_error (fetch_error f) ;;
    err <- get_error ;;
    set_error ("get_from_uri() failed: " ++ err) ;;
    ret None
  else
    let data := fetch_data f in
    let data_len := Z.of_nat (List.length data) in
    (* convert base64 to der if needed *)
    i <- lift (scan BEGIN_MARKER 24 (to_size_t (data_len - 24)) 0 data) ;;
    j <- lift (scan END_MARKER 22 (to_size_t (data_len - 22)) 0 data) ;;
    if (i <=? to_size_t (data_len - 24))
       && (j <=? to_size_t (data_len - 22)) && (i <? j) then
      (* base64 format *)
      DBG "crl is base64 encoded" ;;
      let der_len := to_uint (j - i + 1) in         (* roughly *)
      if negb (malloc W der_len) then
        set_error "not enough free memory available" ;;
        ret None
      else
        let data' := store_nul data (Z.to_nat j) in
        r <- lift (base64_to_bin
                     (skipn (Z.to_nat (to_uint (i + 24))) data') der_len) ;;
        let der := snd r in
        let der_len := to_size_t (fst r) in         (* int to size_t *)
        if der_len <=? 0 then
          set_error "invalid base64 (pem) format" ;;
          ret None
        else
          parsed (d2i_X509_CRL W der (to_long der_len))
    else
      (* der format *)
      DBG "crl is der encoded" ;;
      parsed (d2i_X509_CRL W data (to_long data_len)).

End WithWorld.

End Download.

Import Download.

(** ** [verify_crl] (lines 126-174) *)

Section Verification.
Variable W : World.

Definition X509_STORE_get_by_subject_X509 (ctx : X509_STORE_CTX)
    (name : X509_NAME) : M (option X509) :=
  call (LookupCert name) ;; ret (lookup_cert W ctx name).

Definition X509_STORE_get_by_subject_CRL (ctx : X509_STORE_CTX)
    (name : X509_NAME) : M (option X509_CRL) :=
  call (LookupCrl name) ;; ret (lookup_crl W ctx name).

Definition verify_crl (crl : X509_CRL) (ctx : X509_STORE_CTX) : M Z :=
  (* get issuer certificate *)
  obj <- X509_STORE_get_by_subject_X509 ctx (crl_issuer crl) ;;
  match obj with
  | None =>
      set_error "getting the certificate of the crl-issuer failed" ;;
      ret (-1)
  | Some issuer =>
      (* extract public key and verify signature *)
      match pubkey issuer with
      | None =>
          set_error "getting the issuer's public key failed" ;;
          ret (-1)
      | Some pkey =>
          let rv := X509_CRL_verify W crl pkey in
          if rv <? 0 then
            set_error ("X509_CRL_verify() failed: " ++ ERR_error_string W) ;;
            ret (-1)
          else if rv =? 0 then
            DBG "crl is invalid" ;;
            ret 0
          else
            (* compare update times *)
            let rv := X509_cmp_current_time W (lastUpdate crl) in
            if rv =? 0 then
              set_error "crl has an invalid last update field" ;;
              ret (-1)
            else if 0 <? rv then
              DBG "crl is not yet valid" ;;
              ret 0
            else
              let rv := X509_cmp_current_time W (nextUpdate crl) in
              if rv =? 0 then
                set_error "crl has an invalid next update field" ;;
                ret (-1)
              else if rv <? 0 then
                DBG "crl has expired" ;;
                ret 0
              else ret 1
      end
  end.

(** ** [check_for_revocation] (lines 183-280) *)

(** [sk_X509_REVOKED_find(stack, &rev)]: the stack orders its entries by
    serial number alone; the index of an entry with the serial number of
    [rev], or -1 when there is none. *)
Fixpoint sk_X509_REVOKED_find_from (idx : Z) (stack : list X509_REVOKED)
    (serial : ASN1_INTEGER) : Z :=
  match stack with
  | [] => -1
  | r :: stack' =>
      if rev_serialNumber r =? serial then idx
      else sk_X509_REVOKED_find_from (idx + 1) stack' serial
  end.

Definition sk_X509_REVOKED_find : list X509_REVOKED -> ASN1_INTEGER -> Z :=
  sk_X509_REVOKED_find_from 0.

(** The inner loop, lines 239-254: the names of one distribution point. *)
Fixpoint try_names (names : list (option GENERAL_NAME))
  : M (option X509_CRL) :=
  match names with
  | [] => ret None
  | name :: names' =>
      match name with
      | Some n =>
          if gn_type n =? GEN_URI then
            DBG1 "downloading crl from %s" (ArgString (gn_ia5 n)) ;;
            crl <- download_crl W (gn_ia5 n) ;;
            match crl with
            | Some c => ret (Some c)
            | None =>
                err <- get_error ;;
                DBG1 "download_crl() failed: %s" (ArgString err) ;;
                try_names names'
            end
          else try_names names'
      | None => try_names names'
      end
  end.

(** The outer loop, lines 235-256: it runs while [crl == NULL]. *)
Fixpoint try_points (dist_points : list DIST_POINT) : M (option X509_CRL) :=
  match dist_points with
  | [] => ret None
  | point :: dist_points' =>
      crl <- match distpoint point with
             | Some dpn =>
                 (* until now, only fullName is supported *)
                 match fullname dpn with
                 | Some names => try_names names
                 | None => ret None
                 end
             | None => ret None
             end ;;
      match crl with
      | Some c => ret (Some c)
      | None => try_points dist_points'
      end
  end.

(** Lines 266-279, where the OFFLINE and the ONLINE branch meet: verify
    the crl and check whether the certificate is revoked or not. *)
Definition revoked_by (x509 : X509) (ctx : X509_STORE_CTX) (crl : X509_CRL)
  : M Z :=
  DBG "verifying crl" ;;
  rv <- verify_crl crl ctx ;;
  if rv <? 0 then
    err <- get_error ;;
    set_error ("verify_crl() failed: " ++ err) ;;
    ret (-1)
  else if rv =? 0 then
    ret 0
  else
    let rv := sk_X509_REVOKED_find (revoked crl) (serialNumber x509) in
    ret (if rv =? -1 then 1 else 0).

(** Lines 217-261: the CRL of the ONLINE branch, or the early return. *)
Definition online_crl (x509 : X509) (ctx : X509_STORE_CTX)
  : M (Z + X509_CRL) :=
  DBG "extracting crl distribution points" ;;
  dp <- match crl_distribution_points x509 with
        | Some dist_points => ret (Some dist_points)
        | None =>
            (* no distribution point in the certificate: have a look at
               the ca certificate *)
            obj <- X509_STORE_get_by_subject_X509 ctx (issuer_name x509) ;;
            match obj with
            | None =>
                set_error "no dedicated ca certificate available" ;;
                ret None
            | Some ca =>
                match crl_distribution_points ca with
                | Some dist_points => ret (Some dist_points)
                | None =>
                    set_error "neither the user nor the ca certificate does contain a crl distribution point" ;;
                    ret None
                end
            end
        end ;;
  match dp with
  | None => ret (inl (-1))
  | Some dist_points =>
      crl <- try_points dist_points ;;
      match crl with
      | None =>
          set_error "downloading the crl failed for all distribution points" ;;
          ret (inl (-1))
      | Some c => ret (inr c)
      end
  end.

(** Lines 207-215: the CRL of the OFFLINE branch, or the early return. *)
Definition offline_crl (x509 : X509) (ctx : X509_STORE_CTX)
  : M (Z + X509_CRL) :=
  DBG "looking for an dedicated local crl" ;;
  obj <- X509_STORE_get_by_subject_CRL ctx (issuer_name x509) ;;
  match obj with
  | None =>
      set_error "no dedicated crl available" ;;
      ret (inl (-1))
  | Some c => ret (inr c)             (* X509_CRL_dup *)
  end.

Definition string_of_Z (n : Z) : string :=
  NilZero.string_of_int (Z.to_int n).

(** AUTO calls the function again with ONLINE and with OFFLINE. *)
Definition policy_depth (policy : crl_policy_t) : nat :=
  match policy with
  | CRLP_AUTO => 1
  | _ => 0
  end.

Equations check_for_revocation (x509 : X509) (ctx : X509_STORE_CTX)
    (policy : crl_policy_t) : M Z by wf (policy_depth policy) lt :=
  check_for_revocation x509 ctx CRLP_NONE :=
    DBG1 "crl policy: %d" (ArgPolicy CRLP_NONE) ;;
    (* NONE *)
    DBG "no revocation-check performed" ;;
    ret 1;
  check_for_revocation x509 ctx CRLP_AUTO :=
    DBG1 "crl policy: %d" (ArgPolicy CRLP_AUTO) ;;
    (* AUTO -> first try it ONLINE then OFFLINE *)
    rv <- check_for_revocation x509 ctx CRLP_ONLINE ;;
    if rv <? 0 then
      err <- get_error ;;
      DBG1 "check_for_revocation() failed: %s" (ArgString err) ;;
      check_for_revocation x509 ctx CRLP_OFFLINE
    else ret rv;
  check_for_revocation x509 ctx CRLP_OFFLINE :=
    DBG1 "crl policy: %d" (ArgPolicy CRLP_OFFLINE) ;;
    r <- offline_crl x509 ctx ;;
    match r with
    | inl rv => ret rv
    | inr crl => revoked_by x509 ctx crl
    end;
  check_for_revocation x509 ctx CRLP_ONLINE :=
    DBG1 "crl policy: %d" (ArgPolicy CRLP_ONLINE) ;;
    r <- online_crl x509 ctx ;;
    match r with
    | inl rv => ret rv
    | inr crl => revoked_by x509 ctx crl
    end;
  check_for_revocation x509 ctx (CRLP_other n) :=
    DBG1 "crl policy: %d" (ArgPolicy (CRLP_other n)) ;;
    set_error ("policy " ++ string_of_Z n ++ " is not supported") ;;
    ret (-1).

End Verification.

(** ** [verify_certificate] (lines 282-363) *)

(** The context once the four directories are registered and
    [X509_STORE_CTX_init(ctx, store, x509, NULL)] has run. *)
Definition store_ctx (x509 : X509) (ca_dir crl_dir : string)
  : X509_STORE_CTX :=
  {| ctx_store :=
       {| lookup_dirs := [(ca_dir, X509_FILETYPE_PEM);
                          (ca_dir, X509_FILETYPE_ASN1);
                          (crl_dir, X509_FILETYPE_PEM);
                          (crl_dir, X509_FILETYPE_ASN1)] |};
     ctx_cert := x509 |}.

Section Chain.
Variable W : World.

(** The store, the lookup and the context are released on every path; the
    model does not follow the heap, except for the one read of
    [ctx->error] that comes after [X509_STORE_CTX_free(ctx)] (line 345). *)
Definition verify_certificate (x509 : X509) (ca_dir crl_dir : string)
    (policy : crl_policy_t) : M Z :=
  (* setup the x509 store to verify the certificate *)
  if negb (X509_STORE_new W) then
    set_error ("X509_STORE_new() failed: " ++ ERR_error_string W) ;;
    ret (-1)
  else if negb (X509_STORE_add_lookup W) then
    set_error ("X509_STORE_add_lookup() failed: " ++ ERR_error_string W) ;;
    ret (-1)
  else
    DBG1 "adding ca certificate lookup dir %s" (ArgString ca_dir) ;;
    if negb (X509_LOOKUP_add_dir W ca_dir X509_FILETYPE_PEM =? 1) then
      set_error ("X509_LOOKUP_add_dir(PEM) failed: " ++ ERR_error_string W) ;;
      ret (-1)
    else if negb (X509_LOOKUP_add_dir W ca_dir X509_FILETYPE_ASN1 =? 1) then
      set_error ("X509_LOOKUP_add_dir(ASN1) failed: " ++ ERR_error_string W) ;;
      ret (-1)
    else
      DBG1 "adding crl lookup dir %s" (ArgString crl_dir) ;;
      if negb (X509_LOOKUP_add_dir W crl_dir X509_FILETYPE_PEM =? 1) then
        set_error ("X509_LOOKUP_add_dir(PEM) failed: " ++ ERR_error_string W) ;;
        ret (-1)
      else if negb (X509_LOOKUP_add_dir W crl_dir X509_FILETYPE_ASN1 =? 1) then
        set_error ("X509_LOOKUP_add_dir(ASN1) failed: " ++ ERR_error_string W) ;;
        ret (-1)
      else
        if negb (X509_STORE_CTX_new W) then
          set_error ("X509_STORE_CTX_new() failed: " ++ ERR_error_string W) ;;
          ret (-1)
        else
          let ctx := store_ctx x509 ca_dir crl_dir in
          let rv := X509_verify_cert W ctx in
          if negb (rv =? 1) then
            set_error ("certificate is invalid: "
                       ++ X509_verify_cert_error_string W
                            (released_ctx_error W ctx)) ;;
            ret 0
          else
            DBG "certificate is valid" ;;
            (* verify whether the certificate was revoked or not *)
            rv <- check_for_revocation W x509 ctx policy ;;
            if rv <? 0 then
              err <- get_error ;;
              set_error ("check_for_revocation() failed: " ++ err) ;;
              ret (-1)
            else if rv =? 0 then
              DBG "certificate has been revoked" ;;
              ret rv
            else
              DBG "certificate has not been revoked" ;;
              ret rv.

End Chain.


(** ** Vocabulary of the statements about the decoder *)

Module Base64Text.

(** A character the decoder takes into a group: of the alphabet, or [=]. *)
Definition recognized (c : ascii) : bool :=
  match alphabet_value c with
  | Some _ => true
  | None => is_pad c
  end.

Definition symbols (s : list ascii) : list ascii := filter recognized s.

(** Number of [=] characters. *)
Definition pads (s : list ascii) : nat := List.length (filter is_pad s).

Fixpoint ends_with_symbol (s : list ascii) : bool :=
  match s with
  | [] => false
  | c :: s' =>
      match s' with
      | [] => recognized c
      | _ :: _ => ends_with_symbol s'
      end
  end.

Definition no_nul (s : list ascii) : bool :=
  forallb (fun c => negb (Ascii.eqb c NUL)) s.

(** The text of one group: four recognized characters, the last of which
    ends the text; characters the decoder skips may stand between them. *)
Definition is_group (g : list ascii) : bool :=
  (List.length (symbols g) =? 4)%nat && ends_with_symbol g && no_nul g.

(** A group without any [=]. *)
Definition is_full_group (g : list ascii) : bool :=
  is_group g && (pads g =? 0)%nat.

End Base64Text.

Import Base64Text.

(** ** Vocabulary of the statements about the fetcher *)

Module Framing.

(** [m] is a prefix of [p]. *)
Fixpoint is_prefix (m p : list ascii) : bool :=
  match m, p with
  | [], _ => true
  | _ :: _, [] => false
  | a :: m', b :: p' => Ascii.eqb a b && is_prefix m' p'
  end.

(** The least index, counted from [i], at which [m] occurs in [p]. *)
Fixpoint first_occurrence_from (m : list ascii) (i : Z) (p : list ascii)
  : option Z :=
  if is_prefix m p then Some i
  else match p with
       | [] => None
       | _ :: p' => first_occurrence_from m (i + 1) p'
       end.

Definition first_occurrence (marker : string) (data : list ascii)
  : option Z :=
  first_occurrence_from (list_ascii_of_string marker) 0 data.

(** The whole buffer parsed as DER. *)
Definition parse_der (W : World) (data : list ascii) : M (option X509_CRL) :=
  DBG "crl is der encoded" ;;
  parsed (d2i_X509_CRL W data (Z.of_nat (List.length data))).

(** The string the decoder is given (lines 104-105): the object at
    [&data[i + 24]], after [data[j] = 0]. *)
Definition decoder_input (data : list ascii) (i j : Z) : list ascii :=
  skipn (Z.to_nat (i + 24)) (store_nul data (Z.to_nat j)).

(** Lines 95-113 with [i] and [j] given. *)
Definition pem_branch (W : World) (data : list ascii) (i j : Z)
  : M (option X509_CRL) :=
  DBG "crl is base64 encoded" ;;
  if negb (malloc W (j - i + 1)) then
    set_error "not enough free memory available" ;; ret None
  else
    r <- lift (base64_to_bin (decoder_input data i j) (j - i + 1)) ;;
    if to_size_t (fst r) =? 0 then
      set_error "invalid base64 (pem) format" ;; ret None
    else
      parsed (d2i_X509_CRL W (snd r) (to_long (to_size_t (fst r)))).

End Framing.

Import Framing.

(** ** Vocabulary of the statements about the verifier and the engine *)

Inductive crl_verdict : Type :=
| Valid
| InvalidOrExpired
| ProcessingError.

Definition verdict_code (v : crl_verdict) : Z :=
  match v with
  | Valid => 1
  | InvalidOrExpired => 0
  | ProcessingError => -1
  end.

Section Verdicts.
Variable W : World.

(** [X509_cmp_current_time]: 0 for a field it cannot read, above 0 for a
    time after now, below 0 for a time before now. *)
Definition malformed (t : ASN1_TIME) : bool :=
  X509_cmp_current_time W t =? 0.
Definition in_the_future (t : ASN1_TIME) : bool :=
  0 <? X509_cmp_current_time W t.
Definition in_the_past (t : ASN1_TIME) : bool :=
  X509_cmp_current_time W t <? 0.

(** The verifier as section 4.3 of the specification words it: the checks
    in order, the first one that fails decides. *)
Definition crl_verifier (crl : X509_CRL) (ctx : X509_STORE_CTX)
  : crl_verdict :=
  match lookup_cert W ctx (crl_issuer crl) with
  | None => ProcessingError                     (* issuer unknown *)
  | Some issuer =>
      match pubkey issuer with
      | None => ProcessingError                 (* no key to verify with *)
      | Some pkey =>
          if X509_CRL_verify W crl pkey <? 0 then ProcessingError
          else if X509_CRL_verify W crl pkey =? 0 then InvalidOrExpired
          else if malformed (lastUpdate crl) then ProcessingError
          else if in_the_future (lastUpdate crl) then InvalidOrExpired
          else if malformed (nextUpdate crl) then ProcessingError
          else if in_the_past (nextUpdate crl) then InvalidOrExpired
          else Valid
      end
  end.

(** [judged x509 ctx policy s crl v s']: in the run of the revocation
    check from state [s], the CRL that decides the result is [crl], the
    verifier returns [v] on it, and [s'] is the state it leaves. *)
Inductive judged (x509 : X509) (ctx : X509_STORE_CTX)
  : crl_policy_t -> state -> X509_CRL -> Z -> state -> Prop :=
| judged_offline s crl s1 v s2 :
    (DBG1 "crl policy: %d" (ArgPolicy CRLP_OFFLINE) ;;
     offline_crl W x509 ctx) s = Done (inr crl, s1) ->
    (DBG "verifying crl" ;; verify_crl W crl ctx) s1 = Done (v, s2) ->
    judged x509 ctx CRLP_OFFLINE s crl v s2
| judged_online s crl s1 v s2 :
    (DBG1 "crl policy: %d" (ArgPolicy CRLP_ONLINE) ;;
     online_crl W x509 ctx) s = Done (inr crl, s1) ->
    (DBG "verifying crl" ;; verify_crl W crl ctx) s1 = Done (v, s2) ->
    judged x509 ctx CRLP_ONLINE s crl v s2
| judged_auto_online s s0 crl v s2 :
    DBG1 "crl policy: %d" (ArgPolicy CRLP_AUTO) s = Done (tt, s0) ->
    judged x509 ctx CRLP_ONLINE s0 crl v s2 ->
    0 <= v ->
    judged x509 ctx CRLP_AUTO s crl v s2
| judged_auto_offline s rv s1 s1' crl v s2 :
    (DBG1 "crl policy: %d" (ArgPolicy CRLP_AUTO) ;;
     check_for_revocation W x509 ctx CRLP_ONLINE) s = Done (rv, s1) ->
    rv < 0 ->
    (err <- get_error ;;
     DBG1 "check_for_revocation() failed: %s" (ArgString err)) s1
    = Done (tt, s1') ->
    judged x509 ctx CRLP_OFFLINE s1' crl v s2 ->
    judged x509 ctx CRLP_AUTO s crl v s2.

(** Some entry of the list has the serial number of the certificate. *)
Definition lists_serial (crl : X509_CRL) (x509 : X509) : bool :=
  existsb (fun r => rev_serialNumber r =? serialNumber x509) (revoked crl).

(** The set-up of [verify_certificate] goes through. *)
Definition setup_succeeds (ca_dir crl_dir : string) : bool :=
  X509_STORE_new W && X509_STORE_add_lookup W
  && (X509_LOOKUP_add_dir W ca_dir X509_FILETYPE_PEM =? 1)
  && (X509_LOOKUP_add_dir W ca_dir X509_FILETYPE_ASN1 =? 1)
  && (X509_LOOKUP_add_dir W crl_dir X509_FILETYPE_PEM =? 1)
  && (X509_LOOKUP_add_dir W crl_dir X509_FILETYPE_ASN1 =? 1)
  && X509_STORE_CTX_new W.

End Verdicts.

(** The value a run returns, when it returns. *)
Definition returned {A : Type} (o : outcome (A * state)) : option A :=
  match o with
  | Done (a, _) => Some a
  | Fault => None
  end.

(** ** A small world to run the code in *)

Module Testbed.

(** Dates are eight digits, year first; anything else does not parse. *)
Definition cmp_time (now : string) (t : ASN1_TIME) : Z :=
  if (String.length t =? 8)%nat then
    match String.compare t now with
    | Gt => 1
    | _ => -1
    end
  else 0.

Fixpoint find_cert (certs : list X509) (name : X509_NAME) : option X509 :=
  match certs with
  | [] => None
  | c :: certs' =>
      if String.eqb (subject_name c) name then Some c
      else find_cert certs' name
  end.

Fixpoint find_crl (crls : list X509_CRL) (name : X509_NAME)
  : option X509_CRL :=
  match crls with
  | [] => None
  | c :: crls' =>
      if String.eqb (crl_issuer c) name then Some c else find_crl crls' name
  end.

Definition ca : X509 :=
  {| subject_name := "CN=CA"%string; issuer_name := "CN=CA"%string; serialNumber := 1;
     crl_distribution_points := None; pubkey := Some "ca-key"%string |}.

Definition leaf : X509 :=
  {| subject_name := "CN=user"%string; issuer_name := "CN=CA"%string; serialNumber := 42;
     crl_distribution_points := None; pubkey := Some "user-key"%string |}.

(** A certificate whose issuer the store does not know. *)
Definition stray : X509 :=
  {| subject_name := "CN=stray"%string; issuer_name := "CN=nobody"%string;
     serialNumber := 7;
     crl_distribution_points := None; pubkey := Some "stray-key"%string |}.

Definition a_crl (next_update : ASN1_TIME) (serials : list Z) : X509_CRL :=
  {| crl_issuer := "CN=CA"%string;
     revoked := map (fun n => {| rev_serialNumber := n;
                                 revocationDate := "20260101"%string |}) serials;
     lastUpdate := "20260101"%string;
     nextUpdate := next_update;
     crl_signature := "ca-key"%string |}.

(** The DER parser of the example: a buffer that starts with the tag of
    a SEQUENCE (0x30, the character 0) is the CRL [parsed_crl]. *)
Definition d2i (parsed_crl : X509_CRL) (der : list ascii) (len : Z)
  : option X509_CRL :=
  match der with
  | "0"%char :: _ => Some parsed_crl
  | _ => None
  end.

(** Today is 2026-10-30.  The store holds [ca] and the CRLs [crls]; a
    CRL is signed well when its signature is the key of its issuer; a
    certificate passes path validation when the store knows its issuer. *)
Definition world (fetch : string -> fetched)
    (parse : list ascii -> Z -> option X509_CRL) (crls : list X509_CRL)
  : World :=
  {| get_from_uri := fetch;
     malloc := fun _ => true;
     d2i_X509_CRL := parse;
     lookup_cert := fun _ name => find_cert [ca] name;
     lookup_crl := fun _ name => find_crl crls name;
     X509_CRL_verify :=
       fun crl pkey => if String.eqb (crl_signature crl) pkey then 1 else 0;
     X509_cmp_current_time := cmp_time "20261030"%string;
     ERR_error_string := "error:00000000:lib(0):func(0):reason(0)"%string;
     X509_STORE_new := true;
     X509_STORE_add_lookup := true;
     X509_LOOKUP_add_dir := fun _ _ => 1;
     X509_STORE_CTX_new := true;
     X509_verify_cert :=
       fun ctx => match find_cert [ca] (issuer_name (ctx_cert ctx)) with
                  | Some _ => 1
                  | None => 0
                  end;
     released_ctx_error := fun _ => 20;
     X509_verify_cert_error_string :=
       fun _ => "unable to get local issuer certificate"%string |}.

Definition no_fetch (uri : string) : fetched :=
  {| fetch_rv := -1; fetch_data := []; fetch_error := "no route to host"%string |}.

Definition fetch_buffer (data : list ascii) (uri : string) : fetched :=
  {| fetch_rv := 0; fetch_data := data; fetch_error := ""%string |}.

Definition LF : ascii := "010"%char.

(** A CRL in PEM framing: the base64 text of the bytes 0 1 2. *)
Definition pem_buffer : list ascii :=
  list_ascii_of_string BEGIN_MARKER ++ [LF]
  ++ list_ascii_of_string "MDEy" ++ [LF]
  ++ list_ascii_of_string END_MARKER ++ [LF].

(** A DER object followed by the two markers, END first. *)
Definition reversed_buffer : list ascii :=
  list_ascii_of_string "012"
  ++ list_ascii_of_string END_MARKER ++ list_ascii_of_string BEGIN_MARKER.

(** PEM framing around a text that ends in the middle of a group, before
    28 more characters of the alphabet. *)
Definition truncated_buffer : list ascii :=
  list_ascii_of_string BEGIN_MARKER
  ++ list_ascii_of_string "QU" ++ [LF; LF]
  ++ list_ascii_of_string END_MARKER
  ++ list_ascii_of_string "AAAAAAAAAAAAAAAAAAAAAAAAAAAA".

(** What the decoder has written when it gives up on [truncated_buffer]. *)
Definition truncated_der : list ascii :=
  Eval cbv in
    match base64_to_bin (decoder_input truncated_buffer 0 28) 29 with
    | Done (_, der) => der
    | Fault => []
    end.

(** A CRL the example calls expired, and one it calls current. *)
Definition expired_crl : X509_CRL := a_crl "20261029"%string [].
Definition current_crl : X509_CRL := a_crl "20261130"%string [41; 42; 43].

(** The store of the example after set-up, for a certificate. *)
Definition ctx_of (x509 : X509) : X509_STORE_CTX :=
  store_ctx x509 "/etc/pam_pkcs11/cacerts" "/etc/pam_pkcs11/crls".

(** No network; the store holds [ca] and the CRLs given. *)
Definition offline_world (crls : list X509_CRL) : World :=
  world no_fetch (d2i current_crl) crls.

(** The network serves one buffer, whatever the URI; the store holds [ca]. *)
Definition serving (data : list ascii) : World :=
  world (fetch_buffer data) (d2i current_crl) [].

End Testbed.

Import Testbed.

(** ** Vocabulary of the further statements about the decoder *)

Module Base64Encode.

(** The character of a six-bit value, RFC 4648 section 4.  The source
    has no encoder; this one is what the decoder is measured against. *)
Definition sextet_char (v : Z) : ascii :=
  if v <? 26 then uchar (code "A"%char + v)
  else if v <? 52 then uchar (code "a"%char + (v - 26))
  else if v <? 62 then uchar (code "0"%char + (v - 52))
  else if v =? 62 then "+"%char
  else "/"%char.

(** The base64 text of a byte string, three bytes to four characters,
    with [=] padding for a last group of one or two bytes. *)
Fixpoint encode (bytes : list ascii) : list ascii :=
  match bytes with
  | [] => []
  | a :: [] =>
      [sextet_char (code a / 4); sextet_char ((code a mod 4) * 16);
       "="%char; "="%char]
  | a :: b :: [] =>
      [sextet_char (code a / 4);
       sextet_char ((code a mod 4) * 16 + code b / 16);
       sextet_char ((code b mod 16) * 4); "="%char]
  | a :: b :: c :: bytes' =>
      [sextet_char (code a / 4);
       sextet_char ((code a mod 4) * 16 + code b / 16);
       sextet_char ((code b mod 16) * 4 + code c / 64);
       sextet_char (code c mod 64)] ++ encode bytes'
  end.

(** The same text, group by group. *)
Fixpoint encode_groups (bytes : list ascii) : list (list ascii) :=
  match bytes with
  | [] => []
  | a :: [] => [encode [a]]
  | a :: b :: [] => [encode [a; b]]
  | a :: b :: c :: bytes' => encode [a; b; c] :: encode_groups bytes'
  end.

(** What the decoder stores in [val] for a recognized character. *)
Definition symbol_value (c : ascii) : Z :=
  match alphabet_value c with
  | Some x => x
  | None => 0
  end.

(** [val] after the recognized characters [syms] went to [val[i]],
    [val[i+1]], ... *)
Fixpoint fill (val : quad) (i : Z) (syms : list ascii) : quad :=
  match syms with
  | [] => val
  | c :: syms' => fill (set_val val i (symbol_value c)) (i + 1) syms'
  end.

(** The three bytes lines 57, 62 and 67 write for a group. *)
Definition bytes_of (q : quad) : list ascii :=
  [uchar (Z.shiftl (v0 q) 2 + Z.shiftr (v1 q) 4);
   uchar (Z.shiftl (v1 q) 4 + Z.shiftr (v2 q) 2);
   uchar (Z.shiftl (v2 q) 6 + v3 q)].

(** A character the decoder steps over. *)
Definition skipped (c : ascii) : bool := negb (recognized c).

End Base64Encode.

Import Base64Encode.

(** ** Vocabulary of the further statements about the fetcher *)

(** Not the character the markers are drawn with. *)
Definition not_dash (c : ascii) : bool := negb (Ascii.eqb c "-"%char).

(** The text between the markers of a PEM buffer as it is written: empty
    or opening with a line break, and without a dash. *)
Definition pem_body (body : list ascii) : bool :=
  match body with
  | [] => true
  | c :: _ => Ascii.eqb c LF
  end && forallb not_dash body.

(** A buffer in PEM framing around [body], followed by [post]. *)
Definition pem_framed (body post : list ascii) : list ascii :=
  list_ascii_of_string BEGIN_MARKER ++ body
  ++ list_ascii_of_string END_MARKER ++ post.

(** ** Vocabulary of the further statements about the engine *)

Section Sources.
Variable W : World.

(** The URI a general name gives the ONLINE branch to fetch, if any
    (line 241: a name that is not NULL and of type [GEN_URI]). *)
Definition name_uri (name : option GENERAL_NAME) : list string :=
  match name with
  | Some n => if gn_type n =? GEN_URI then [gn_ia5 n] else []
  | None => []
  end.

(** The URIs of a distribution point (line 238: only its full name). *)
Definition point_uris (point : DIST_POINT) : list string :=
  match distpoint point with
  | Some dpn =>
      match fullname dpn with
      | Some names => flat_map name_uri names
      | None => []
      end
  | None => []
  end.

Definition distribution_uris (dist_points : list DIST_POINT) : list string :=
  flat_map point_uris dist_points.

(** What [download_crl] returns for a URI; [None] when the run leaves
    the fetched buffer. *)
Definition fetch_yields (uri : string) : option (option X509_CRL) :=
  returned (download_crl W uri initial_state).

(** [tried] is the list [uris] up to its first URI that yields a CRL,
    which is [crl]; or all of it when none does. *)
Definition tried_until (uris tried : list string) (crl : option X509_CRL)
  : Prop :=
  match crl with
  | None =>
      tried = uris /\ Forall (fun u => fetch_yields u = Some None) tried
  | Some c =>
      exists before u rest,
        uris = before ++ u :: rest /\ tried = before ++ [u]
        /\ Forall (fun u => fetch_yields u = Some None) before
        /\ fetch_yields u = Some (Some c)
  end.

(** The distribution points the ONLINE branch works with: those of the
    certificate, or those of its issuer's certificate in the store when
    the certificate has none (lines 219-233). *)
Definition online_points (x509 : X509) (ctx : X509_STORE_CTX)
  : option (list DIST_POINT) :=
  match crl_distribution_points x509 with
  | Some dist_points => Some dist_points
  | None =>
      match lookup_cert W ctx (issuer_name x509) with
      | Some issuer => crl_distribution_points issuer
      | None => None
      end
  end.

(** The store lookup the ONLINE branch makes to find them. *)
Definition online_lookups (x509 : X509) : list io_call :=
  match crl_distribution_points x509 with
  | Some _ => []
  | None => [LookupCert (issuer_name x509)]
  end.

(** The value of lines 266-279 on a CRL: the verifier's error and its
    negative verdict as they are, and the serial scan on a valid CRL. *)
Definition verdict_value (x509 : X509) (ctx : X509_STORE_CTX)
    (crl : X509_CRL) : Z :=
  match crl_verifier W crl ctx with
  | ProcessingError => -1
  | InvalidOrExpired => 0
  | Valid => if lists_serial crl x509 then 0 else 1
  end.

(** The value of the OFFLINE branch: a function of the store alone. *)
Definition offline_value (x509 : X509) (ctx : X509_STORE_CTX) : Z :=
  match lookup_crl W ctx (issuer_name x509) with
  | None => -1
  | Some crl => verdict_value x509 ctx crl
  end.

(** The store lookups of the OFFLINE branch. *)
Definition offline_lookups (x509 : X509) (ctx : X509_STORE_CTX)
  : list io_call :=
  LookupCrl (issuer_name x509)
  :: match lookup_crl W ctx (issuer_name x509) with
     | None => []
     | Some crl => [LookupCert (crl_issuer crl)]
     end.

End Sources.

(** ** [verify_signature] (lines 365-389) *)

Section Signature.
Variable W : World.

(** [EVP_VerifyInit(&md_ctx, EVP_sha1())], [EVP_VerifyUpdate(&md_ctx,
    data, data_length)] and [EVP_VerifyFinal(&md_ctx, signature,
    signature_length, pubkey)] taken together: the value of the last
    call, for the key, the data and the signature. *)
Variable EVP_Verify_sha1 :
  EVP_PKEY -> list ascii -> Z -> list ascii -> Z -> Z.

Definition verify_signature (x509 : X509) (data : list ascii)
    (data_length : Z) (signature : list ascii) (signature_length : Z)
  : M Z :=
  (* get the public-key *)
  match pubkey x509 with
  | None =>
      set_error ("X509_get_pubkey() failed: " ++ ERR_error_string W) ;;
      ret (-1)
  | Some pkey =>
      (* verify the signature *)
      let rv := EVP_Verify_sha1 pkey data data_length
                                signature signature_length in
      if negb (rv =? 1) then
        set_error ("EVP_VerifyFinal() failed: " ++ ERR_error_string W) ;;
        ret (-1)
      else
        DBG "signature is valid" ;;
        ret 0
  end.

End Signature.

(** ** More of the small world *)

Module Roaming.

(** A certificate with one distribution point of four names: a NULL
    entry, a DNS name, and two URIs. *)
Definition roamer : X509 :=
  {| subject_name := "CN=roamer"%string; issuer_name := "CN=CA"%string;
     serialNumber := 42;
     crl_distribution_points :=
       Some [ {| distpoint := None |};
              {| distpoint :=
                   Some {| fullname :=
                             Some [None;
                                   Some {| gn_type := 2;
                                           gn_ia5 := "ca.example"%string |};
                                   Some {| gn_type := GEN_URI;
                                           gn_ia5 := "ldap://ca/crl"%string |};
                                   Some {| gn_type := GEN_URI;
                                           gn_ia5 := "http://ca/crl.pem"%string |}]
                        |} |} ];
     pubkey := Some "roamer-key"%string |}.

(** The network serves [pem_buffer] over http and nothing else. *)
Definition http_only (uri : string) : fetched :=
  if String.eqb uri "http://ca/crl.pem" then fetch_buffer pem_buffer uri
  else no_fetch uri.

(** The store holds [ca] and no CRL; a DER parse yields [current_crl]. *)
Definition network : World := world http_only (d2i current_crl) [].

(** A CRL that is current and does not list the serial number 42. *)
Definition clean_crl : X509_CRL := a_crl "20261130"%string [41; 43].

(** [W] with a directory that cannot be added to the store. *)
Definition missing_dir (dir : string) (W : World) : World :=
  {| get_from_uri := get_from_uri W;
     malloc := malloc W;
     d2i_X509_CRL := d2i_X509_CRL W;
     lookup_cert := lookup_cert W;
     lookup_crl := lookup_crl W;
     X509_CRL_verify := X509_CRL_verify W;
     X509_cmp_current_time := X509_cmp_current_time W;
     ERR_error_string := "error:02001002:system library:fopen:No such file";
     X509_STORE_new := X509_STORE_new W;
     X509_STORE_add_lookup := X509_STORE_add_lookup W;
     X509_LOOKUP_add_dir :=
       fun d type => if String.eqb d dir then 0
                     else X509_LOOKUP_add_dir W d type;
     X509_STORE_CTX_new := X509_STORE_CTX_new W;
     X509_verify_cert := X509_verify_cert W;
     released_ctx_error := released_ctx_error W;
     X509_verify_cert_error_string := X509_verify_cert_error_string W |}.

End Roaming.

Import Roaming.

(** ** Vocabulary of the statements about groups and framing *)

(** The three bytes a group stands for. *)
Definition group_bytes (g : list ascii) : list ascii :=
  bytes_of (fill (Quad 0 0 0 0) 0 (symbols g)).

(** The decoder told group by group, for a text of groups: [pad_len] is
    the number of [=] of the groups before, [out] the bytes written. *)
Fixpoint decode_groups (pad_len : Z) (out : list ascii) (buf_len : Z)
    (groups : list (list ascii)) : result :=
  match groups with
  | [] => (Z.of_nat (List.length out), out)
  | g :: groups' =>
      let len := Z.of_nat (List.length out) in
      let pad_len' := pad_len + Z.of_nat (pads g) in
      if buf_len <? len + 1 then (-1, out)
      else if pad_len' =? 2 then (len + 1, out ++ firstn 1 (group_bytes g))
      else if buf_len <? len + 2 then (-1, out ++ firstn 1 (group_bytes g))
      else if pad_len' =? 1 then (len + 2, out ++ firstn 2 (group_bytes g))
      else if buf_len <? len + 3 then (-1, out ++ firstn 2 (group_bytes g))
      else decode_groups pad_len' (out ++ group_bytes g) buf_len groups'
  end.

(** The characters of [data] behind the BEGIN marker that starts at [i]
    and before the END marker that starts at [j]; none when the END
    marker starts inside the BEGIN marker. *)
Definition text_between (data : list ascii) (i j : Z) : list ascii :=
  firstn (Z.to_nat (j - (i + 24))) (skipn (Z.to_nat (i + 24)) data).

(** The first step of the set-up that fails, in the order of the
    set-up: the store, its lookup, the directory of the CA certificates
    as PEM and as ASN1, the directory of the CRLs as PEM and as ASN1,
    the store context. *)
Definition failed_step (W : World) (ca_dir crl_dir : string)
  : option string :=
  if negb (X509_STORE_new W) then Some "X509_STORE_new()"%string
  else if negb (X509_STORE_add_lookup W)
  then Some "X509_STORE_add_lookup()"%string
  else if negb (X509_LOOKUP_add_dir W ca_dir X509_FILETYPE_PEM =? 1)
  then Some "X509_LOOKUP_add_dir(PEM)"%string
  else if negb (X509_LOOKUP_add_dir W ca_dir X509_FILETYPE_ASN1 =? 1)
  then Some "X509_LOOKUP_add_dir(ASN1)"%string
  else if negb (X509_LOOKUP_add_dir W crl_dir X509_FILETYPE_PEM =? 1)
  then Some "X509_LOOKUP_add_dir(PEM)"%string
  else if negb (X509_LOOKUP_add_dir W crl_dir X509_FILETYPE_ASN1 =? 1)
  then Some "X509_LOOKUP_add_dir(ASN1)"%string
  else if negb (X509_STORE_CTX_new W) then Some "X509_STORE_CTX_new()"%string
  else None.

(** ** Buffers with markers out of place *)

Module Buffers.

(** The DER encoding of a CRL: version absent, sha1WithRSAEncryption,
    issuer CN=CA, thisUpdate 260101000000Z, no entry, a signature of one
    zero byte (68 bytes). *)
Definition der_crl : list ascii :=
  map uchar
      [48; 66; 48; 45;
       48; 13; 6; 9; 42; 134; 72; 134; 247; 13; 1; 1; 5; 5; 0;
       48; 13; 49; 11; 48; 9; 6; 3; 85; 4; 3; 12; 2; 67; 65;
       23; 13; 50; 54; 48; 49; 48; 49; 48; 48; 48; 48; 48; 48; 90;
       48; 13; 6; 9; 42; 134; 72; 134; 247; 13; 1; 1; 5; 5; 0;
       3; 2; 0; 0].

(** The CRL it encodes. *)
Definition der_crl_value : X509_CRL :=
  {| crl_issuer := "CN=CA"%string; revoked := [];
     lastUpdate := "20260101"%string; nextUpdate := ""%string;
     crl_signature := ""%string |}.

(** A DER parser for the example: it reads the object at the head of
    the buffer and does not look at what follows it. *)
Definition d2i_head (der : list ascii) (len : Z) : option X509_CRL :=
  if is_prefix der_crl der && (Z.of_nat (List.length der_crl) <=? len)
  then Some der_crl_value else None.

(** [der_crl] followed by the two markers, END first. *)
Definition trailing_markers : list ascii :=
  der_crl ++ list_ascii_of_string END_MARKER
  ++ list_ascii_of_string BEGIN_MARKER.

(** The END marker starting inside the BEGIN marker, before four
    characters of base64 text and a NUL. *)
Definition overlapping_markers : list ascii :=
  cstr "-----BEGIN X509 CRL-----END X509 CRL-----QUJD".

(** What the decoder writes for the text behind the overlapping END
    marker. *)
Definition overlapping_der : list ascii :=
  Eval cbv in
    match base64_to_bin (decoder_input overlapping_markers 0 19) 20 with
    | Done (_, der) => der
    | Fault => []
    end.

End Buffers.

Import Buffers.

(** ** Tactics *)

(** Case analysis on the tests of one pass of the [while] loop. *)
Ltac loop_tests :=
  repeat match goal with
         | H : context [if ?a <? ?b then _ else _] |- _ =>
             destruct (Z.ltb_spec a b)
         | H : context [if ?a =? ?b then _ else _] |- _ =>
             destruct (Z.eqb_spec a b)
         | |- context [if ?a <? ?b then _ else _] =>
             destruct (Z.ltb_spec a b)
         | |- context [if ?a =? ?b then _ else _] =>
             destruct (Z.eqb_spec a b)
         end.

(** Run the primitives of the monad. *)
Ltac run :=
  unfold X509_STORE_get_by_subject_X509, X509_STORE_get_by_subject_CRL;
  unfold bind, ret, DBG, DBG1, set_error, get_error, call, lift;
  cbn [last_error debug io fst snd].

(** * Properties *)

(** ** Machine integers *)

Lemma to_size_t_small z : 0 <= z < SIZE_T_MOD -> to_size_t z = z.
Proof. intros H. unfold to_size_t. apply Z.mod_small. exact H. Qed.

Lemma to_size_t_nonneg z : 0 <= to_size_t z.
Proof.
  unfold to_size_t, SIZE_T_MOD.
  pose proof (Z.mod_pos_bound z (2 ^ 64)). lia.
Qed.

Lemma to_int_small z : 0 <= z <= INT_MAX -> to_int z = z.
Proof.
  intros H. unfold to_int. unfold INT_MAX, UINT_MOD in *.
  rewrite Z.mod_small by lia.
  destruct (z <=? 2 ^ 31 - 1) eqn:E; [reflexivity | lia].
Qed.

(** ** The base64 decoder *)

Lemma classify_cases c i val pl :
  classify c i val pl = (i, val, pl)
  \/ exists val' pl', classify c i val pl = (i + 1, val', pl').
Proof.
  unfold classify.
  destruct (alphabet_value c); [right; eauto |].
  destruct (is_pad c); [right; eauto | left; reflexivity].
Qed.

(** The test [--str_len < 0] of line 51 never holds. *)
Lemma for_loop_no_return str : forall i val sl pl rv,
  for_loop str i val sl pl <> ForReturn rv.
Proof.
  induction str as [| c str IH]; intros i val sl pl rv; simpl.
  - destruct (i <? 4); discriminate.
  - destruct (i <? 4); [| discriminate].
    destruct (classify c i val pl) as [[i' val'] pl'].
    pose proof (to_size_t_nonneg (sl - 1)) as Hn.
    destruct (to_size_t (sl - 1) <? 0) eqn:E; [lia |]. apply IH.
Qed.

(** A group takes [4 - i] characters at least. *)
Lemma for_loop_consumes str : forall i val sl pl str' val' sl' pl',
  for_loop str i val sl pl = ForExit str' val' sl' pl' ->
  i <= 4 ->
  Z.of_nat (List.length str') + (4 - i) <= Z.of_nat (List.length str).
Proof.
  induction str as [| c str IH]; intros i val sl pl str' val' sl' pl' H Hi;
    simpl in H.
  - destruct (Z.ltb_spec i 4); [discriminate |]. inversion H; subst. cbn [List.length]. lia.
  - destruct (Z.ltb_spec i 4).
    + destruct (classify_cases c i val pl) as [Hc | (v & p & Hc)];
        rewrite Hc in H;
        destruct (to_size_t (sl - 1) <? 0); try discriminate;
        apply IH in H; cbn [List.length]; lia.
    + inversion H; subst. lia.
Qed.

(** More fuel than characters in the object is fuel enough. *)
Lemma while_loop_fuel fuel : forall str sl pl len cap val out,
  (List.length str < fuel)%nat ->
  while_loop fuel str sl pl len cap val out <> None.
Proof.
  induction fuel as [| fuel IH]; intros str sl pl len cap val out Hf.
  - lia.
  - simpl. destruct (3 <? sl); [| discriminate].
    destruct (for_loop str 0 val sl pl) as [str' val' sl' pl' | rv |] eqn:E;
      try discriminate.
    apply for_loop_consumes in E; [| lia].
    repeat match goal with
           | |- (if ?b then _ else _) <> None => destruct b; try discriminate
           end.
    apply IH. lia.
Qed.

Lemma length_snoc (out : list ascii) (b : ascii) :
  Z.of_nat (List.length (out ++ [b])) = Z.of_nat (List.length out) + 1.
Proof. rewrite length_app. simpl. lia. Qed.

Lemma firstn_length_app (out more : list ascii) :
  firstn (List.length out) (out ++ more) = out.
Proof.
  rewrite firstn_app, Nat.sub_diag, firstn_all. simpl. apply app_nil_r.
Qed.

(** Every write is within the capacity; the value returned is the number
    of bytes written, or -1 with the buffer full. *)
Lemma while_loop_capacity fuel : forall str sl pl len cap val out rv out',
  while_loop fuel str sl pl len cap val out = Some (Done (rv, out')) ->
  len = Z.of_nat (List.length out) -> len <= cap -> cap <= INT_MAX ->
  (exists more, out' = out ++ more)
  /\ Z.of_nat (List.length out') <= cap
  /\ (rv = Z.of_nat (List.length out')
      \/ rv = -1 /\ Z.of_nat (List.length out') = cap).
Proof.
  induction fuel as [| fuel IH];
    intros str sl pl len cap val out rv out' H Hlen Hle Hcap.
  - simpl in H. destruct (3 <? sl); [discriminate |].
    inversion H; subst. rewrite to_int_small by lia.
    split; [exists []; symmetry; apply app_nil_r | split; [lia | left; reflexivity]].
  - simpl in H. destruct (3 <? sl).
    + destruct (for_loop str 0 val sl pl) as [str' val' sl' pl' | r |] eqn:E;
        [| exfalso; exact (for_loop_no_return _ _ _ _ _ _ E) | discriminate].
      assert (Hmod : INT_MAX + 3 < SIZE_T_MOD) by (vm_compute; reflexivity).
      rewrite (to_size_t_small (len + 1)) in H by lia.
      rewrite (to_size_t_small (len + 1 + 1)) in H by lia.
      rewrite (to_size_t_small (len + 1 + 1 + 1)) in H by lia.
      loop_tests;
        try (inversion H; subst; clear H;
             rewrite ?to_int_small by lia;
             rewrite ?length_snoc;
             split; [first [ exists []; symmetry; apply app_nil_r
                           | rewrite <- ?app_assoc; eexists; reflexivity ]
                    | split; [lia | first [ left; lia | right; lia ] ] ]).
      apply IH in H; [| rewrite ?length_snoc; lia | lia | lia].
      destruct H as ((more & Hm) & Hbound & Hrv).
      split; [| split; assumption].
      rewrite <- !app_assoc in Hm. eexists. exact Hm.
    + inversion H; subst. rewrite to_int_small by lia.
      split; [exists []; symmetry; apply app_nil_r | split; [lia | left; reflexivity]].
Qed.

Lemma firstn_prefix (out' p : list ascii) (cap : Z) :
  (exists more, out' = p ++ more) ->
  Z.of_nat (List.length p) = cap ->
  firstn (Z.to_nat cap) out' = p.
Proof.
  intros (more & ->) <-. rewrite Nat2Z.id. apply firstn_length_app.
Qed.

(** With less room than the output takes, the decoder returns -1 and has
    filled the room it was given. *)
Lemma while_loop_overflow fuel :
  forall str sl pl len cap cap' val out rv' out',
  while_loop fuel str sl pl len cap' val out = Some (Done (rv', out')) ->
  len = Z.of_nat (List.length out) -> len <= cap -> cap <= cap' ->
  cap' <= INT_MAX ->
  cap < Z.of_nat (List.length out') ->
  while_loop fuel str sl pl len cap val out
  = Some (Done (-1, firstn (Z.to_nat cap) out')).
Proof.
  induction fuel as [| fuel IH];
    intros str sl pl len cap cap' val out rv' out' H Hlen Hle Hcc Hcap Hlt.
  - simpl in H. destruct (3 <? sl); [discriminate |].
    inversion H; subst. lia.
  - cbn [while_loop] in H |- *. destruct (3 <? sl).
    + destruct (for_loop str 0 val sl pl) as [str' val' sl' pl' | r |] eqn:E;
        [| exfalso; exact (for_loop_no_return _ _ _ _ _ _ E) | discriminate].
      assert (Hmod : INT_MAX + 3 < SIZE_T_MOD) by (vm_compute; reflexivity).
      cbv zeta in H |- *.
      rewrite (to_size_t_small (len + 1)) in H |- * by lia.
      rewrite (to_size_t_small (len + 1 + 1)) in H |- * by lia.
      rewrite (to_size_t_small (len + 1 + 1 + 1)) in H |- * by lia.
      loop_tests;
        try (inversion H; subst; clear H; rewrite ?length_snoc in Hlt; lia);
        try (inversion H; subst; clear H; rewrite ?length_snoc in Hlt;
             apply (f_equal (fun o : list ascii => Some (Done (-1, o))));
             symmetry; apply firstn_prefix;
             [ eexists; rewrite <- ?app_assoc; reflexivity
             | rewrite ?length_snoc; lia ]);
        try (destruct (while_loop_capacity _ _ _ _ _ _ _ _ _ _ H)
               as ((more & ->) & _);
             [rewrite ?length_snoc; lia | lia | lia |];
             apply (f_equal (fun o : list ascii => Some (Done (-1, o))));
             symmetry; apply firstn_prefix;
             [ eexists; rewrite <- ?app_assoc; reflexivity
             | rewrite ?length_snoc; lia ]).
      eapply IH; eauto; rewrite ?length_snoc; lia.
    + inversion H; subst. lia.
Qed.

(** *** Groups *)

Lemma classify_recognized c i val pl :
  recognized c = true ->
  exists val', classify c i val pl
               = (i + 1, val', if is_pad c then to_size_t (pl + 1) else pl).
Proof.
  unfold recognized, classify. destruct (alphabet_value c) eqn:E.
  - intros _. unfold alphabet_value, is_pad in *.
    assert (Ascii.eqb c "="%char = false) as ->; [| eauto].
    destruct (Ascii.eqb_spec c "="%char) as [-> |]; [vm_compute in E; discriminate | reflexivity].
  - intros ->. eauto.
Qed.

Lemma classify_skipped c i val pl :
  recognized c = false -> classify c i val pl = (i, val, pl).
Proof.
  unfold recognized, classify. destruct (alphabet_value c); [discriminate |].
  intros ->. reflexivity.
Qed.

Lemma pads_le_length s : (pads s <= List.length s)%nat.
Proof. unfold pads. apply filter_length_le. Qed.

Lemma pads_cons c s :
  pads (c :: s) = ((if is_pad c then 1 else 0) + pads s)%nat.
Proof. unfold pads. simpl. destruct (is_pad c); reflexivity. Qed.

Lemma symbols_cons c s :
  symbols (c :: s) = if recognized c then c :: symbols s else symbols s.
Proof. reflexivity. Qed.

Lemma ends_with_symbol_pos s :
  ends_with_symbol s = true -> (0 < List.length (symbols s))%nat.
Proof.
  induction s as [| c s IH]; [discriminate |].
  intros H. rewrite symbols_cons. destruct s as [| c' s'].
  - cbn in H. rewrite H. cbn. lia.
  - specialize (IH H). destruct (recognized c); cbn [List.length]; lia.
Qed.

(** The [for] loop on the text of the rest of a group: it stops right
    after the text, with the counters moved by what it has read. *)
Lemma for_loop_group g : forall i val pl,
  0 <= i < 4 ->
  Z.of_nat (List.length (symbols g)) = 4 - i ->
  ends_with_symbol g = true ->
  0 <= pl -> pl + (4 - i) < SIZE_T_MOD ->
  exists val',
    forall rest sl,
      Z.of_nat (List.length g) <= sl < SIZE_T_MOD ->
      for_loop (g ++ rest) i val sl pl
      = ForExit rest val' (sl - Z.of_nat (List.length g))
                (pl + Z.of_nat (pads g)).
Proof.
  induction g as [| c g IH]; intros i val pl Hi Hsym Hend Hpl Hpl2.
  - discriminate.
  - cbn [ends_with_symbol] in Hend.
    rewrite symbols_cons in Hsym.
    assert (Hstep : forall sl, Z.of_nat (S (List.length g)) <= sl < SIZE_T_MOD ->
              to_size_t (sl - 1) = sl - 1 /\ (sl - 1 <? 0) = false).
    { intros sl Hsl. split; [apply to_size_t_small | apply Z.ltb_ge]; lia. }
    destruct (recognized c) eqn:Hc.
    + destruct (classify_recognized c i val pl Hc) as (val1 & Hcl).
      assert (Hpad : (if is_pad c then to_size_t (pl + 1) else pl)
                     = pl + Z.of_nat (if is_pad c then 1 else 0)%nat).
      { destruct (is_pad c); [apply to_size_t_small|]; lia. }
      cbn [List.length] in Hsym.
      destruct g as [| c' g'].
      * exists val1. intros rest sl Hsl. cbn [app for_loop].
        destruct (Hstep sl Hsl) as (Hdec & Hnn).
        destruct (Z.ltb_spec i 4); [| lia].
        rewrite Hcl, Hdec, Hnn.
        assert (i + 1 = 4) as -> by (cbn [symbols filter List.length] in Hsym; lia).
        destruct rest; cbn [for_loop]; change (4 <? 4) with false;
          cbv iota; rewrite Hpad, pads_cons; unfold pads;
          cbn [filter List.length]; f_equal; lia.
      * pose proof (ends_with_symbol_pos _ Hend) as Hpos.
        destruct (IH (i + 1) val1
                     (if is_pad c then to_size_t (pl + 1) else pl))
          as (val' & Hrun); try exact Hend; try lia.
        -- rewrite Hpad. destruct (is_pad c); lia.
        -- exists val'. intros rest sl Hsl.
           destruct (Hstep sl Hsl) as (Hdec & Hnn).
           change ((c :: c' :: g') ++ rest) with (c :: ((c' :: g') ++ rest)).
           cbn [for_loop]. destruct (Z.ltb_spec i 4); [| lia].
           rewrite Hcl, Hdec, Hnn, Hrun, Hpad, (pads_cons c)
             by (cbn [List.length] in *; lia).
           cbn [List.length]. f_equal; lia.
    + destruct g as [| c' g']; [congruence |].
      destruct (IH i val pl) as (val' & Hrun);
        try assumption; try (cbn [List.length] in *; lia).
      exists val'. intros rest sl Hsl.
      destruct (Hstep sl Hsl) as (Hdec & Hnn).
      change ((c :: c' :: g') ++ rest) with (c :: ((c' :: g') ++ rest)).
      cbn [for_loop]. destruct (Z.ltb_spec i 4); [| lia].
      rewrite (classify_skipped c i val pl Hc), Hdec, Hnn, Hrun, (pads_cons c)
        by (cbn [List.length] in *; lia).
      assert (is_pad c = false) as ->.
      { unfold recognized in Hc. destruct (alphabet_value c); [discriminate | exact Hc]. }
      cbn [List.length]. f_equal; lia.
Qed.

Lemma is_group_parts g :
  is_group g = true ->
  List.length (symbols g) = 4%nat /\ ends_with_symbol g = true
  /\ no_nul g = true /\ (4 <= List.length g)%nat.
Proof.
  unfold is_group. rewrite !andb_true_iff, Nat.eqb_eq.
  intros ((H1 & H2) & H3). repeat split; try assumption.
  rewrite <- H1. unfold symbols. apply filter_length_le.
Qed.

(** The last group of the statement: one or two [=] end the decoding,
    whatever follows the group. *)
Lemma while_loop_padded_group grp (p : nat) cap val out :
  is_group grp = true -> pads grp = p -> (p = 1 \/ p = 2)%nat ->
  Z.of_nat (List.length out) + 3 - Z.of_nat p <= cap -> cap <= INT_MAX ->
  exists out',
    Z.of_nat (List.length out')
    = Z.of_nat (List.length out) + 3 - Z.of_nat p
    /\ forall rest sl fuel,
         Z.of_nat (List.length grp) <= sl < SIZE_T_MOD ->
         (0 < fuel)%nat ->
         while_loop fuel (grp ++ rest) sl 0 (Z.of_nat (List.length out))
                    cap val out
         = Some (Done (Z.of_nat (List.length out'), out')).
Proof.
  intros Hg Hp Hp12 Hcap Hmax.
  destruct (is_group_parts _ Hg) as (Hsym & Hend & _ & Hlen).
  assert (Hmod : INT_MAX + 3 < SIZE_T_MOD) by (vm_compute; reflexivity).
  destruct (for_loop_group grp 0 val 0) as (val' & Hrun);
    try assumption; try lia.
  assert (Hbody : forall rest sl fuel,
    Z.of_nat (List.length grp) <= sl < SIZE_T_MOD ->
    while_loop (S fuel) (grp ++ rest) sl 0 (Z.of_nat (List.length out))
               cap val out
    = if Z.of_nat p =? 2 then
        Some (Done (Z.of_nat (List.length out) + 1,
                    out ++ [uchar (Z.shiftl (v0 val') 2 + Z.shiftr (v1 val') 4)]))
      else
        Some (Done (Z.of_nat (List.length out) + 1 + 1,
                    (out ++ [uchar (Z.shiftl (v0 val') 2 + Z.shiftr (v1 val') 4)])
                    ++ [uchar (Z.shiftl (v1 val') 4 + Z.shiftr (v2 val') 2)]))).
  { intros rest sl fuel Hsl. cbn [while_loop].
    destruct (Z.ltb_spec 3 sl); [| lia].
    rewrite (Hrun rest sl Hsl). cbv zeta. rewrite Hp.
    change (0 + Z.of_nat p) with (Z.of_nat p).
    rewrite (to_size_t_small (_ + 1)) by lia.
    destruct (Z.ltb_spec cap (Z.of_nat (List.length out) + 1)); [lia |].
    destruct (Z.eqb_spec (Z.of_nat p) 2) as [E2 | E2].
    - rewrite to_int_small by lia. reflexivity.
    - rewrite (to_size_t_small (_ + 1 + 1)) by lia.
      destruct (Z.ltb_spec cap (Z.of_nat (List.length out) + 1 + 1)); [lia |].
      destruct (Z.eqb_spec (Z.of_nat p) 1); [| lia].
      rewrite to_int_small by lia. reflexivity. }
  destruct (Z.eqb_spec (Z.of_nat p) 2) as [E2 | E2].
  - exists (out ++ [uchar (Z.shiftl (v0 val') 2 + Z.shiftr (v1 val') 4)]).
    rewrite length_snoc. split; [lia |].
    intros rest sl [| fuel] Hsl Hf; [lia | apply Hbody; exact Hsl].
  - exists ((out ++ [uchar (Z.shiftl (v0 val') 2 + Z.shiftr (v1 val') 4)])
            ++ [uchar (Z.shiftl (v1 val') 4 + Z.shiftr (v2 val') 2)]).
    rewrite !length_snoc. split; [lia |].
    intros rest sl [| fuel] Hsl Hf; [lia | apply Hbody; exact Hsl].
Qed.

(** Groups without [=] yield three bytes each and leave the loop running. *)
Lemma while_loop_groups groups grp (p : nat) cap :
  Forall (fun g => is_full_group g = true) groups ->
  is_group grp = true -> pads grp = p -> (p = 1 \/ p = 2)%nat ->
  cap <= INT_MAX ->
  forall val out,
  Z.of_nat (List.length out) + 3 * Z.of_nat (List.length groups)
    + 3 - Z.of_nat p <= cap ->
  exists out',
    Z.of_nat (List.length out')
    = Z.of_nat (List.length out) + 3 * Z.of_nat (List.length groups)
      + 3 - Z.of_nat p
    /\ forall rest sl fuel,
         Z.of_nat (List.length (List.concat groups ++ grp)) <= sl < SIZE_T_MOD ->
         (List.length groups < fuel)%nat ->
         while_loop fuel ((List.concat groups ++ grp) ++ rest) sl 0
                    (Z.of_nat (List.length out)) cap val out
         = Some (Done (Z.of_nat (List.length out'), out')).
Proof.
  intros Hall Hg Hp Hp12 Hmax.
  assert (Hmod : INT_MAX + 3 < SIZE_T_MOD) by (vm_compute; reflexivity).
  induction Hall as [| g groups Hfull Hall IH]; intros val out Hcap.
  - cbn [List.concat app List.length] in *.
    destruct (while_loop_padded_group grp p cap val out Hg Hp Hp12)
      as (out' & Hlen & Hrun); try lia.
    exists out'. split; [lia |]. intros rest sl fuel Hsl Hf.
    apply Hrun; [exact Hsl | lia].
  - unfold is_full_group in Hfull. apply andb_true_iff in Hfull.
    destruct Hfull as (Hgg & Hnopad). apply Nat.eqb_eq in Hnopad.
    destruct (is_group_parts _ Hgg) as (Hsym & Hend & _ & Hlen).
    destruct (for_loop_group g 0 val 0) as (val' & Hrun);
      try assumption; try lia.
    cbn [List.length] in Hcap.
    set (out3 := ((out ++ [uchar (Z.shiftl (v0 val') 2 + Z.shiftr (v1 val') 4)])
                  ++ [uchar (Z.shiftl (v1 val') 4 + Z.shiftr (v2 val') 2)])
                 ++ [uchar (Z.shiftl (v2 val') 6 + v3 val')]).
    assert (Hlen3 : Z.of_nat (List.length out3) = Z.of_nat (List.length out) + 3)
      by (unfold out3; rewrite !length_snoc; lia).
    destruct (IH val' out3) as (out' & Hlen' & Hrest); [lia |].
    exists out'. split; [cbn [List.length]; lia |].
    intros rest sl [| fuel] Hsl Hf; [lia |].
    cbn [List.concat] in Hsl |- *. rewrite <- !app_assoc.
    rewrite !length_app in Hsl.
    cbn [while_loop]. destruct (Z.ltb_spec 3 sl); [| lia].
    rewrite (Hrun _ sl) by lia. cbv zeta. rewrite Hnopad.
    change (0 + Z.of_nat 0) with 0.
    rewrite (to_size_t_small (_ + 1)) by lia.
    rewrite (to_size_t_small (_ + 1 + 1)) by lia.
    rewrite (to_size_t_small (_ + 1 + 1 + 1)) by lia.
    destruct (Z.ltb_spec cap (Z.of_nat (List.length out) + 1)); [lia |].
    change (0 =? 2) with false. change (0 =? 1) with false. cbv iota.
    destruct (Z.ltb_spec cap (Z.of_nat (List.length out) + 1 + 1)); [lia |].
    destruct (Z.ltb_spec cap (Z.of_nat (List.length out) + 1 + 1 + 1)); [lia |].
    fold out3.
    replace (Z.of_nat (List.length out) + 1 + 1 + 1)
      with (Z.of_nat (List.length out3)) by lia.
    rewrite app_assoc. apply Hrest; [| cbn [List.length] in Hf; lia].
    rewrite length_app. lia.
Qed.

Lemma strlen_terminated rest :
  In NUL rest ->
  exists n, strlen rest = Done n /\ 0 <= n < Z.of_nat (List.length rest).
Proof.
  induction rest as [| c rest IH]; intros Hin; [contradiction |].
  cbn [strlen List.length]. destruct (Ascii.eqb_spec c NUL) as [-> | Hc].
  - exists 0. split; [reflexivity | lia].
  - destruct Hin as [-> | Hin]; [congruence |].
    destruct (IH Hin) as (n & -> & Hn). exists (n + 1). split; [reflexivity | lia].
Qed.

Lemma strlen_app t rest :
  no_nul t = true -> In NUL rest ->
  exists n, strlen (t ++ rest) = Done n
            /\ Z.of_nat (List.length t) <= n
               < Z.of_nat (List.length (t ++ rest)).
Proof.
  intros Ht Hin. induction t as [| c t IH].
  - destruct (strlen_terminated rest Hin) as (n & Hn & Hb).
    exists n. cbn [app List.length]. split; [exact Hn | lia].
  - cbn [no_nul forallb] in Ht. apply andb_true_iff in Ht.
    destruct Ht as (Hc & Ht). destruct (IH Ht) as (n & Hn & Hb).
    exists (n + 1). cbn [app strlen List.length].
    apply negb_true_iff in Hc. rewrite Hc, Hn. split; [reflexivity | lia].
Qed.

Lemma no_nul_app s t : no_nul (s ++ t) = no_nul s && no_nul t.
Proof. apply forallb_app. Qed.

Lemma full_groups_text groups :
  forallb is_full_group groups = true ->
  Forall (fun g => is_full_group g = true) groups
  /\ no_nul (List.concat groups) = true
  /\ (List.length groups <= List.length (List.concat groups))%nat.
Proof.
  induction groups as [| g groups IH]; intros H.
  - repeat split; [constructor | cbn; lia].
  - cbn [forallb] in H. apply andb_true_iff in H. destruct H as (Hg & H).
    destruct (IH H) as (Hall & Hnul & Hlen).
    pose proof Hg as Hg'. unfold is_full_group in Hg'.
    apply andb_true_iff in Hg'. destruct Hg' as (Hgg & _).
    destruct (is_group_parts _ Hgg) as (_ & _ & Hn & Hl).
    repeat split.
    + constructor; assumption.
    + cbn [List.concat]. rewrite no_nul_app, Hn, Hnul. reflexivity.
    + cbn [List.concat List.length]. rewrite length_app. lia.
Qed.

(** ** The verifier and the policy engine *)

Lemma sk_X509_REVOKED_find_from_range stack serial : forall idx,
  0 <= idx ->
  sk_X509_REVOKED_find_from idx stack serial = -1
  \/ idx <= sk_X509_REVOKED_find_from idx stack serial.
Proof.
  induction stack as [| r stack IH]; intros idx Hidx; cbn.
  - left. reflexivity.
  - destruct (rev_serialNumber r =? serial); [right; lia |].
    destruct (IH (idx + 1)) as [H | H]; [lia | left; exact H | right; lia].
Qed.

Lemma sk_X509_REVOKED_find_from_spec stack serial : forall idx,
  0 <= idx ->
  (sk_X509_REVOKED_find_from idx stack serial =? -1)
  = negb (existsb (fun r => rev_serialNumber r =? serial) stack).
Proof.
  induction stack as [| r stack IH]; intros idx Hidx; cbn.
  - reflexivity.
  - destruct (rev_serialNumber r =? serial); cbn.
    + apply Z.eqb_neq. lia.
    + apply IH. lia.
Qed.

(** The search returns -1 exactly when no entry has the serial number. *)
Lemma sk_X509_REVOKED_find_spec crl x509 :
  (sk_X509_REVOKED_find (revoked crl) (serialNumber x509) =? -1)
  = negb (lists_serial crl x509).
Proof.
  apply sk_X509_REVOKED_find_from_spec. lia.
Qed.

(** The verifier returns the code of the verdict of section 4.3. *)
Lemma verify_crl_verdict W crl ctx s :
  exists s',
    verify_crl W crl ctx s
    = Done (verdict_code (crl_verifier W crl ctx), s').
Proof.
  unfold verify_crl, crl_verifier, malformed, in_the_future, in_the_past.
  run.
  destruct (lookup_cert W ctx (crl_issuer crl)) as [issuer |];
    [| eexists; reflexivity].
  destruct (pubkey issuer) as [pkey |]; [| eexists; reflexivity].
  repeat match goal with
         | |- context [if ?b then _ else _] => destruct b
         end; eexists; reflexivity.
Qed.

Lemma verify_crl_range W crl ctx s v s' :
  verify_crl W crl ctx s = Done (v, s') -> v = -1 \/ v = 0 \/ v = 1.
Proof.
  destruct (verify_crl_verdict W crl ctx s) as (s1 & ->).
  intros H. inversion H. destruct (crl_verifier W crl ctx); cbn; auto.
Qed.

(** Lines 266-279 after the verifier has spoken. *)
Lemma revoked_by_verdict W x509 ctx crl s v s2 :
  (DBG "verifying crl" ;; verify_crl W crl ctx) s = Done (v, s2) ->
  0 <= v ->
  revoked_by W x509 ctx crl s
  = Done ((if v =? 0 then 0 else if lists_serial crl x509 then 0 else 1), s2).
Proof.
  intros H Hv. unfold revoked_by.
  unfold bind at 1. unfold bind at 1 in H.
  destruct (DBG "verifying crl" s) as [[[] s0] |]; [| discriminate].
  unfold bind. rewrite H.
  destruct (Z.ltb_spec v 0); [lia |].
  destruct (Z.eqb_spec v 0); [reflexivity |].
  unfold ret. rewrite sk_X509_REVOKED_find_spec.
  destruct (lists_serial crl x509); reflexivity.
Qed.

Lemma revoked_by_range W x509 ctx crl s rv s' :
  revoked_by W x509 ctx crl s = Done (rv, s') -> rv = -1 \/ rv = 0 \/ rv = 1.
Proof.
  unfold revoked_by. run.
  destruct (verify_crl W crl ctx _) as [[v s1] |] eqn:E; [| discriminate].
  destruct (v <? 0); [intros H; inversion H; auto |].
  destruct (v =? 0); [intros H; inversion H; auto |].
  destruct (_ =? -1); intros H; inversion H; auto.
Qed.

Lemma offline_crl_error W x509 ctx s rv s' :
  offline_crl W x509 ctx s = Done (inl rv, s') -> rv = -1.
Proof.
  unfold offline_crl. run.
  destruct (lookup_crl W ctx (issuer_name x509)); intros H; inversion H.
  reflexivity.
Qed.

Lemma online_crl_error W x509 ctx s rv s' :
  online_crl W x509 ctx s = Done (inl rv, s') -> rv = -1.
Proof.
  unfold online_crl. unfold bind at 1. unfold bind at 1.
  destruct (DBG _ s) as [[[] s0] |]; [| discriminate].
  match goal with
  | |- context [match ?m s0 with _ => _ end] =>
      destruct (m s0) as [[[dp |] s1] |]
  end; [| intros H; inversion H; reflexivity | discriminate].
  unfold bind. destruct (try_points W dp s1) as [[[c |] s2] |];
    cbn; intros H; inversion H. reflexivity.
Qed.

Lemma check_for_revocation_range W x509 ctx policy s rv s' :
  policy = CRLP_ONLINE \/ policy = CRLP_OFFLINE ->
  check_for_revocation W x509 ctx policy s = Done (rv, s') ->
  rv = -1 \/ rv = 0 \/ rv = 1.
Proof.
  intros [-> | ->]; simp check_for_revocation; unfold bind at 1;
    (destruct (DBG1 _ _ s) as [[[] s0] |]; [| discriminate]);
    unfold bind at 1.
  - destruct (online_crl W x509 ctx s0) as [[[e | crl] s1] |] eqn:E;
      [| apply revoked_by_range | discriminate].
    apply online_crl_error in E. subst e. intros H. inversion H. auto.
  - destruct (offline_crl W x509 ctx s0) as [[[e | crl] s1] |] eqn:E;
      [| apply revoked_by_range | discriminate].
    apply offline_crl_error in E. subst e. intros H. inversion H. auto.
Qed.

(** The verdict of the verifier on the CRL in hand decides the result. *)
Lemma judged_result W x509 ctx policy s crl v s2 :
  judged W x509 ctx policy s crl v s2 ->
  0 <= v ->
  check_for_revocation W x509 ctx policy s
  = Done ((if v =? 0 then 0 else if lists_serial crl x509 then 0 else 1), s2).
Proof.
  intros J Hv. induction J as
      [ s crl s1 v s2 Hcrl Hv1 | s crl s1 v s2 Hcrl Hv1
      | s s0 crl v s2 Hdbg J IH Hv0
      | s rv s1 s1' crl v s2 Honline Hrv Hdbg J IH ].
  - simp check_for_revocation. unfold bind at 1. unfold bind at 1 in Hcrl.
    destruct (DBG1 _ _ s) as [[[] s0] |]; [| discriminate].
    unfold bind at 1. rewrite Hcrl. apply revoked_by_verdict; assumption.
  - simp check_for_revocation. unfold bind at 1. unfold bind at 1 in Hcrl.
    destruct (DBG1 _ _ s) as [[[] s0] |]; [| discriminate].
    unfold bind at 1. rewrite Hcrl. apply revoked_by_verdict; assumption.
  - rewrite check_for_revocation_equation_4. unfold bind at 1. rewrite Hdbg.
    unfold bind at 1. cbv beta. rewrite (IH Hv).
    destruct (v =? 0); [reflexivity |].
    destruct (lists_serial crl x509); reflexivity.
  - rewrite check_for_revocation_equation_4.
    unfold bind at 1. unfold bind at 1 in Honline.
    destruct (DBG1 _ _ s) as [[[] s0] |]; [| discriminate].
    unfold bind at 1. cbv beta. rewrite Honline.
    destruct (Z.ltb_spec rv 0); [| lia].
    rewrite <- (IH Hv). revert Hdbg. run. intros Hdbg. inversion Hdbg.
    reflexivity.
Qed.

Lemma setup_succeeds_parts W ca_dir crl_dir :
  setup_succeeds W ca_dir crl_dir = true ->
  X509_STORE_new W = true /\ X509_STORE_add_lookup W = true
  /\ (X509_LOOKUP_add_dir W ca_dir X509_FILETYPE_PEM =? 1) = true
  /\ (X509_LOOKUP_add_dir W ca_dir X509_FILETYPE_ASN1 =? 1) = true
  /\ (X509_LOOKUP_add_dir W crl_dir X509_FILETYPE_PEM =? 1) = true
  /\ (X509_LOOKUP_add_dir W crl_dir X509_FILETYPE_ASN1 =? 1) = true
  /\ X509_STORE_CTX_new W = true.
Proof.
  unfold setup_succeeds. rewrite !andb_true_iff. tauto.
Qed.

(** Up to the call of [X509_verify_cert]. *)
Lemma verify_certificate_setup W x509 ca_dir crl_dir policy s :
  setup_succeeds W ca_dir crl_dir = true ->
  verify_certificate W x509 ca_dir crl_dir policy s
  = let ctx := store_ctx x509 ca_dir crl_dir in
    let s0 := {| last_error := last_error s;
                 debug := (debug s
                           ++ [Dbg1 "adding ca certificate lookup dir %s"
                                    (ArgString ca_dir)])
                          ++ [Dbg1 "adding crl lookup dir %s"
                                   (ArgString crl_dir)];
                 io := io s |} in
    if negb (X509_verify_cert W ctx =? 1) then
      Done (0, {| last_error :=
                    "certificate is invalid: "
                    ++ X509_verify_cert_error_string W
                         (released_ctx_error W ctx);
                  debug := debug s0; io := io s0 |})
    else
      (DBG "certificate is valid" ;;
       rv <- check_for_revocation W x509 ctx policy ;;
       if rv <? 0 then
         err <- get_error ;;
         set_error ("check_for_revocation() failed: " ++ err) ;;
         ret (-1)
       else if rv =? 0 then
         DBG "certificate has been revoked" ;; ret rv
       else
         DBG "certificate has not been revoked" ;; ret rv) s0.
Proof.
  intros H. apply setup_succeeds_parts in H.
  destruct H as (H1 & H2 & H3 & H4 & H5 & H6 & H7).
  unfold verify_certificate. rewrite H1, H2. cbn [negb].
  unfold bind at 1. unfold DBG1 at 1. rewrite H3, H4. cbn [negb].
  unfold bind at 1. unfold DBG1 at 1. rewrite H5, H6, H7. cbn [negb].
  cbv zeta. cbn [last_error debug io].
  destruct (negb (X509_verify_cert W (store_ctx x509 ca_dir crl_dir) =? 1));
    reflexivity.
Qed.

(** ** The fetcher *)

Lemma bind_call {A} (c : io_call) (k : M A) s :
  (call c ;; k)%cmd s
  = k {| last_error := last_error s; debug := debug s;
         io := io s ++ [c] |}.
Proof. reflexivity. Qed.

Lemma code_inj a b : code a = code b -> a = b.
Proof.
  unfold code. intros H. apply N2Z.inj in H.
  rewrite <- (ascii_N_embedding a), <- (ascii_N_embedding b), H. reflexivity.
Qed.

Lemma is_prefix_length m p :
  is_prefix m p = true -> (List.length m <= List.length p)%nat.
Proof.
  revert p. induction m as [| a m IH]; intros p H; cbn; [lia |].
  destruct p as [| b p]; [discriminate |]. cbn in H.
  apply andb_true_iff in H. destruct H as (_ & H). apply IH in H. cbn. lia.
Qed.

(** On an object long enough, [strncmp] against a marker is 0 exactly
    when the marker is a prefix. *)
Lemma strncmp_prefix m : forall p extra,
  no_nul m = true -> (List.length m <= List.length p)%nat ->
  exists z, strncmp p (m ++ extra) (List.length m) = Done z
            /\ (z =? 0) = is_prefix m p.
Proof.
  induction m as [| a m IH]; intros p extra Hm Hlen.
  - exists 0. split; reflexivity.
  - destruct p as [| b p]; [cbn in Hlen; lia |].
    cbn [no_nul forallb] in Hm. apply andb_true_iff in Hm.
    destruct Hm as (Ha & Hm). apply negb_true_iff in Ha.
    cbn [List.length app strncmp is_prefix].
    destruct (Ascii.eqb_spec b a) as [-> | Hne].
    + rewrite Ha, Ascii.eqb_refl. cbn [andb].
      apply IH; [exact Hm | cbn in Hlen; lia].
    + assert (Ascii.eqb a b = false) as ->
          by (apply Ascii.eqb_neq; congruence).
      exists (code b - code a). split; [reflexivity |].
      apply Z.eqb_neq. intros H. apply Hne, code_inj. lia.
Qed.

Lemma first_occurrence_short m : forall p i,
  (List.length p < List.length m)%nat -> first_occurrence_from m i p = None.
Proof.
  induction p as [| c p IH]; intros i H; cbn [first_occurrence_from].
  - destruct (is_prefix m []) eqn:E; [apply is_prefix_length in E; lia |].
    reflexivity.
  - destruct (is_prefix m (c :: p)) eqn:E;
      [apply is_prefix_length in E; lia |].
    apply IH. cbn in H. lia.
Qed.

Lemma first_occurrence_bounds m : forall p i k,
  first_occurrence_from m i p = Some k ->
  i <= k /\ k + Z.of_nat (List.length m) <= i + Z.of_nat (List.length p).
Proof.
  induction p as [| c p IH]; intros i k H; cbn [first_occurrence_from] in H.
  - destruct (is_prefix m []) eqn:E; [| discriminate].
    apply is_prefix_length in E. inversion H; subst. lia.
  - destruct (is_prefix m (c :: p)) eqn:E.
    + apply is_prefix_length in E. inversion H; subst. lia.
    + apply IH in H. cbn [List.length]. lia.
Qed.

(** The scanning loops of lines 86-93 find the first occurrence of the
    marker, or stop one past the last index they look at. *)
Lemma scan_first_occurrence marker :
  let m := list_ascii_of_string marker in
  no_nul m = true -> (0 < List.length m)%nat ->
  forall p i bound,
    Z.of_nat (List.length p) + i = bound + Z.of_nat (List.length m) ->
    Z.of_nat (List.length m) - 1 <= Z.of_nat (List.length p) ->
    bound + 1 < UINT_MOD ->
    scan marker (List.length m) bound i p
    = Done (match first_occurrence_from m i p with
            | Some k => k
            | None => bound + 1
            end).
Proof.
  intros m Hm Hpos. induction p as [| c p IH]; intros i bound Hi Hlen Hb.
  - cbn [List.length] in *. cbn [scan].
    destruct (Z.leb_spec i bound); [lia |].
    rewrite first_occurrence_short by (cbn; lia). f_equal. lia.
  - cbn [scan]. destruct (Z.leb_spec i bound) as [Hle | Hgt].
    + destruct (strncmp_prefix m (c :: p) [NUL] Hm) as (z & Hz & Hpre);
        [cbn [List.length] in *; lia |].
      fold m. unfold cstr. fold m. rewrite Hz.
      cbn [first_occurrence_from]. rewrite <- Hpre.
      destruct (Z.eqb_spec z 0) as [-> | Hnz]; [reflexivity |].
      assert (Hgo : (i + 1 <? UINT_MOD) = true) by (apply Z.ltb_lt; lia).
      destruct z; [congruence | |]; rewrite Hgo;
        apply IH; cbn [List.length] in *; lia.
    + rewrite first_occurrence_short by (cbn [List.length] in *; lia).
      f_equal. lia.
Qed.

Lemma to_uint_small z : 0 <= z < UINT_MOD -> to_uint z = z.
Proof. intros H. unfold to_uint. apply Z.mod_small. exact H. Qed.

Lemma to_long_small z : 0 <= z < UINT_MOD -> to_long z = z.
Proof.
  intros H. unfold to_long, SIZE_T_MOD, UINT_MOD in *.
  rewrite Z.mod_small by lia.
  destruct (Z.ltb_spec z (2 ^ 63)); [reflexivity | lia].
Qed.

(** Two runs that end in a read outside the object: a text that stops
    inside a group, and a buffer shorter than the BEGIN marker. *)
Lemma base64_to_bin_reads_past_terminator :
  base64_to_bin (cstr "QUJDQU  ") 10 = Fault.
Proof. vm_compute. reflexivity. Qed.

Lemma download_crl_short_buffer :
  download_crl (serving (list_ascii_of_string "0123456789"))
               "http://ca/crl" initial_state = Fault.
Proof. vm_compute. reflexivity. Qed.

(** * The claims of the specification *)

(** C9 fails on the code: on [truncated_buffer] the decoder returns -1,
    the test [der_len <= 0] on the [size_t] it is stored in does not see
    it, and the bytes written so far go to the DER parser with length -1;
    what [download_crl] returns is what the parser makes of them. *)
Theorem download_crl_decoder_failure
    (parse : list ascii -> Z -> option X509_CRL) :
  base64_to_bin (decoder_input truncated_buffer 0 28) 29
  = Done (-1, truncated_der)
  /\ download_crl (world (fetch_buffer truncated_buffer) parse [])
                  "http://ca/crl.pem" initial_state
     = parsed (parse truncated_der (-1))
              {| last_error := "";
                 debug := [Dbg "crl is base64 encoded"];
                 io := [Fetch "http://ca/crl.pem"] |}.
Proof. split; vm_compute; reflexivity. Qed.

(** C8.  The verifier returns the code of one of the three verdicts, and
    the verdict is the one the ordered checks of section 4.3 give: issuer
    unknown (or without a usable key) and a failing signature engine are
    processing errors; a signature that does not validate is the negative
    verdict; then a malformed last-update is a processing error, a
    last-update in the future the negative verdict; then the same for a
    malformed next-update and a next-update in the past; a CRL that
    passes all of them is valid. *)
Theorem verify_crl_ternary W crl ctx s :
  exists s',
    verify_crl W crl ctx s
    = Done (verdict_code (crl_verifier W crl ctx), s').
Proof. apply verify_crl_verdict. Qed.

(** C1, as the code has it.  Under OFFLINE, ONLINE and AUTO alike, when
    the verifier returns 0 (invalid or expired) on the CRL in hand, the
    revocation check returns 0, the value it returns for a revoked
    certificate: neither the error -1 nor 1. *)
Theorem invalid_crl_yields_zero W x509 ctx policy s crl s' :
  judged W x509 ctx policy s crl 0 s' ->
  check_for_revocation W x509 ctx policy s = Done (0, s').
Proof.
  intros J. apply (judged_result _ _ _ _ _ _ _ _ J). lia.
Qed.

Lemma invalid_crl_yields_zero_witness :
  exists s',
    check_for_revocation (offline_world [expired_crl]) leaf (ctx_of leaf)
                         CRLP_OFFLINE initial_state
    = Done (0, s').
Proof.
  eexists.
  apply (invalid_crl_yields_zero (offline_world [expired_crl]) leaf
           (ctx_of leaf) CRLP_OFFLINE initial_state expired_crl).
  eapply judged_offline; vm_compute; reflexivity.
Defined.

(** C1 as stated fails: a CRL whose next-update was yesterday makes the
    verifier return 0, and the revocation check returns 0, not -1, under
    OFFLINE and under AUTO. *)
Lemma expired_crl_is_not_an_error :
  returned (verify_crl (offline_world [expired_crl]) expired_crl
                       (ctx_of leaf) initial_state) = Some 0
  /\ returned (check_for_revocation (offline_world [expired_crl]) leaf
                 (ctx_of leaf) CRLP_OFFLINE initial_state) = Some 0
  /\ returned (check_for_revocation (offline_world [expired_crl]) leaf
                 (ctx_of leaf) CRLP_AUTO initial_state) = Some 0.
Proof. repeat split; vm_compute; reflexivity. Qed.

(** C5.  When the verifier returns 1 (valid) on the CRL in hand, the
    revocation check returns 0 (revoked) if an entry of the CRL has the
    serial number of the certificate, and 1 (not revoked) if none has. *)
Theorem valid_crl_serial_scan W x509 ctx policy s crl s' :
  judged W x509 ctx policy s crl 1 s' ->
  check_for_revocation W x509 ctx policy s
  = Done ((if lists_serial crl x509 then 0 else 1), s').
Proof.
  intros J. apply (judged_result _ _ _ _ _ _ _ _ J). lia.
Qed.

Lemma valid_crl_serial_scan_witness :
  exists s',
    check_for_revocation (offline_world [current_crl]) leaf (ctx_of leaf)
                         CRLP_OFFLINE initial_state
    = Done ((if lists_serial current_crl leaf then 0 else 1), s').
Proof.
  eexists.
  apply (valid_crl_serial_scan (offline_world [current_crl]) leaf
           (ctx_of leaf) CRLP_OFFLINE initial_state current_crl).
  eapply judged_offline; vm_compute; reflexivity.
Defined.

(** C3.  With policy NONE and a certificate that passes path validation,
    [verify_certificate] returns 1, and no URI is fetched and nothing is
    looked up in the store. *)
Theorem policy_none_not_revoked W x509 ca_dir crl_dir s :
  setup_succeeds W ca_dir crl_dir = true ->
  X509_verify_cert W (store_ctx x509 ca_dir crl_dir) = 1 ->
  exists s',
    verify_certificate W x509 ca_dir crl_dir CRLP_NONE s = Done (1, s')
    /\ io s' = io s.
Proof.
  intros Hsetup Hok. rewrite verify_certificate_setup by exact Hsetup.
  cbv zeta. rewrite Hok. cbn [Z.eqb Pos.eqb negb].
  rewrite check_for_revocation_equation_1.
  eexists. split; reflexivity.
Qed.

Lemma policy_none_not_revoked_witness :
  exists s',
    verify_certificate (offline_world []) leaf "/etc/pam_pkcs11/cacerts"
                       "/etc/pam_pkcs11/crls" CRLP_NONE initial_state
    = Done (1, s')
    /\ io s' = io initial_state.
Proof.
  apply (policy_none_not_revoked (offline_world []) leaf
           "/etc/pam_pkcs11/cacerts" "/etc/pam_pkcs11/crls" initial_state).
  - reflexivity.
  - reflexivity.
Defined.

(** C2, as the code has it.  When path validation fails,
    [verify_certificate] returns 0, the value it returns for a revoked
    certificate, with the error slot set to "certificate is invalid: "
    and a diagnostic string of the library; the revocation check is not
    entered: its first debug line is not in the trace, and nothing is
    fetched or looked up. *)
Theorem invalid_certificate_returns_zero W x509 ca_dir crl_dir policy s :
  setup_succeeds W ca_dir crl_dir = true ->
  X509_verify_cert W (store_ctx x509 ca_dir crl_dir) <> 1 ->
  verify_certificate W x509 ca_dir crl_dir policy s
  = Done (0,
          {| last_error :=
               "certificate is invalid: "
               ++ X509_verify_cert_error_string W
                    (released_ctx_error W (store_ctx x509 ca_dir crl_dir));
             debug := (debug s
                       ++ [Dbg1 "adding ca certificate lookup dir %s"
                                (ArgString ca_dir)])
                      ++ [Dbg1 "adding crl lookup dir %s"
                               (ArgString crl_dir)];
             io := io s |}).
Proof.
  intros Hsetup Hbad. rewrite verify_certificate_setup by exact Hsetup.
  cbv zeta. apply Z.eqb_neq in Hbad. rewrite Hbad. reflexivity.
Qed.

Lemma invalid_certificate_returns_zero_witness :
  verify_certificate (offline_world []) stray "/etc/pam_pkcs11/cacerts"
                     "/etc/pam_pkcs11/crls" CRLP_AUTO initial_state
  = Done (0,
          {| last_error :=
               "certificate is invalid: unable to get local issuer certificate";
             debug := [Dbg1 "adding ca certificate lookup dir %s"
                            (ArgString "/etc/pam_pkcs11/cacerts");
                       Dbg1 "adding crl lookup dir %s"
                            (ArgString "/etc/pam_pkcs11/crls")];
             io := [] |}).
Proof.
  apply (invalid_certificate_returns_zero (offline_world []) stray
           "/etc/pam_pkcs11/cacerts" "/etc/pam_pkcs11/crls" CRLP_AUTO
           initial_state).
  - reflexivity.
  - vm_compute. discriminate.
Defined.

(** C2 as stated fails: a certificate whose issuer is unknown fails path
    validation, and [verify_certificate] returns 0, not -1. *)
Lemma invalid_certificate_is_not_an_error :
  X509_verify_cert (offline_world []) (ctx_of stray) = 0
  /\ returned (verify_certificate (offline_world []) stray
                 "/etc/pam_pkcs11/cacerts" "/etc/pam_pkcs11/crls"
                 CRLP_AUTO initial_state) = Some 0.
Proof. split; vm_compute; reflexivity. Qed.

(** * Further properties *)

(** ** The decoder against the encoding *)

Lemma small_Z_cases (P : Z -> Prop) (n : nat) :
  (forall k, (k < n)%nat -> P (Z.of_nat k)) ->
  forall v, 0 <= v < Z.of_nat n -> P v.
Proof.
  intros H v Hv. rewrite <- (Z2Nat.id v) by lia. apply H. lia.
Qed.

Lemma sextet_char_value v :
  0 <= v < 64 ->
  alphabet_value (sextet_char v) = Some v
  /\ is_pad (sextet_char v) = false
  /\ Ascii.eqb (sextet_char v) NUL = false.
Proof.
  revert v. apply (small_Z_cases _ 64). intros k Hk.
  do 64 (destruct k as [| k]; [vm_compute; auto |]). lia.
Qed.

Lemma sextet_char_recognized v :
  0 <= v < 64 -> recognized (sextet_char v) = true.
Proof.
  intros H. unfold recognized.
  destruct (sextet_char_value v H) as (-> & _). reflexivity.
Qed.

Lemma code_range a : 0 <= code a < 256.
Proof.
  unfold code. pose proof (N_ascii_bounded a). lia.
Qed.

Lemma uchar_code a : uchar (code a) = a.
Proof.
  unfold uchar. rewrite Z.mod_small by apply code_range.
  unfold code. rewrite N2Z.id. apply ascii_N_embedding.
Qed.

(** The three bytes a group of sextets decodes to. *)
Lemma decoded_byte0 x h :
  0 <= x < 256 -> 0 <= h < 16 ->
  uchar (Z.shiftl (x / 4) 2 + Z.shiftr ((x mod 4) * 16 + h) 4) = uchar x.
Proof.
  intros Hx Hh. rewrite Z.shiftl_mul_pow2, Z.shiftr_div_pow2 by lia.
  f_equal. change (2 ^ 2) with 4. change (2 ^ 4) with 16.
  Z.div_mod_to_equations. lia.
Qed.

Lemma decoded_byte1 x y t :
  0 <= x < 256 -> 0 <= y < 256 -> 0 <= t < 4 ->
  uchar (Z.shiftl ((x mod 4) * 16 + y / 16) 4
         + Z.shiftr ((y mod 16) * 4 + t) 2) = uchar y.
Proof.
  intros Hx Hy Ht. rewrite Z.shiftl_mul_pow2, Z.shiftr_div_pow2 by lia.
  unfold uchar. do 2 f_equal. change (2 ^ 2) with 4. change (2 ^ 4) with 16.
  Z.div_mod_to_equations. lia.
Qed.

Lemma decoded_byte2 y z :
  0 <= y < 256 -> 0 <= z < 256 ->
  uchar (Z.shiftl ((y mod 16) * 4 + z / 64) 6 + z mod 64) = uchar z.
Proof.
  intros Hy Hz. rewrite Z.shiftl_mul_pow2 by lia.
  unfold uchar. do 2 f_equal. change (2 ^ 6) with 64.
  Z.div_mod_to_equations. lia.
Qed.

Lemma classify_symbol c i val pl :
  recognized c = true ->
  classify c i val pl
  = (i + 1, set_val val i (symbol_value c),
     if is_pad c then to_size_t (pl + 1) else pl).
Proof.
  unfold recognized, classify, symbol_value.
  destruct (alphabet_value c) eqn:E.
  - intros _. unfold alphabet_value, is_pad in *.
    destruct (Ascii.eqb_spec c "="%char) as [-> |];
      [vm_compute in E; discriminate | reflexivity].
  - intros ->. reflexivity.
Qed.

(** The [for] loop on the text of (the rest of) a group, with the values
    it leaves in [val]. *)
Lemma for_loop_group_fill g : forall i val pl,
  0 <= i < 4 ->
  Z.of_nat (List.length (symbols g)) = 4 - i ->
  ends_with_symbol g = true ->
  0 <= pl -> pl + (4 - i) < SIZE_T_MOD ->
  forall rest sl,
    Z.of_nat (List.length g) <= sl < SIZE_T_MOD ->
    for_loop (g ++ rest) i val sl pl
    = ForExit rest (fill val i (symbols g)) (sl - Z.of_nat (List.length g))
              (pl + Z.of_nat (pads g)).
Proof.
  induction g as [| c g IH]; intros i val pl Hi Hsym Hend Hpl Hpl2 rest sl Hsl.
  - discriminate.
  - cbn [ends_with_symbol] in Hend. rewrite symbols_cons in Hsym |- *.
    cbn [List.length] in Hsl.
    assert (Hdec : to_size_t (sl - 1) = sl - 1)
      by (apply to_size_t_small; lia).
    assert (Hnn : (sl - 1 <? 0) = false) by (apply Z.ltb_ge; lia).
    change ((c :: g) ++ rest) with (c :: (g ++ rest)).
    cbn [for_loop]. destruct (Z.ltb_spec i 4); [| lia].
    rewrite Hdec, Hnn, (pads_cons c).
    destruct (recognized c) eqn:Hc.
    + rewrite (classify_symbol c i val pl Hc).
      assert (Hpad : (if is_pad c then to_size_t (pl + 1) else pl)
                     = pl + Z.of_nat (if is_pad c then 1 else 0)%nat).
      { destruct (is_pad c); [apply to_size_t_small|]; lia. }
      cbn [List.length fill] in *.
      destruct g as [| c' g'].
      * cbn [symbols filter List.length app fill] in *.
        assert (i + 1 = 4) as -> by lia.
        destruct rest; cbn [for_loop]; change (4 <? 4) with false;
          cbv iota; rewrite Hpad; unfold pads;
          cbn [filter List.length]; f_equal; lia.
      * pose proof (ends_with_symbol_pos _ Hend) as Hpos.
        rewrite IH; try exact Hend; try lia.
        all: rewrite ?Hpad; cbn [List.length] in *;
          try (f_equal; lia); destruct (is_pad c); lia.
    + rewrite (classify_skipped c i val pl Hc).
      destruct g as [| c' g']; [congruence |].
      rewrite IH; try assumption; try (cbn [List.length] in *; lia).
      assert (is_pad c = false) as ->.
      { unfold recognized in Hc. destruct (alphabet_value c);
          [discriminate | exact Hc]. }
      cbn [List.length]. f_equal; lia.
Qed.

Lemma skipped_not_pad c : recognized c = false -> is_pad c = false.
Proof.
  unfold recognized. destruct (alphabet_value c); [discriminate | auto].
Qed.

Lemma pads_symbols g : pads (symbols g) = pads g.
Proof.
  unfold pads, symbols. f_equal.
  induction g as [| c g IH]; [reflexivity |].
  cbn [filter]. destruct (recognized c) eqn:R; cbn [filter].
  - rewrite IH. reflexivity.
  - rewrite (skipped_not_pad c R). exact IH.
Qed.

(** One pass of the [while] loop over the text of a group. *)
Lemma while_loop_group_step g c0 c1 c2 c3 cap val out rest sl fuel :
  is_group g = true -> symbols g = [c0; c1; c2; c3] ->
  Z.of_nat (List.length out) <= cap -> cap <= INT_MAX ->
  Z.of_nat (List.length g) <= sl < SIZE_T_MOD ->
  let q := Quad (symbol_value c0) (symbol_value c1)
                (symbol_value c2) (symbol_value c3) in
  let len := Z.of_nat (List.length out) in
  while_loop (S fuel) (g ++ rest) sl 0 len cap val out
  = if cap <? len + 1 then Some (Done (-1, out))
    else if Z.of_nat (pads g) =? 2 then
      Some (Done (len + 1, out ++ firstn 1 (bytes_of q)))
    else if cap <? len + 2 then
      Some (Done (-1, out ++ firstn 1 (bytes_of q)))
    else if Z.of_nat (pads g) =? 1 then
      Some (Done (len + 2, out ++ firstn 2 (bytes_of q)))
    else if cap <? len + 3 then
      Some (Done (-1, out ++ firstn 2 (bytes_of q)))
    else
      while_loop fuel rest (sl - Z.of_nat (List.length g))
                 (Z.of_nat (pads g)) (len + 3) cap q (out ++ bytes_of q).
Proof.
  intros Hg Hsym Hle Hmax Hsl q len.
  destruct (is_group_parts _ Hg) as (Hn & Hend & _ & Hlen).
  assert (Hmod : INT_MAX + 3 < SIZE_T_MOD) by (vm_compute; reflexivity).
  cbn [while_loop]. destruct (Z.ltb_spec 3 sl); [| lia].
  rewrite for_loop_group_fill; try assumption; try lia.
  rewrite Hsym. cbv zeta. change (0 + Z.of_nat (pads g)) with (Z.of_nat (pads g)).
  change (fill val 0 [c0; c1; c2; c3]) with q.
  fold len. unfold bytes_of. cbn [firstn].
  change (len + 2) with (len + (1 + 1)). change (len + 3) with (len + (1 + 1 + 1)).
  rewrite !Z.add_assoc.
  assert (Hlen0 : 0 <= len <= cap) by (unfold len; lia).
  rewrite (to_size_t_small (len + 1)) by lia.
  rewrite (to_size_t_small (len + 1 + 1)) by lia.
  rewrite (to_size_t_small (len + 1 + 1 + 1)) by lia.
  destruct (Z.ltb_spec cap (len + 1)); [reflexivity |].
  rewrite (to_int_small (len + 1)) by lia.
  destruct (Z.of_nat (pads g) =? 2); [reflexivity |].
  destruct (Z.ltb_spec cap (len + 1 + 1)); [reflexivity |].
  rewrite (to_int_small (len + 1 + 1)) by lia.
  rewrite <- !app_assoc. cbn [app].
  destruct (Z.of_nat (pads g) =? 1); [reflexivity |].
  destruct (Z.ltb_spec cap (len + 1 + 1 + 1)); reflexivity.
Qed.

(** Induction on a byte string three bytes at a time. *)
Lemma list_ind3 (P : list ascii -> Prop) :
  P [] -> (forall a, P [a]) -> (forall a b, P [a; b]) ->
  (forall a b c l, P l -> P (a :: b :: c :: l)) ->
  forall l, P l.
Proof.
  intros H0 H1 H2 H3 l.
  assert (H : P l /\ (forall a, P (a :: l)) /\ (forall a b, P (a :: b :: l))).
  { induction l as [| x l (IH0 & IH1 & IH2)].
    - auto.
    - repeat split; auto. }
  apply H.
Qed.

Lemma symbol_value_sextet v :
  0 <= v < 64 -> symbol_value (sextet_char v) = v.
Proof.
  intros H. unfold symbol_value.
  destruct (sextet_char_value v H) as (-> & _). reflexivity.
Qed.

(** The sextets of a group of three bytes are in range. *)
Lemma sextets_range x y z :
  0 <= x < 256 -> 0 <= y < 256 -> 0 <= z < 256 ->
  0 <= x / 4 < 64 /\ 0 <= (x mod 4) * 16 + y / 16 < 64
  /\ 0 <= (y mod 16) * 4 + z / 64 < 64 /\ 0 <= z mod 64 < 64.
Proof. intros. Z.div_mod_to_equations. lia. Qed.

(** A list of groups whose recognized characters start with four given
    ones starts with a group of exactly these. *)
Lemma first_group gs c0 c1 c2 c3 more :
  forallb is_group gs = true ->
  List.concat (map symbols gs) = c0 :: c1 :: c2 :: c3 :: more ->
  exists g gs', gs = g :: gs' /\ is_group g = true
                /\ symbols g = [c0; c1; c2; c3]
                /\ forallb is_group gs' = true
                /\ List.concat (map symbols gs') = more.
Proof.
  intros Hgs Hsym. destruct gs as [| g gs']; [discriminate |].
  cbn [forallb] in Hgs. apply andb_true_iff in Hgs. destruct Hgs as (Hg & Hgs).
  exists g, gs'. destruct (is_group_parts _ Hg) as (Hn & _).
  cbn [map List.concat] in Hsym.
  destruct (symbols g) as [| s0 [| s1 [| s2 [| s3 [| s4 r]]]]];
    try discriminate.
  cbn [app] in Hsym. inversion Hsym; subst. auto.
Qed.

Lemma no_group gs :
  forallb is_group gs = true -> List.concat (map symbols gs) = [] -> gs = [].
Proof.
  intros Hgs Hsym. destruct gs as [| g gs']; [reflexivity |].
  cbn [forallb] in Hgs. apply andb_true_iff in Hgs. destruct Hgs as (Hg & _).
  destruct (is_group_parts _ Hg) as (Hn & _).
  cbn [map List.concat] in Hsym.
  destruct (symbols g); [discriminate | discriminate].
Qed.

Lemma skipped_for_loop trail : forall i val sl pl,
  forallb skipped trail = true -> i < 4 ->
  for_loop trail i val sl pl = ForFault.
Proof.
  induction trail as [| c trail IH]; intros i val sl pl Hsk Hi;
    cbn [for_loop]; destruct (Z.ltb_spec i 4); try lia; [reflexivity |].
  cbn [forallb] in Hsk. apply andb_true_iff in Hsk. destruct Hsk as (Hc & Hsk).
  unfold skipped in Hc. apply negb_true_iff in Hc.
  rewrite (classify_skipped c i val pl Hc).
  pose proof (to_size_t_nonneg (sl - 1)).
  destruct (Z.ltb_spec (to_size_t (sl - 1)) 0); [lia |].
  apply IH; assumption.
Qed.

(** The [while] loop on the encoding of a byte string, written with
    skipped characters wherever one likes before each recognized one,
    and at most three of them after the last. *)
Lemma while_loop_encoded bytes :
  forall gs trail after cap val out sl fuel,
    forallb is_group gs = true ->
    List.concat (map symbols gs) = encode bytes ->
    (List.length trail <= 3)%nat ->
    sl = Z.of_nat (List.length (List.concat gs) + List.length trail) ->
    sl < SIZE_T_MOD -> (List.length gs < fuel)%nat ->
    Z.of_nat (List.length out) + Z.of_nat (List.length bytes) <= cap ->
    cap <= INT_MAX ->
    while_loop fuel (List.concat gs ++ trail ++ NUL :: after) sl 0
               (Z.of_nat (List.length out)) cap val out
    = Some (Done (Z.of_nat (List.length out) + Z.of_nat (List.length bytes),
                  out ++ bytes)).
Proof.
  induction bytes as [| a | a b | a b c bytes IH] using list_ind3;
    intros gs trail after cap val out sl fuel Hgs Hsym Htrail Hsl Hsz Hfuel
           Hcap Hmax; cbn [encode] in Hsym.
  - rewrite (no_group gs Hgs Hsym) in *. cbn [List.concat app List.length] in *.
    destruct fuel; cbn [while_loop];
      (destruct (Z.ltb_spec 3 sl); [lia |]);
      rewrite to_int_small, app_nil_r, Z.add_0_r by lia; reflexivity.
  - destruct (first_group _ _ _ _ _ _ Hgs Hsym)
      as (g & gs' & -> & Hg & Hsg & Hgs' & Hrest).
    destruct fuel as [| fuel]; [cbn in Hfuel; lia |].
    cbn [List.concat]. rewrite <- app_assoc.
    rewrite (while_loop_group_step g _ _ _ _ cap val out _ sl fuel Hg Hsg);
      try lia;
      [| cbn [List.concat List.length] in Hsl; rewrite length_app in Hsl; lia].
    cbv zeta. rewrite <- (pads_symbols g), Hsg.
    pose proof (code_range a) as Ha.
    destruct (sextets_range (code a) 0 0 Ha) as (R0 & R1 & _); try lia.
    change (code a mod 4 * 16 + 0 / 16) with (code a mod 4 * 16 + 0) in R1.
    rewrite Z.add_0_r in R1.
    unfold pads. cbn [filter].
    destruct (sextet_char_value _ R0) as (_ & -> & _).
    destruct (sextet_char_value _ R1) as (_ & -> & _).
    change (is_pad "="%char) with true. cbn [List.length Z.of_nat Z.eqb Pos.of_succ_nat Pos.succ Pos.eqb].
    cbn [List.length] in Hcap.
    destruct (Z.ltb_spec cap (Z.of_nat (List.length out) + 1)); [lia |].
    unfold bytes_of. cbn [firstn v0 v1].
    rewrite !symbol_value_sextet by assumption.
    replace (code a mod 4 * 16) with (code a mod 4 * 16 + 0) by lia.
    rewrite decoded_byte0, uchar_code by lia. reflexivity.
  - destruct (first_group _ _ _ _ _ _ Hgs Hsym)
      as (g & gs' & -> & Hg & Hsg & Hgs' & Hrest).
    destruct fuel as [| fuel]; [cbn in Hfuel; lia |].
    cbn [List.concat]. rewrite <- app_assoc.
    rewrite (while_loop_group_step g _ _ _ _ cap val out _ sl fuel Hg Hsg);
      try lia;
      [| cbn [List.concat List.length] in Hsl; rewrite length_app in Hsl; lia].
    cbv zeta. rewrite <- (pads_symbols g), Hsg.
    pose proof (code_range a) as Ha. pose proof (code_range b) as Hb.
    destruct (sextets_range (code a) (code b) 0 Ha Hb) as (R0 & R1 & R2 & _);
      try lia.
    change (0 / 64) with 0 in R2. rewrite Z.add_0_r in R2.
    unfold pads. cbn [filter].
    destruct (sextet_char_value _ R0) as (_ & -> & _).
    destruct (sextet_char_value _ R1) as (_ & -> & _).
    destruct (sextet_char_value _ R2) as (_ & -> & _).
    change (is_pad "="%char) with true. cbn [List.length Z.of_nat Z.eqb Pos.of_succ_nat Pos.succ Pos.eqb].
    cbn [List.length] in Hcap.
    destruct (Z.ltb_spec cap (Z.of_nat (List.length out) + 1)); [lia |].
    destruct (Z.ltb_spec cap (Z.of_nat (List.length out) + 2)); [lia |].
    unfold bytes_of. cbn [firstn v0 v1 v2].
    rewrite !symbol_value_sextet by assumption.
    rewrite decoded_byte0 by (try lia; Z.div_mod_to_equations; lia).
    replace (code b mod 16 * 4) with (code b mod 16 * 4 + 0) by lia.
    rewrite decoded_byte1, !uchar_code by lia.
    reflexivity.
  - destruct (first_group _ _ _ _ _ _ Hgs Hsym)
      as (g & gs' & -> & Hg & Hsg & Hgs' & Hrest).
    destruct fuel as [| fuel]; [cbn in Hfuel; lia |].
    cbn [List.concat]. rewrite <- app_assoc.
    cbn [List.concat List.length] in Hsl. rewrite length_app in Hsl.
    rewrite (while_loop_group_step g _ _ _ _ cap val out _ sl fuel Hg Hsg);
      try lia.
    cbv zeta. rewrite <- (pads_symbols g), Hsg.
    pose proof (code_range a) as Ha. pose proof (code_range b) as Hb.
    pose proof (code_range c) as Hc.
    destruct (sextets_range (code a) (code b) (code c) Ha Hb Hc)
      as (R0 & R1 & R2 & R3).
    unfold pads. cbn [filter].
    destruct (sextet_char_value _ R0) as (_ & -> & _).
    destruct (sextet_char_value _ R1) as (_ & -> & _).
    destruct (sextet_char_value _ R2) as (_ & -> & _).
    destruct (sextet_char_value _ R3) as (_ & -> & _).
    change (Z.of_nat (@List.length ascii []) =? 2) with false.
    change (Z.of_nat (@List.length ascii []) =? 1) with false.
    change (Z.of_nat (@List.length ascii [])) with 0.
    cbv iota. cbn [List.length] in Hcap.
    destruct (Z.ltb_spec cap (Z.of_nat (List.length out) + 1)); [lia |].
    destruct (Z.ltb_spec cap (Z.of_nat (List.length out) + 2)); [lia |].
    destruct (Z.ltb_spec cap (Z.of_nat (List.length out) + 3)); [lia |].
    unfold bytes_of. cbn [v0 v1 v2 v3].
    rewrite !symbol_value_sextet by assumption.
    rewrite decoded_byte0 by (try lia; Z.div_mod_to_equations; lia).
    rewrite decoded_byte1 by (try lia; Z.div_mod_to_equations; lia).
    rewrite decoded_byte2, !uchar_code by lia.
    replace (Z.of_nat (List.length out) + 3)
      with (Z.of_nat (List.length (out ++ [a; b; c])))
      by (rewrite length_app; cbn [List.length]; lia).
    rewrite (IH gs' trail after cap _ (out ++ [a; b; c])
                (sl - Z.of_nat (List.length g)) fuel); try assumption;
      try (cbn [List.length] in *; lia);
      try (rewrite length_app; cbn [List.length]; lia).
    rewrite length_app, <- app_assoc. cbn [List.length app].
    do 2 f_equal. f_equal. lia.
Qed.

Lemma strlen_exact t after :
  no_nul t = true -> strlen (t ++ NUL :: after) = Done (Z.of_nat (List.length t)).
Proof.
  induction t as [| c t IH]; intros Ht.
  - reflexivity.
  - cbn [no_nul forallb] in Ht. apply andb_true_iff in Ht.
    destruct Ht as (Hc & Ht). apply negb_true_iff in Hc.
    cbn [app strlen]. rewrite Hc, (IH Ht). cbn [List.length].
    f_equal. lia.
Qed.

Lemma groups_text gs :
  forallb is_group gs = true ->
  no_nul (List.concat gs) = true
  /\ (List.length gs <= List.length (List.concat gs))%nat.
Proof.
  induction gs as [| g gs IH]; intros H; [split; reflexivity |].
  cbn [forallb] in H. apply andb_true_iff in H. destruct H as (Hg & H).
  destruct (IH H) as (Hn & Hl).
  destruct (is_group_parts _ Hg) as (_ & _ & Hgn & Hgl).
  cbn [List.concat List.length]. rewrite no_nul_app, length_app, Hgn, Hn.
  split; [reflexivity | lia].
Qed.

(** The round trip on the object of a C string. *)
Lemma decode_encoded bytes gs trail after cap :
  forallb is_group gs = true ->
  List.concat (map symbols gs) = encode bytes ->
  no_nul trail = true -> (List.length trail <= 3)%nat ->
  Z.of_nat (List.length bytes) <= cap <= INT_MAX ->
  Z.of_nat (List.length (List.concat gs) + List.length trail) < SIZE_T_MOD ->
  base64_to_bin (List.concat gs ++ trail ++ NUL :: after) cap
  = Done (Z.of_nat (List.length bytes), bytes).
Proof.
  intros Hgs Hsym Htn Htl Hcap Hsz.
  destruct (groups_text gs Hgs) as (Hn & Hl).
  unfold base64_to_bin. rewrite app_assoc, strlen_exact
    by (rewrite no_nul_app, Hn, Htn; reflexivity).
  rewrite <- app_assoc.
  change 0 with (Z.of_nat (@List.length ascii [])) at 2.
  rewrite (while_loop_encoded bytes gs trail after cap _ []);
    try assumption; try (cbn [List.length]; lia).
  - reflexivity.
  - rewrite length_app. reflexivity.
  - rewrite length_app. lia.
  - rewrite !length_app. lia.
Qed.

Lemma is_group_four c0 c1 c2 c3 :
  recognized c0 = true -> recognized c1 = true -> recognized c2 = true ->
  recognized c3 = true -> no_nul [c0; c1; c2; c3] = true ->
  is_group [c0; c1; c2; c3] = true
  /\ symbols [c0; c1; c2; c3] = [c0; c1; c2; c3].
Proof.
  intros H0 H1 H2 H3 Hn. unfold is_group, symbols.
  cbn [filter ends_with_symbol]. rewrite H0, H1, H2, H3, Hn. split; reflexivity.
Qed.

Lemma recognized_pad : recognized "="%char = true.
Proof. reflexivity. Qed.

Lemma encode_groups_spec bytes :
  forallb is_group (encode_groups bytes) = true
  /\ List.concat (map symbols (encode_groups bytes)) = encode bytes
  /\ List.concat (encode_groups bytes) = encode bytes.
Proof.
  induction bytes as [| a | a b | a b c bytes (IH1 & IH2 & IH3)]
    using list_ind3.
  - repeat split.
  - pose proof (code_range a) as Ha.
    destruct (sextets_range (code a) 0 0 Ha) as (R0 & R1 & _); try lia.
    change (code a mod 4 * 16 + 0 / 16) with (code a mod 4 * 16 + 0) in R1.
    rewrite Z.add_0_r in R1.
    destruct (sextet_char_value _ R0) as (_ & _ & N0).
    destruct (sextet_char_value _ R1) as (_ & _ & N1).
    cbn [encode_groups encode map List.concat forallb].
    destruct (is_group_four _ _ _ _ (sextet_char_recognized _ R0)
                (sextet_char_recognized _ R1) recognized_pad recognized_pad)
      as (-> & ->).
    + cbn [no_nul forallb]. rewrite N0, N1. reflexivity.
    + repeat split.
  - pose proof (code_range a) as Ha. pose proof (code_range b) as Hb.
    destruct (sextets_range (code a) (code b) 0 Ha Hb) as (R0 & R1 & R2 & _);
      try lia.
    change (0 / 64) with 0 in R2. rewrite Z.add_0_r in R2.
    destruct (sextet_char_value _ R0) as (_ & _ & N0).
    destruct (sextet_char_value _ R1) as (_ & _ & N1).
    destruct (sextet_char_value _ R2) as (_ & _ & N2).
    cbn [encode_groups encode map List.concat forallb].
    destruct (is_group_four _ _ _ _ (sextet_char_recognized _ R0)
                (sextet_char_recognized _ R1) (sextet_char_recognized _ R2)
                recognized_pad)
      as (-> & ->).
    + cbn [no_nul forallb]. rewrite N0, N1, N2. reflexivity.
    + repeat split.
  - pose proof (code_range a) as Ha. pose proof (code_range b) as Hb.
    pose proof (code_range c) as Hc.
    destruct (sextets_range (code a) (code b) (code c) Ha Hb Hc)
      as (R0 & R1 & R2 & R3).
    destruct (sextet_char_value _ R0) as (_ & _ & N0).
    destruct (sextet_char_value _ R1) as (_ & _ & N1).
    destruct (sextet_char_value _ R2) as (_ & _ & N2).
    destruct (sextet_char_value _ R3) as (_ & _ & N3).
    cbn [encode_groups encode map List.concat forallb app].
    rewrite IH1, IH2, IH3.
    destruct (is_group_four _ _ _ _ (sextet_char_recognized _ R0)
                (sextet_char_recognized _ R1) (sextet_char_recognized _ R2)
                (sextet_char_recognized _ R3))
      as (-> & ->).
    + cbn [no_nul forallb]. rewrite N0, N1, N2, N3. reflexivity.
    + repeat split.
Qed.

Lemma encode_length bytes :
  (List.length bytes <= List.length (encode bytes) <= 4 * List.length bytes)%nat.
Proof.
  induction bytes as [| a | a b | a b c bytes IH] using list_ind3;
    cbn [encode List.length app] in *; lia.
Qed.

(** With fewer than four recognized characters left in the object, the
    [for] loop runs off its end. *)
Lemma for_loop_starved s : forall i val sl pl,
  0 <= i -> i + Z.of_nat (List.length (symbols s)) < 4 ->
  for_loop s i val sl pl = ForFault.
Proof.
  induction s as [| c s IH]; intros i val sl pl Hi Hn;
    cbn [for_loop]; destruct (Z.ltb_spec i 4); try lia.
  - reflexivity.
  - rewrite symbols_cons in Hn.
    pose proof (to_size_t_nonneg (sl - 1)).
    destruct (recognized c) eqn:Hc.
    + rewrite (classify_symbol c i val pl Hc).
      destruct (Z.ltb_spec (to_size_t (sl - 1)) 0); [lia |].
      apply IH; cbn [List.length] in Hn; lia.
    + rewrite (classify_skipped c i val pl Hc).
      destruct (Z.ltb_spec (to_size_t (sl - 1)) 0); [lia |].
      apply IH; lia.
Qed.

Lemma symbols_app s t : symbols (s ++ t) = symbols s ++ symbols t.
Proof. apply filter_app. Qed.

Lemma while_loop_starved gs :
  forall trail cap val out sl fuel,
    forallb is_full_group gs = true ->
    (List.length (symbols trail) < 4 <= List.length trail)%nat ->
    sl = Z.of_nat (List.length (List.concat gs) + List.length trail) ->
    sl < SIZE_T_MOD -> (List.length gs < fuel)%nat ->
    Z.of_nat (List.length out) + 3 * Z.of_nat (List.length gs) <= cap ->
    cap <= INT_MAX ->
    while_loop fuel (List.concat gs ++ trail ++ [NUL]) sl 0
               (Z.of_nat (List.length out)) cap val out
    = Some Fault.
Proof.
  induction gs as [| g gs IH];
    intros trail cap val out sl fuel Hgs Htrail Hsl Hsz Hfuel Hcap Hmax.
  - destruct fuel as [| fuel]; [lia |].
    cbn [List.concat app List.length] in *. cbn [while_loop].
    destruct (Z.ltb_spec 3 sl); [| lia].
    rewrite for_loop_starved; [reflexivity | lia |].
    rewrite symbols_app. cbn. rewrite app_nil_r. lia.
  - destruct fuel as [| fuel]; [cbn in Hfuel; lia |].
    cbn [forallb] in Hgs. apply andb_true_iff in Hgs.
    destruct Hgs as (Hg & Hgs). unfold is_full_group in Hg.
    apply andb_true_iff in Hg. destruct Hg as (Hg & Hp).
    apply Nat.eqb_eq in Hp.
    destruct (is_group_parts _ Hg) as (Hn & _).
    destruct (symbols g) as [| c0 [| c1 [| c2 [| c3 [| c4 r]]]]] eqn:Hsg;
      try discriminate.
    cbn [List.concat List.length] in *. rewrite length_app in Hsl.
    rewrite <- app_assoc.
    rewrite (while_loop_group_step g _ _ _ _ cap val out _ sl fuel Hg Hsg);
      try lia.
    cbv zeta. rewrite Hp. change (Z.of_nat 0) with 0.
    change (0 =? 2) with false. change (0 =? 1) with false. cbv iota.
    destruct (Z.ltb_spec cap (Z.of_nat (List.length out) + 1)); [lia |].
    destruct (Z.ltb_spec cap (Z.of_nat (List.length out) + 2)); [lia |].
    destruct (Z.ltb_spec cap (Z.of_nat (List.length out) + 3)); [lia |].
    match goal with
    | |- while_loop _ _ _ _ _ _ ?q (out ++ ?bs) = _ =>
        replace (Z.of_nat (List.length out) + 3)
          with (Z.of_nat (List.length (out ++ bs)))
          by (rewrite length_app; cbn [List.length bytes_of]; lia);
        apply IH; try assumption; try lia;
        rewrite length_app; cbn [List.length bytes_of]; lia
    end.
Qed.

(** * Further properties of the code *)

(** X1.  Round trip: the decoder, given the base64 text of a byte string
    as a C string and room for the bytes, returns their number and has
    written exactly these bytes, whatever lies in memory behind the
    terminator. *)
Theorem base64_round_trip bytes after cap :
  Z.of_nat (List.length bytes) <= cap <= INT_MAX ->
  base64_to_bin (encode bytes ++ NUL :: after) cap
  = Done (Z.of_nat (List.length bytes), bytes).
Proof.
  intros Hcap.
  destruct (encode_groups_spec bytes) as (Hg & Hs & Hc).
  pose proof (encode_length bytes) as Hl.
  rewrite <- Hc.
  apply (decode_encoded bytes (encode_groups bytes) [] after cap);
    try assumption; try reflexivity; try (cbn [List.length]; lia).
  rewrite Hc. cbn [List.length]. unfold INT_MAX, SIZE_T_MOD in *. lia.
Qed.

Lemma base64_round_trip_witness :
  base64_to_bin (encode (list_ascii_of_string "any carnal pleas")
                 ++ NUL :: list_ascii_of_string "-----END") 16
  = Done (Z.of_nat (List.length (list_ascii_of_string "any carnal pleas")),
          list_ascii_of_string "any carnal pleas").
Proof.
  apply (base64_round_trip (list_ascii_of_string "any carnal pleas")
                           (list_ascii_of_string "-----END") 16).
  cbn [List.length list_ascii_of_string]. unfold INT_MAX. lia.
Defined.

(** X2.  The round trip survives characters the decoder skips (line
    breaks, blanks): written group by group with any such characters
    before each character of the encoding, and followed by at most three
    more characters before the terminator, the text still decodes to
    the bytes that were encoded. *)
Theorem base64_skipping_round_trip bytes gs trail after cap :
  forallb is_group gs = true ->
  List.concat (map symbols gs) = encode bytes ->
  no_nul trail = true -> (List.length trail <= 3)%nat ->
  Z.of_nat (List.length bytes) <= cap <= INT_MAX ->
  Z.of_nat (List.length (List.concat gs) + List.length trail) < SIZE_T_MOD ->
  base64_to_bin (List.concat gs ++ trail ++ NUL :: after) cap
  = Done (Z.of_nat (List.length bytes), bytes).
Proof. apply decode_encoded. Qed.

Lemma base64_skipping_round_trip_witness :
  base64_to_bin (List.concat [LF :: list_ascii_of_string "MD Ey";
                              list_ascii_of_string "Mw" ++ LF
                                :: list_ascii_of_string "=="]
                 ++ [LF] ++ NUL :: []) 8
  = Done (Z.of_nat (List.length (list_ascii_of_string "0123")),
          list_ascii_of_string "0123").
Proof.
  apply (base64_skipping_round_trip (list_ascii_of_string "0123")
           [LF :: list_ascii_of_string "MD Ey";
            list_ascii_of_string "Mw" ++ LF :: list_ascii_of_string "=="]
           [LF] [] 8).
  - vm_compute. reflexivity.
  - vm_compute. reflexivity.
  - vm_compute. reflexivity.
  - cbn [List.length]. lia.
  - cbn [List.length list_ascii_of_string]. unfold INT_MAX. lia.
  - vm_compute. reflexivity.
Defined.

(** X3.  A text that goes on for four characters or more after its last
    complete group, with fewer than four recognized characters among
    them, makes the decoder read past the terminator: on a string whose
    object ends with its terminator the run leaves the object, for every
    capacity that holds the groups before. *)
Theorem base64_to_bin_starved_group gs trail cap :
  forallb is_full_group gs = true ->
  no_nul trail = true ->
  (List.length (symbols trail) < 4 <= List.length trail)%nat ->
  3 * Z.of_nat (List.length gs) <= cap <= INT_MAX ->
  Z.of_nat (List.length (List.concat gs) + List.length trail) < SIZE_T_MOD ->
  base64_to_bin (List.concat gs ++ trail ++ [NUL]) cap = Fault.
Proof.
  intros Hgs Htn Htrail Hcap Hsz.
  destruct (full_groups_text _ Hgs) as (_ & Hn & Hl).
  unfold base64_to_bin. rewrite app_assoc, strlen_exact
    by (rewrite no_nul_app, Hn, Htn; reflexivity).
  rewrite <- app_assoc.
  change 0 with (Z.of_nat (@List.length ascii [])) at 2.
  rewrite (while_loop_starved gs trail cap _ []);
    try assumption; try (cbn [List.length]; lia).
  - reflexivity.
  - rewrite length_app. reflexivity.
  - rewrite length_app. lia.
  - rewrite !length_app. cbn [List.length]. lia.
Qed.

Lemma base64_to_bin_starved_group_witness :
  base64_to_bin (List.concat [list_ascii_of_string "QUJD"]
                 ++ list_ascii_of_string "QU" ++ [LF; LF] ++ [NUL]) 16
  = Fault.
Proof.
  apply (base64_to_bin_starved_group [list_ascii_of_string "QUJD"]
           (list_ascii_of_string "QU" ++ [LF; LF]) 16).
  - vm_compute. reflexivity.
  - vm_compute. reflexivity.
  - vm_compute. split; repeat constructor.
  - cbn [List.length]. unfold INT_MAX. lia.
  - vm_compute. reflexivity.
Defined.

(** ** The fetcher on PEM buffers *)

(** The two branches of [download_crl], by the first occurrences of the
    markers. *)
Lemma download_crl_branches W uri s :
  let data := fetch_data (get_from_uri W uri) in
  fetch_rv (get_from_uri W uri) = 0 ->
  24 <= Z.of_nat (List.length data) < UINT_MOD ->
  download_crl W uri s
  = (call (Fetch uri) ;;
     match first_occurrence BEGIN_MARKER data,
           first_occurrence END_MARKER data with
     | Some i, Some j =>
         if i <? j then pem_branch W data i j else parse_der W data
     | _, _ => parse_der W data
     end)%cmd s.
Proof.
  intros data Hrv Hlen. unfold download_crl. rewrite Hrv. cbn [Z.eqb negb].
  fold data. rewrite !bind_call.
  set (s0 := {| last_error := last_error s; debug := debug s;
                io := io s ++ [Fetch uri] |}).
  assert (Hmod : UINT_MOD < SIZE_T_MOD) by (vm_compute; reflexivity).
  rewrite !to_size_t_small by lia.
  assert (Hb : scan BEGIN_MARKER 24 (Z.of_nat (List.length data) - 24) 0 data
               = Done (match first_occurrence BEGIN_MARKER data with
                       | Some k => k
                       | None => Z.of_nat (List.length data) - 24 + 1
                       end)).
  { apply (scan_first_occurrence BEGIN_MARKER); try reflexivity;
      change (List.length (list_ascii_of_string BEGIN_MARKER)) with 24%nat;
      lia. }
  assert (He : scan END_MARKER 22 (Z.of_nat (List.length data) - 22) 0 data
               = Done (match first_occurrence END_MARKER data with
                       | Some k => k
                       | None => Z.of_nat (List.length data) - 22 + 1
                       end)).
  { apply (scan_first_occurrence END_MARKER); try reflexivity;
      change (List.length (list_ascii_of_string END_MARKER)) with 22%nat;
      lia. }
  rewrite Hb, He. clear Hb He.
  unfold first_occurrence.
  destruct (first_occurrence_from (list_ascii_of_string BEGIN_MARKER) 0 data)
    as [i |] eqn:Ei;
    destruct (first_occurrence_from (list_ascii_of_string END_MARKER) 0 data)
      as [j |] eqn:Ej;
    unfold lift, bind at 1; unfold bind at 1;
    try apply first_occurrence_bounds in Ei;
    try apply first_occurrence_bounds in Ej;
    change (List.length (list_ascii_of_string BEGIN_MARKER)) with 24%nat in *;
    change (List.length (list_ascii_of_string END_MARKER)) with 22%nat in *.
  - destruct (Z.leb_spec i (Z.of_nat (List.length data) - 24)); [| lia].
    destruct (Z.leb_spec j (Z.of_nat (List.length data) - 22)); [| lia].
    cbn [andb]. destruct (Z.ltb_spec i j).
    + unfold pem_branch, decoder_input.
      rewrite !to_uint_small by lia. unfold bind, lift, DBG.
      destruct (negb (malloc W (j - i + 1))); [reflexivity |].
      destruct (base64_to_bin _ _) as [[rv der] |]; [| reflexivity].
      cbn [fst snd]. pose proof (to_size_t_nonneg rv).
      destruct (Z.leb_spec (to_size_t rv) 0);
        destruct (Z.eqb_spec (to_size_t rv) 0); try lia; reflexivity.
    + unfold parse_der. rewrite to_long_small by lia. reflexivity.
  - destruct (Z.leb_spec (Z.of_nat (List.length data) - 22 + 1)
                         (Z.of_nat (List.length data) - 22)); [lia |].
    rewrite andb_false_r. cbn [andb].
    unfold parse_der. rewrite to_long_small by lia. reflexivity.
  - destruct (Z.leb_spec (Z.of_nat (List.length data) - 24 + 1)
                         (Z.of_nat (List.length data) - 24)); [lia |].
    cbn [andb]. unfold parse_der. rewrite to_long_small by lia. reflexivity.
  - destruct (Z.leb_spec (Z.of_nat (List.length data) - 24 + 1)
                         (Z.of_nat (List.length data) - 24)); [lia |].
    cbn [andb]. unfold parse_der. rewrite to_long_small by lia. reflexivity.
Qed.

Lemma is_prefix_self m p : is_prefix m (m ++ p) = true.
Proof.
  induction m as [| a m IH]; [reflexivity |].
  cbn [app is_prefix]. rewrite Ascii.eqb_refl, IH. reflexivity.
Qed.

Lemma first_occurrence_here m i p :
  first_occurrence_from m i (m ++ p) = Some i.
Proof.
  destruct m as [| a m]; [destruct p; reflexivity |].
  change ((a :: m) ++ p) with (a :: (m ++ p)).
  cbn [first_occurrence_from].
  change (a :: (m ++ p)) with ((a :: m) ++ p).
  rewrite is_prefix_self. reflexivity.
Qed.

(** No END marker starts at a character that is not a dash. *)
Lemma first_occurrence_no_dash p : forall i rest,
  forallb not_dash p = true ->
  first_occurrence_from (list_ascii_of_string END_MARKER) i (p ++ rest)
  = first_occurrence_from (list_ascii_of_string END_MARKER)
      (i + Z.of_nat (List.length p)) rest.
Proof.
  induction p as [| c p IH]; intros i rest Hp.
  - cbn [app List.length]. f_equal. lia.
  - cbn [forallb] in Hp. apply andb_true_iff in Hp. destruct Hp as (Hc & Hp).
    unfold not_dash in Hc. apply negb_true_iff in Hc.
    change ((c :: p) ++ rest) with (c :: (p ++ rest)).
    cbn [first_occurrence_from].
    assert (is_prefix (list_ascii_of_string END_MARKER) (c :: p ++ rest)
            = false) as ->.
    { cbn [END_MARKER list_ascii_of_string is_prefix].
      rewrite Ascii.eqb_sym, Hc. reflexivity. }
    rewrite (IH (i + 1) rest Hp). cbn [List.length]. f_equal. lia.
Qed.

(** In a buffer that opens with the BEGIN marker and a line break, the
    END marker is not found before the end of the line break. *)
Lemma first_occurrence_after_begin rest :
  first_occurrence_from (list_ascii_of_string END_MARKER) 0
    (list_ascii_of_string BEGIN_MARKER ++ LF :: rest)
  = first_occurrence_from (list_ascii_of_string END_MARKER) 25 rest.
Proof. reflexivity. Qed.

Lemma first_occurrence_adjacent rest :
  first_occurrence_from (list_ascii_of_string END_MARKER) 0
    (list_ascii_of_string BEGIN_MARKER
     ++ list_ascii_of_string END_MARKER ++ rest)
  = Some 24.
Proof. reflexivity. Qed.

Lemma store_nul_app pre c post :
  store_nul (pre ++ c :: post) (List.length pre) = pre ++ NUL :: post.
Proof.
  induction pre as [| a pre IH]; [reflexivity |].
  cbn [app List.length store_nul]. rewrite IH. reflexivity.
Qed.

(** Where the markers are found in a buffer in PEM framing, and the text
    the decoder is given. *)
Lemma pem_framed_markers body post :
  pem_body body = true ->
  first_occurrence BEGIN_MARKER (pem_framed body post) = Some 0
  /\ first_occurrence END_MARKER (pem_framed body post)
     = Some (24 + Z.of_nat (List.length body))
  /\ decoder_input (pem_framed body post) 0 (24 + Z.of_nat (List.length body))
     = body ++ NUL :: (tl (list_ascii_of_string END_MARKER) ++ post).
Proof.
  intros Hb. unfold pem_body in Hb. apply andb_true_iff in Hb.
  destruct Hb as (Hstart & Hdash). unfold pem_framed, first_occurrence.
  split; [apply first_occurrence_here | split].
  - destruct body as [| c body'].
    + apply first_occurrence_adjacent.
    + apply Ascii.eqb_eq in Hstart. subst c.
      cbn [forallb] in Hdash. apply andb_true_iff in Hdash.
      destruct Hdash as (_ & Hdash).
      change ((LF :: body') ++ ?x) with (LF :: (body' ++ x)).
      rewrite first_occurrence_after_begin, first_occurrence_no_dash
        by exact Hdash.
      rewrite first_occurrence_here. cbn [List.length]. f_equal. lia.
  - unfold decoder_input.
    replace (Z.to_nat (24 + Z.of_nat (List.length body)))
      with (List.length (list_ascii_of_string BEGIN_MARKER ++ body))
      by (rewrite length_app;
          change (List.length (list_ascii_of_string BEGIN_MARKER)) with 24%nat;
          lia).
    rewrite app_assoc.
    change (list_ascii_of_string END_MARKER)
      with ("-"%char :: tl (list_ascii_of_string END_MARKER)) at 1.
    change (("-"%char :: ?x) ++ post) with ("-"%char :: (x ++ post)).
    rewrite store_nul_app, <- app_assoc. reflexivity.
Qed.

Lemma pem_framed_length body post :
  Z.of_nat (List.length (pem_framed body post))
  = 46 + Z.of_nat (List.length body) + Z.of_nat (List.length post).
Proof.
  unfold pem_framed. rewrite !length_app.
  change (List.length (list_ascii_of_string BEGIN_MARKER)) with 24%nat.
  change (List.length (list_ascii_of_string END_MARKER)) with 22%nat. lia.
Qed.

Lemma strlen_le t after :
  exists n, strlen (t ++ NUL :: after) = Done n
            /\ 0 <= n <= Z.of_nat (List.length t).
Proof.
  induction t as [| c t (n & Hn & Hb)].
  - exists 0. split; [reflexivity | cbn; lia].
  - cbn [app strlen List.length]. destruct (Ascii.eqb c NUL).
    + exists 0. split; [reflexivity | lia].
    + rewrite Hn. exists (n + 1). split; [reflexivity | lia].
Qed.

(** Fewer than four characters decode to nothing. *)
Lemma base64_to_bin_short t after cap :
  (List.length t <= 3)%nat ->
  base64_to_bin (t ++ NUL :: after) cap = Done (0, []).
Proof.
  intros Ht. unfold base64_to_bin.
  destruct (strlen_le t after) as (n & -> & Hn).
  cbn [while_loop]. destruct (Z.ltb_spec 3 n); [lia | reflexivity].
Qed.

Lemma symbols_length_le gs :
  (List.length (List.concat (map symbols gs))
   <= List.length (List.concat gs))%nat.
Proof.
  induction gs as [| g gs IH]; [reflexivity |].
  cbn [map List.concat]. rewrite !length_app.
  pose proof (filter_length_le recognized g). unfold symbols at 1. lia.
Qed.

(** X4.  A PEM buffer goes through.  The fetched buffer (of at most
    INT_MAX bytes) is the BEGIN marker, a body, the END marker and
    whatever follows it; the body opens with a line break, holds no
    dash, and is the base64 text of a non-empty byte string written
    group by group, with any characters the decoder skips before the
    characters of a group, followed by at most three more characters
    other than NUL; the buffer for the decoder can be allocated.  Then
    [download_crl] hands exactly the encoded bytes, with their number
    as length, to the DER parser, and returns what the parser makes of
    them. *)
Theorem download_crl_pem_round_trip W uri s bytes gs trail post :
  let body := List.concat gs ++ trail in
  fetch_rv (get_from_uri W uri) = 0 ->
  fetch_data (get_from_uri W uri) = pem_framed body post ->
  pem_body body = true ->
  forallb is_group gs = true ->
  List.concat (map symbols gs) = encode bytes ->
  no_nul trail = true -> (List.length trail <= 3)%nat ->
  bytes <> [] ->
  Z.of_nat (List.length (pem_framed body post)) <= INT_MAX ->
  malloc W (Z.of_nat (List.length body) + 25) = true ->
  download_crl W uri s
  = parsed (d2i_X509_CRL W bytes (Z.of_nat (List.length bytes)))
           {| last_error := last_error s;
              debug := debug s ++ [Dbg "crl is base64 encoded"];
              io := io s ++ [Fetch uri] |}.
Proof.
  intros body Hrv Hdata Hbody Hgs Hsym Htn Htl Hne Hsize Hmalloc.
  pose proof (pem_framed_length body post) as Hlen.
  assert (Hint : INT_MAX < UINT_MOD) by (vm_compute; reflexivity).
  rewrite download_crl_branches by (rewrite ?Hdata; lia || exact Hrv).
  rewrite Hdata. destruct (pem_framed_markers body post Hbody)
    as (-> & -> & Htext).
  rewrite bind_call.
  destruct (Z.ltb_spec 0 (24 + Z.of_nat (List.length body))); [| lia].
  unfold pem_branch. rewrite Htext.
  replace (24 + Z.of_nat (List.length body) - 0 + 1)
    with (Z.of_nat (List.length body) + 25) by lia.
  rewrite Hmalloc. cbn [negb]. unfold body at 1. rewrite <- app_assoc.
  pose proof (symbols_length_le gs) as Hsl. rewrite Hsym in Hsl.
  pose proof (encode_length bytes) as Hel.
  assert (Hbl : (List.length (List.concat gs) <= List.length body)%nat)
    by (unfold body; rewrite length_app; lia).
  rewrite (decode_encoded bytes gs trail _ _ Hgs Hsym Htn Htl).
  - unfold bind, lift, DBG. cbn [fst snd last_error debug io].
    assert (Hpos : 0 < Z.of_nat (List.length bytes))
      by (destruct bytes; [congruence | cbn [List.length]; lia]).
    assert (Hsmall : Z.of_nat (List.length bytes) < UINT_MOD) by lia.
    assert (Hmod : UINT_MOD < SIZE_T_MOD) by (vm_compute; reflexivity).
    rewrite to_size_t_small by lia.
    destruct (Z.eqb_spec (Z.of_nat (List.length bytes)) 0); [lia |].
    rewrite to_long_small by lia. reflexivity.
  - unfold body in *. rewrite length_app in *. lia.
  - unfold body in *. rewrite length_app in *.
    assert (INT_MAX < SIZE_T_MOD) by (vm_compute; reflexivity). lia.
Qed.

Lemma download_crl_pem_round_trip_witness :
  download_crl (serving pem_buffer) "http://ca/crl.pem" initial_state
  = parsed (d2i_X509_CRL (serving pem_buffer) (list_ascii_of_string "012")
              (Z.of_nat (List.length (list_ascii_of_string "012"))))
           {| last_error := last_error initial_state;
              debug := debug initial_state ++ [Dbg "crl is base64 encoded"];
              io := io initial_state ++ [Fetch "http://ca/crl.pem"] |}.
Proof.
  apply (download_crl_pem_round_trip (serving pem_buffer) "http://ca/crl.pem"
           initial_state (list_ascii_of_string "012")
           [LF :: list_ascii_of_string "MDEy"] [LF] [LF]).
  - reflexivity.
  - reflexivity.
  - vm_compute. reflexivity.
  - vm_compute. reflexivity.
  - vm_compute. reflexivity.
  - vm_compute. reflexivity.
  - cbn [List.length]. lia.
  - discriminate.
  - vm_compute. discriminate.
  - reflexivity.
Defined.

(** X5.  A PEM buffer with too short a body is refused.  The fetched
    buffer (of less than 4 GiB) is the BEGIN marker, a body, the END
    marker and whatever follows it; the body has at most three
    characters, is empty or opens with a line break, and holds no dash;
    the buffer for the decoder can be allocated.  Then [download_crl]
    returns NULL with the error "invalid base64 (pem) format", whatever
    the DER parser is. *)
Theorem download_crl_empty_pem W uri s body post :
  fetch_rv (get_from_uri W uri) = 0 ->
  fetch_data (get_from_uri W uri) = pem_framed body post ->
  pem_body body = true -> (List.length body <= 3)%nat ->
  Z.of_nat (List.length (pem_framed body post)) < UINT_MOD ->
  malloc W (Z.of_nat (List.length body) + 25) = true ->
  download_crl W uri s
  = Done (None,
          {| last_error := "invalid base64 (pem) format";
             debug := debug s ++ [Dbg "crl is base64 encoded"];
             io := io s ++ [Fetch uri] |}).
Proof.
  intros Hrv Hdata Hbody Hshort Hsize Hmalloc.
  pose proof (pem_framed_length body post) as Hlen.
  rewrite download_crl_branches by (rewrite ?Hdata; lia || exact Hrv).
  rewrite Hdata. destruct (pem_framed_markers body post Hbody)
    as (-> & -> & Htext).
  rewrite bind_call.
  destruct (Z.ltb_spec 0 (24 + Z.of_nat (List.length body))); [| lia].
  unfold pem_branch. rewrite Htext.
  replace (24 + Z.of_nat (List.length body) - 0 + 1)
    with (Z.of_nat (List.length body) + 25) by lia.
  rewrite Hmalloc, base64_to_bin_short by exact Hshort. reflexivity.
Qed.

Lemma download_crl_empty_pem_witness :
  download_crl (serving (pem_framed [LF] [LF])) "http://ca/crl.pem"
               initial_state
  = Done (None,
          {| last_error := "invalid base64 (pem) format";
             debug := debug initial_state ++ [Dbg "crl is base64 encoded"];
             io := io initial_state ++ [Fetch "http://ca/crl.pem"] |}).
Proof.
  apply (download_crl_empty_pem (serving (pem_framed [LF] [LF]))
           "http://ca/crl.pem" initial_state [LF] [LF]).
  - reflexivity.
  - reflexivity.
  - vm_compute. reflexivity.
  - cbn [List.length]. lia.
  - vm_compute. reflexivity.
  - reflexivity.
Defined.

(** What a run of [download_crl] leaves behind. *)
Lemma download_crl_trace W uri s r s' :
  download_crl W uri s = Done (r, s') ->
  io s' = io s ++ [Fetch uri]
  /\ (debug s' = debug s \/ exists m, debug s' = debug s ++ [Dbg m])
  /\ match r with
     | Some _ => last_error s' = last_error s
     | None =>
         In (last_error s')
            [("get_from_uri() failed: "
              ++ fetch_error (get_from_uri W uri))%string;
             "not enough free memory available"%string;
             "invalid base64 (pem) format"%string;
             "d2i_X509_CRL() failed"%string]
     end.
Proof.
  unfold download_crl, parsed. run. cbv beta.
  repeat match goal with
         | |- context [match ?x with _ => _ end] =>
             lazymatch x with
             | context [match _ with _ => _ end] => fail
             | _ => destruct x
             end
         end;
    intros H; inversion H; subst; clear H; cbn [last_error debug io In];
    (split; [reflexivity |]); (split; [eauto |]); auto 6.
Qed.

(** ** The ONLINE branch *)

(** What [download_crl] returns does not depend on the state. *)
Lemma download_crl_yields W uri s r s' :
  download_crl W uri s = Done (r, s') -> fetch_yields W uri = Some r.
Proof.
  unfold fetch_yields, download_crl, parsed. run. cbv beta.
  repeat match goal with
         | |- context [match ?x with _ => _ end] =>
             lazymatch x with
             | context [match _ with _ => _ end] => fail
             | _ => destruct x
             end
         end;
    intros H; inversion H; reflexivity.
Qed.

Lemma tried_until_cons_fail W u uris tried crl :
  fetch_yields W u = Some None ->
  tried_until W uris tried crl ->
  tried_until W (u :: uris) (u :: tried) crl.
Proof.
  intros Hu. destruct crl as [c |]; cbn [tried_until].
  - intros (before & v & rest & -> & -> & Hb & Hv).
    exists (u :: before), v, rest. repeat split; auto.
  - intros (-> & Hall). split; auto.
Qed.

Lemma tried_until_app_fail W uris1 tried1 uris2 tried2 crl :
  tried_until W uris1 tried1 None ->
  tried_until W uris2 tried2 crl ->
  tried_until W (uris1 ++ uris2) (tried1 ++ tried2) crl.
Proof.
  intros (-> & Hall). revert Hall.
  induction uris1 as [| u uris1 IH]; intros Hall H2; [exact H2 |].
  inversion Hall; subst. cbn [app].
  apply tried_until_cons_fail; auto.
Qed.

Lemma tried_until_app_found W uris1 tried uris2 c :
  tried_until W uris1 tried (Some c) ->
  tried_until W (uris1 ++ uris2) tried (Some c).
Proof.
  intros (before & u & rest & -> & -> & Hb & Hu).
  exists before, u, (rest ++ uris2). rewrite <- app_assoc. auto.
Qed.

(** The inner loop: one fetch for each URI in turn, up to the first
    that yields a CRL. *)
Lemma try_names_order W names : forall s r s',
  try_names W names s = Done (r, s') ->
  exists tried,
    io s' = io s ++ map Fetch tried
    /\ tried_until W (flat_map name_uri names) tried r.
Proof.
  induction names as [| name names IH]; intros s r s' H.
  - inversion H; subst. exists []. rewrite app_nil_r.
    split; [reflexivity | split; [reflexivity | constructor]].
  - cbn [try_names] in H. destruct name as [n |]; cbn [flat_map name_uri].
    + destruct (gn_type n =? GEN_URI).
      * revert H. unfold bind at 1. unfold DBG1 at 1. unfold bind at 1.
        destruct (download_crl W (gn_ia5 n) _) as [[crl s1] |] eqn:E;
          [| discriminate].
        pose proof (download_crl_yields _ _ _ _ _ E) as Hy.
        apply download_crl_trace in E. destruct E as (Hio & _).
        cbn [io] in Hio. destruct crl as [c |].
        -- intros H. inversion H; subst. exists [gn_ia5 n].
           split; [exact Hio |].
           exists [], (gn_ia5 n), (flat_map name_uri names). auto.
        -- unfold bind at 1. unfold get_error at 1. unfold bind at 1.
           unfold DBG1 at 1. intros H. apply IH in H.
           cbn [io] in H. destruct H as (tried & Hio' & Ht).
           exists (gn_ia5 n :: tried). split.
           ++ rewrite Hio', Hio, <- app_assoc. reflexivity.
           ++ cbn [app]. apply tried_until_cons_fail; assumption.
      * cbn [app]. apply IH. exact H.
    + cbn [app]. apply IH. exact H.
Qed.

(** The outer loop. *)
Lemma try_points_order W dist_points : forall s r s',
  try_points W dist_points s = Done (r, s') ->
  exists tried,
    io s' = io s ++ map Fetch tried
    /\ tried_until W (distribution_uris dist_points) tried r.
Proof.
  induction dist_points as [| point dist_points IH]; intros s r s' H.
  - inversion H; subst. exists []. rewrite app_nil_r.
    split; [reflexivity | split; [reflexivity | constructor]].
  - cbn [try_points] in H. unfold distribution_uris. cbn [flat_map].
    fold (distribution_uris dist_points). unfold point_uris.
    revert H. unfold bind at 1.
    assert (Hnone : forall k,
      match ret (A := option X509_CRL) None s with
      | Done (a, s1) => k a s1
      | Fault => Fault
      end = Done (r, s') ->
      k None s = Done (r, s')) by (intros k Hk; exact Hk).
    destruct (distpoint point) as [dpn |];
      [destruct (fullname dpn) as [names |] |].
    + destruct (try_names W names s) as [[crl s1] |] eqn:E; [| discriminate].
      apply try_names_order in E. destruct E as (tried1 & Hio1 & Ht1).
      destruct crl as [c |].
      * intros H. inversion H; subst. exists tried1.
        split; [exact Hio1 | apply tried_until_app_found; exact Ht1].
      * intros H. apply IH in H. destruct H as (tried2 & Hio2 & Ht2).
        exists (tried1 ++ tried2). split.
        -- rewrite Hio2, Hio1, map_app, app_assoc. reflexivity.
        -- apply tried_until_app_fail; assumption.
    + intros H. apply Hnone in H. apply IH in H. exact H.
    + intros H. apply Hnone in H. apply IH in H. exact H.
Qed.

(** ** The verifier's traces *)

Lemma verify_crl_trace W crl ctx s :
  exists s',
    verify_crl W crl ctx s
    = Done (verdict_code (crl_verifier W crl ctx), s')
    /\ io s' = io s ++ [LookupCert (crl_issuer crl)]
    /\ match crl_verifier W crl ctx with
       | Valid => last_error s' = last_error s /\ debug s' = debug s
       | InvalidOrExpired =>
           last_error s' = last_error s
           /\ exists m,
               In m ["crl is invalid"%string; "crl is not yet valid"%string;
                     "crl has expired"%string]
               /\ debug s' = debug s ++ [Dbg m]
       | ProcessingError =>
           debug s' = debug s
           /\ In (last_error s')
                 ["getting the certificate of the crl-issuer failed"%string;
                  "getting the issuer's public key failed"%string;
                  ("X509_CRL_verify() failed: " ++ ERR_error_string W)%string;
                  "crl has an invalid last update field"%string;
                  "crl has an invalid next update field"%string]
       end.
Proof.
  unfold verify_crl, crl_verifier, malformed, in_the_future, in_the_past.
  run.
  destruct (lookup_cert W ctx (crl_issuer crl)) as [issuer |];
    [destruct (pubkey issuer) as [pkey |] |];
    repeat match goal with
           | |- context [if ?b then _ else _] => destruct b
           end;
    eexists; (split; [reflexivity |]); cbn [io last_error debug In];
    (split; [reflexivity |]); split; eauto 8.
Qed.

(** Lines 266-279 as a function of the CRL. *)
Lemma revoked_by_value W x509 ctx crl s :
  exists s',
    revoked_by W x509 ctx crl s = Done (verdict_value W x509 ctx crl, s')
    /\ io s' = io s ++ [LookupCert (crl_issuer crl)].
Proof.
  unfold revoked_by, verdict_value. unfold bind at 1. unfold DBG at 1.
  unfold bind at 1.
  match goal with
  | |- context [verify_crl W crl ctx ?s0] =>
      destruct (verify_crl_trace W crl ctx s0) as (s1 & -> & Hio & _)
  end.
  cbn [io] in Hio.
  destruct (crl_verifier W crl ctx); cbn [verdict_code].
  - change (1 <? 0) with false. change (1 =? 0) with false. cbv iota.
    unfold ret. rewrite sk_X509_REVOKED_find_spec.
    exists s1. split; [| exact Hio].
    destruct (lists_serial crl x509); reflexivity.
  - exists s1. split; [reflexivity | exact Hio].
  - change (-1 <? 0) with true. cbv iota. run.
    eexists. split; [reflexivity | exact Hio].
Qed.

(** ** The policies as functions of the store and the network *)

Lemma offline_check W x509 ctx s :
  exists s',
    check_for_revocation W x509 ctx CRLP_OFFLINE s
    = Done (offline_value W x509 ctx, s')
    /\ io s' = io s ++ offline_lookups W x509 ctx.
Proof.
  rewrite check_for_revocation_equation_3.
  unfold offline_crl, offline_value, offline_lookups.
  unfold bind at 1. unfold DBG1 at 1. unfold bind at 1. unfold bind at 1.
  unfold DBG at 1. unfold bind at 1.
  unfold X509_STORE_get_by_subject_CRL. unfold bind at 1. unfold call at 1.
  unfold ret at 1.
  destruct (lookup_crl W ctx (issuer_name x509)) as [crl |].
  - unfold ret at 1.
    match goal with
    | |- context [revoked_by W x509 ctx crl ?s0] =>
        destruct (revoked_by_value W x509 ctx crl s0) as (s1 & -> & Hio)
    end.
    exists s1. split; [reflexivity |]. rewrite Hio. cbn [io].
    rewrite <- app_assoc. reflexivity.
  - run. eexists. split; reflexivity.
Qed.

Lemma online_crl_order W x509 ctx s r s' :
  online_crl W x509 ctx s = Done (r, s') ->
  exists tried,
    io s' = io s ++ online_lookups x509 ++ map Fetch tried
    /\ match online_points W x509 ctx with
       | None => tried = [] /\ r = inl (-1)
       | Some dist_points =>
           tried_until W (distribution_uris dist_points) tried
                       (match r with inr c => Some c | inl _ => None end)
           /\ (forall e, r = inl e -> e = -1)
       end.
Proof.
  unfold online_crl, online_points, online_lookups.
  unfold bind at 1. unfold DBG at 1. unfold bind at 1.
  assert (Hloop : forall dist_points s0,
    (crl <- try_points W dist_points ;;
     match crl with
     | None =>
         set_error "downloading the crl failed for all distribution points" ;;
         ret (inl (-1))
     | Some c => ret (inr c)
     end) s0 = Done (r, s') ->
    exists tried,
      io s' = io s0 ++ map Fetch tried
      /\ tried_until W (distribution_uris dist_points) tried
                     (match r with inr c => Some c | inl _ => None end)
      /\ (forall e, r = inl e -> e = -1)).
  { intros dist_points s0. unfold bind at 1.
    destruct (try_points W dist_points s0) as [[crl s1] |] eqn:E;
      [| discriminate].
    apply try_points_order in E. destruct E as (tried & Hio & Ht).
    destruct crl as [c |]; run; intros H; inversion H; subst;
      exists tried; cbn [io];
      (split; [exact Hio | split; [exact Ht |]]);
      intros e He; inversion He; reflexivity. }
  destruct (crl_distribution_points x509) as [dist_points |].
  - unfold ret at 1. intros H. apply Hloop in H.
    cbn [io app] in H |- *. exact H.
  - unfold X509_STORE_get_by_subject_X509. unfold bind at 1. unfold bind at 1.
    unfold call at 1. unfold ret at 1.
    destruct (lookup_cert W ctx (issuer_name x509)) as [issuer |].
    + destruct (crl_distribution_points issuer) as [dist_points |].
      * unfold ret at 1. intros H. apply Hloop in H. cbn [io] in H.
        destruct H as (tried & Hio & H). exists tried.
        split; [rewrite Hio, <- app_assoc; reflexivity | exact H].
      * run. intros H. inversion H; subst. exists []. cbn [io map].
        rewrite app_nil_r. auto.
    + run. intros H. inversion H; subst. exists []. cbn [io map].
      rewrite app_nil_r. auto.
Qed.

Lemma online_check W x509 ctx s rv s' :
  check_for_revocation W x509 ctx CRLP_ONLINE s = Done (rv, s') ->
  exists tried crl,
    io s' = io s ++ online_lookups x509 ++ map Fetch tried
            ++ match crl with
               | Some c => [LookupCert (crl_issuer c)]
               | None => []
               end
    /\ match online_points W x509 ctx with
       | None => tried = [] /\ crl = None
       | Some dist_points =>
           tried_until W (distribution_uris dist_points) tried crl
       end
    /\ rv = match crl with
            | Some c => verdict_value W x509 ctx c
            | None => -1
            end.
Proof.
  rewrite check_for_revocation_equation_2.
  unfold bind at 1. unfold DBG1 at 1. unfold bind at 1.
  destruct (online_crl W x509 ctx _) as [[r s1] |] eqn:E; [| discriminate].
  apply online_crl_order in E. cbn [io] in E.
  destruct E as (tried & Hio & Hp). destruct r as [e | crl].
  - intros H. inversion H; subst. exists tried, None.
    rewrite app_nil_r. split; [exact Hio |].
    destruct (online_points W x509 ctx).
    + destruct Hp as (Ht & He). split; [exact Ht | apply He; reflexivity].
    + destruct Hp as (Ht & He). inversion He. auto.
  - destruct (revoked_by_value W x509 ctx crl s1) as (s2 & -> & Hio2).
    intros H. inversion H; subst. exists tried, (Some crl).
    split; [rewrite Hio2, Hio, <- !app_assoc; reflexivity |].
    destruct (online_points W x509 ctx).
    + destruct Hp as (Ht & _). split; [exact Ht | reflexivity].
    + destruct Hp as (_ & He). discriminate.
Qed.

Lemma verdict_value_range W x509 ctx crl :
  verdict_value W x509 ctx crl = -1 \/ verdict_value W x509 ctx crl = 0
  \/ verdict_value W x509 ctx crl = 1.
Proof.
  unfold verdict_value. destruct (crl_verifier W crl ctx); auto.
  destruct (lists_serial crl x509); auto.
Qed.

Lemma auto_check W x509 ctx s rv s' :
  check_for_revocation W x509 ctx CRLP_AUTO s = Done (rv, s') ->
  exists rv1 s1,
    (DBG1 "crl policy: %d" (ArgPolicy CRLP_AUTO) ;;
     check_for_revocation W x509 ctx CRLP_ONLINE) s = Done (rv1, s1)
    /\ (rv1 = -1 \/ rv1 = 0 \/ rv1 = 1)
    /\ rv = (if rv1 <? 0 then offline_value W x509 ctx else rv1)
    /\ io s' = io s1 ++ (if rv1 <? 0 then offline_lookups W x509 ctx else []).
Proof.
  rewrite check_for_revocation_equation_4.
  unfold bind at 1. unfold DBG1 at 1. unfold bind at 1. cbv beta.
  unfold bind at 2. unfold DBG1 at 2.
  destruct (check_for_revocation W x509 ctx CRLP_ONLINE _)
    as [[rv1 s1] |] eqn:E; [| discriminate].
  pose proof (check_for_revocation_range _ _ _ _ _ _ _ (or_introl eq_refl) E)
    as Hr.
  destruct (rv1 <? 0) eqn:Hneg.
  - unfold bind at 1. unfold get_error at 1. unfold bind at 1.
    unfold DBG1 at 1.
    match goal with
    | |- context [check_for_revocation W x509 ctx CRLP_OFFLINE ?s0] =>
        destruct (offline_check W x509 ctx s0) as (s2 & -> & Hio)
    end.
    intros H. inversion H; subst. exists rv1, s1.
    split; [unfold bind, DBG1; exact E |]. split; [exact Hr |].
    rewrite Hneg. split; [reflexivity |]. cbn [io] in Hio. exact Hio.
  - intros H. inversion H; subst. exists rv, s'.
    split; [unfold bind, DBG1; exact E |]. split; [exact Hr |].
    rewrite Hneg. split; [reflexivity |]. rewrite app_nil_r. reflexivity.
Qed.

Lemma offline_value_range W x509 ctx :
  offline_value W x509 ctx = -1 \/ offline_value W x509 ctx = 0
  \/ offline_value W x509 ctx = 1.
Proof.
  unfold offline_value. destruct (lookup_crl W ctx (issuer_name x509));
    [apply verdict_value_range | auto].
Qed.

Lemma check_for_revocation_values W x509 ctx policy s rv s' :
  check_for_revocation W x509 ctx policy s = Done (rv, s') ->
  rv = -1 \/ rv = 0 \/ rv = 1.
Proof.
  destruct policy.
  - rewrite check_for_revocation_equation_1. run.
    intros H. inversion H. auto.
  - apply check_for_revocation_range. auto.
  - apply check_for_revocation_range. auto.
  - intros H. apply auto_check in H.
    destruct H as (rv1 & s1 & _ & Hr & -> & _).
    destruct (rv1 <? 0); [apply offline_value_range | exact Hr].
  - rewrite check_for_revocation_equation_5. run.
    intros H. inversion H. auto.
Qed.

(** ** The chain validator *)

Lemma verify_certificate_setup_failure W x509 ca_dir crl_dir policy s :
  setup_succeeds W ca_dir crl_dir = false ->
  exists s' what,
    verify_certificate W x509 ca_dir crl_dir policy s = Done (-1, s')
    /\ io s' = io s
    /\ In what ["X509_STORE_new() failed: "%string;
                "X509_STORE_add_lookup() failed: "%string;
                "X509_LOOKUP_add_dir(PEM) failed: "%string;
                "X509_LOOKUP_add_dir(ASN1) failed: "%string;
                "X509_STORE_CTX_new() failed: "%string]
    /\ last_error s' = (what ++ ERR_error_string W)%string.
Proof.
  unfold setup_succeeds, verify_certificate. run.
  repeat
    match goal with
    | |- context [negb ?b] =>
        destruct b; cbn [andb negb];
        [| solve [intros _; do 2 eexists; repeat split; cbn; auto 8]]
    end.
  discriminate.
Qed.

(** The state in which [verify_certificate] enters the revocation check. *)
Lemma verify_certificate_after_check W x509 ca_dir crl_dir policy s rv s1 :
  setup_succeeds W ca_dir crl_dir = true ->
  X509_verify_cert W (store_ctx x509 ca_dir crl_dir) = 1 ->
  check_for_revocation W x509 (store_ctx x509 ca_dir crl_dir) policy
    {| last_error := last_error s;
       debug := ((debug s
                  ++ [Dbg1 "adding ca certificate lookup dir %s"
                           (ArgString ca_dir)])
                 ++ [Dbg1 "adding crl lookup dir %s" (ArgString crl_dir)])
                ++ [Dbg "certificate is valid"];
       io := io s |} = Done (rv, s1) ->
  exists s',
    verify_certificate W x509 ca_dir crl_dir policy s = Done (rv, s')
    /\ io s' = io s1
    /\ last_error s'
       = if rv =? -1
         then ("check_for_revocation() failed: " ++ last_error s1)%string
         else last_error s1.
Proof.
  intros Hsetup Hok Hcheck.
  rewrite verify_certificate_setup by exact Hsetup.
  cbv zeta. rewrite Hok. cbn [Z.eqb Pos.eqb negb].
  unfold bind at 1. unfold DBG at 1. cbn [last_error debug io].
  unfold bind at 1. rewrite Hcheck.
  destruct (check_for_revocation_values _ _ _ _ _ _ _ Hcheck)
    as [-> | [-> | ->]]; run; eexists; split; reflexivity || (split; reflexivity).
Qed.

Lemma verdict_value_accepts W x509 ctx crl :
  verdict_value W x509 ctx crl = 1 ->
  crl_verifier W crl ctx = Valid /\ lists_serial crl x509 = false.
Proof.
  unfold verdict_value. destruct (crl_verifier W crl ctx);
    [| discriminate | discriminate].
  destruct (lists_serial crl x509); [discriminate | auto].
Qed.

Lemma tried_until_found W uris tried c :
  tried_until W uris tried (Some c) ->
  exists u, In u uris /\ fetch_yields W u = Some (Some c).
Proof.
  intros (before & u & rest & -> & _ & _ & Hu).
  exists u. split; [apply in_or_app; right; left; reflexivity | exact Hu].
Qed.

(** Where a result of 1 comes from. *)
Lemma check_for_revocation_accepts W x509 ctx policy s s' :
  check_for_revocation W x509 ctx policy s = Done (1, s') ->
  policy = CRLP_NONE
  \/ exists crl,
       crl_verifier W crl ctx = Valid /\ lists_serial crl x509 = false
       /\ (lookup_crl W ctx (issuer_name x509) = Some crl
           \/ exists dist_points u,
                online_points W x509 ctx = Some dist_points
                /\ In u (distribution_uris dist_points)
                /\ fetch_yields W u = Some (Some crl)).
Proof.
  assert (Hon : forall s0 s1,
    check_for_revocation W x509 ctx CRLP_ONLINE s0 = Done (1, s1) ->
    exists crl,
      crl_verifier W crl ctx = Valid /\ lists_serial crl x509 = false
      /\ (lookup_crl W ctx (issuer_name x509) = Some crl
          \/ exists dist_points u,
               online_points W x509 ctx = Some dist_points
               /\ In u (distribution_uris dist_points)
               /\ fetch_yields W u = Some (Some crl))).
  { intros s0 s1 H. apply online_check in H.
    destruct H as (tried & [crl |] & _ & Hp & Hv); [| discriminate].
    symmetry in Hv. apply verdict_value_accepts in Hv. destruct Hv as (V & L).
    exists crl. split; [exact V | split; [exact L | right]].
    destruct (online_points W x509 ctx) as [dist_points |];
      [| destruct Hp; discriminate].
    destruct (tried_until_found _ _ _ _ Hp) as (u & Hin & Hu).
    exists dist_points, u. auto. }
  assert (Hoff : offline_value W x509 ctx = 1 ->
    exists crl,
      crl_verifier W crl ctx = Valid /\ lists_serial crl x509 = false
      /\ (lookup_crl W ctx (issuer_name x509) = Some crl
          \/ exists dist_points u,
               online_points W x509 ctx = Some dist_points
               /\ In u (distribution_uris dist_points)
               /\ fetch_yields W u = Some (Some crl))).
  { unfold offline_value.
    destruct (lookup_crl W ctx (issuer_name x509)) as [crl |];
      [| discriminate].
    intros Hv. apply verdict_value_accepts in Hv. destruct Hv as (V & L).
    exists crl. auto. }
  destruct policy.
  - left. reflexivity.
  - intros H. right. exact (Hon _ _ H).
  - intros H. right.
    destruct (offline_check W x509 ctx s) as (s1 & Hc & _).
    rewrite Hc in H. inversion H. apply Hoff. assumption.
  - intros H. right. apply auto_check in H.
    destruct H as (rv1 & s1 & Hc & _ & Hv & _).
    destruct (Z.ltb_spec rv1 0).
    + apply Hoff. symmetry. exact Hv.
    + subst rv1. revert Hc. unfold bind at 1. unfold DBG1 at 1. apply Hon.
  - rewrite check_for_revocation_equation_5. run. discriminate.
Qed.

(** ** What the fetcher and the verifier touch *)

(** X6.  Every run of [download_crl] that returns has made exactly one
    fetch, of the URI it was given, and no store lookup.  When it
    returns a CRL the error slot is as it was; when it returns NULL the
    error slot holds one of its four diagnostics. *)
Theorem download_crl_effects W uri s r s' :
  download_crl W uri s = Done (r, s') ->
  io s' = io s ++ [Fetch uri]
  /\ match r with
     | Some _ => last_error s' = last_error s
     | None =>
         In (last_error s')
            [("get_from_uri() failed: "
              ++ fetch_error (get_from_uri W uri))%string;
             "not enough free memory available"%string;
             "invalid base64 (pem) format"%string;
             "d2i_X509_CRL() failed"%string]
     end.
Proof.
  intros H. destruct (download_crl_trace _ _ _ _ _ H) as (Hio & _ & Hr).
  split; assumption.
Qed.

Lemma download_crl_effects_witness :
  exists r s',
    download_crl (serving reversed_buffer) "http://ca/crl" initial_state
    = Done (r, s')
    /\ io s' = io initial_state ++ [Fetch "http://ca/crl"]
    /\ match r with
       | Some _ => last_error s' = last_error initial_state
       | None =>
           In (last_error s')
              [("get_from_uri() failed: "
                ++ fetch_error
                     (get_from_uri (serving reversed_buffer) "http://ca/crl"))%string;
               "not enough free memory available"%string;
               "invalid base64 (pem) format"%string;
               "d2i_X509_CRL() failed"%string]
       end.
Proof.
  do 2 eexists. split; [vm_compute; reflexivity |].
  apply (download_crl_effects (serving reversed_buffer) "http://ca/crl"
           initial_state).
  vm_compute. reflexivity.
Defined.

(** X7.  [verify_crl] always returns, after exactly one store lookup: of
    the certificate of the CRL's issuer.  On a valid CRL it changes
    neither the error slot nor the debug log; a CRL that is invalid, not
    yet valid or expired is reported in the debug log only, the error
    slot staying as it was; a processing error is reported in the error
    slot only. *)
Theorem verify_crl_effects W crl ctx s :
  exists s',
    verify_crl W crl ctx s
    = Done (verdict_code (crl_verifier W crl ctx), s')
    /\ io s' = io s ++ [LookupCert (crl_issuer crl)]
    /\ match crl_verifier W crl ctx with
       | Valid => last_error s' = last_error s /\ debug s' = debug s
       | InvalidOrExpired =>
           last_error s' = last_error s
           /\ exists m,
               In m ["crl is invalid"%string; "crl is not yet valid"%string;
                     "crl has expired"%string]
               /\ debug s' = debug s ++ [Dbg m]
       | ProcessingError =>
           debug s' = debug s
           /\ In (last_error s')
                 ["getting the certificate of the crl-issuer failed"%string;
                  "getting the issuer's public key failed"%string;
                  ("X509_CRL_verify() failed: " ++ ERR_error_string W)%string;
                  "crl has an invalid last update field"%string;
                  "crl has an invalid next update field"%string]
       end.
Proof.
  exact (verify_crl_trace W crl ctx s).
Qed.

(** ** The revocation check, policy by policy *)

(** X8.  Under OFFLINE the check always returns and never fetches: its
    value is a function of the store alone (-1 when the store has no CRL
    of the certificate's issuer, else the verdict on that CRL), and its
    only calls are the lookup of that CRL and, when there is one, the
    lookup of its issuer's certificate. *)
Theorem offline_never_fetches W x509 ctx s :
  exists s',
    check_for_revocation W x509 ctx CRLP_OFFLINE s
    = Done (offline_value W x509 ctx, s')
    /\ io s' = io s ++ offline_lookups W x509 ctx
    /\ forall uri, ~ In (Fetch uri) (offline_lookups W x509 ctx).
Proof.
  destruct (offline_check W x509 ctx s) as (s' & H & Hio).
  exists s'. split; [exact H | split; [exact Hio |]].
  intros uri. unfold offline_lookups.
  destruct (lookup_crl W ctx (issuer_name x509)); cbn [In];
    intros [F | F]; try discriminate F; try destruct F as [F | F];
    try discriminate F; exact F.
Qed.

(** X9.  Under ONLINE the check fetches the URIs of the distribution
    points in their order (of the certificate, or of its issuer's
    certificate in the store when it has none; only full names that are
    URIs), stops at the first one that yields a CRL, and returns the
    verdict on that CRL; when no URI yields a CRL, or there are no
    distribution points, it returns -1.  A certificate with
    distribution points of its own causes no store lookup before the
    fetches. *)
Theorem online_fetch_order W x509 ctx s rv s' :
  check_for_revocation W x509 ctx CRLP_ONLINE s = Done (rv, s') ->
  exists tried crl,
    io s' = io s ++ online_lookups x509 ++ map Fetch tried
            ++ match crl with
               | Some c => [LookupCert (crl_issuer c)]
               | None => []
               end
    /\ match online_points W x509 ctx with
       | None => tried = [] /\ crl = None
       | Some dist_points =>
           tried_until W (distribution_uris dist_points) tried crl
       end
    /\ rv = match crl with
            | Some c => verdict_value W x509 ctx c
            | None => -1
            end.
Proof.
  exact (online_check W x509 ctx s rv s').
Qed.

Lemma online_fetch_order_witness :
  exists rv s',
    check_for_revocation network roamer (ctx_of roamer) CRLP_ONLINE
                         initial_state = Done (rv, s')
    /\ exists tried crl,
         io s' = io initial_state ++ online_lookups roamer
                 ++ map Fetch tried
                 ++ match crl with
                    | Some c => [LookupCert (crl_issuer c)]
                    | None => []
                    end
         /\ match online_points network roamer (ctx_of roamer) with
            | None => tried = [] /\ crl = None
            | Some dist_points =>
                tried_until network (distribution_uris dist_points) tried crl
            end
         /\ rv = match crl with
                 | Some c => verdict_value network roamer (ctx_of roamer) c
                 | None => -1
                 end.
Proof.
  do 2 eexists. split; [vm_compute; reflexivity |].
  apply (online_fetch_order network roamer (ctx_of roamer) initial_state).
  vm_compute. reflexivity.
Defined.

(** X10.  Under AUTO the store is consulted exactly when ONLINE ended in
    -1: no distribution point, no URI that yields a CRL, or a
    processing error on the downloaded CRL.  A downloaded CRL on which
    the verifier reaches a verdict settles the result, also when it is
    invalid or expired (0): the store's CRL is then not looked up. *)
Theorem auto_consults_store_on_error W x509 ctx s rv s' :
  check_for_revocation W x509 ctx CRLP_AUTO s = Done (rv, s') ->
  exists tried crl,
    match online_points W x509 ctx with
    | None => tried = [] /\ crl = None
    | Some dist_points =>
        tried_until W (distribution_uris dist_points) tried crl
    end
    /\ let online := match crl with
                     | Some c => verdict_value W x509 ctx c
                     | None => -1
                     end in
       rv = (if online <? 0 then offline_value W x509 ctx else online)
       /\ io s' = io s ++ online_lookups x509 ++ map Fetch tried
                  ++ match crl with
                     | Some c => [LookupCert (crl_issuer c)]
                     | None => []
                     end
                  ++ (if online <? 0 then offline_lookups W x509 ctx
                      else []).
Proof.
  intros H. apply auto_check in H.
  destruct H as (rv1 & s1 & Hc & _ & Hv & Hio).
  unfold bind at 1 in Hc. unfold DBG1 at 1 in Hc.
  apply online_check in Hc. cbn [io] in Hc.
  destruct Hc as (tried & crl & Hio1 & Hp & Hrv1).
  exists tried, crl. split; [exact Hp |]. cbv zeta. rewrite <- Hrv1.
  split; [exact Hv |]. rewrite Hio, Hio1. rewrite <- !app_assoc. reflexivity.
Qed.

Lemma auto_consults_store_on_error_witness :
  exists rv s',
    check_for_revocation network roamer (ctx_of roamer) CRLP_AUTO
                         initial_state = Done (rv, s')
    /\ exists tried crl,
         match online_points network roamer (ctx_of roamer) with
         | None => tried = [] /\ crl = None
         | Some dist_points =>
             tried_until network (distribution_uris dist_points) tried crl
         end
         /\ let online := match crl with
                          | Some c =>
                              verdict_value network roamer (ctx_of roamer) c
                          | None => -1
                          end in
            rv = (if online <? 0
                  then offline_value network roamer (ctx_of roamer)
                  else online)
            /\ io s' = io initial_state ++ online_lookups roamer
                       ++ map Fetch tried
                       ++ match crl with
                          | Some c => [LookupCert (crl_issuer c)]
                          | None => []
                          end
                       ++ (if online <? 0
                           then offline_lookups network roamer (ctx_of roamer)
                           else []).
Proof.
  do 2 eexists. split; [vm_compute; reflexivity |].
  apply (auto_consults_store_on_error network roamer (ctx_of roamer)
           initial_state).
  vm_compute. reflexivity.
Defined.

(** ** The chain validator and the revocation check *)

(** X11.  When the set-up and the path validation succeed, the value of
    [verify_certificate] is the value of the revocation check, run on
    the store context of the certificate with the error slot and the
    calls as they were on entry; [verify_certificate] makes no call of
    its own after it, and on -1 it puts its own prefix before the
    message of the check. *)
Theorem verify_certificate_is_the_check W x509 ca_dir crl_dir policy s rv s' :
  setup_succeeds W ca_dir crl_dir = true ->
  X509_verify_cert W (store_ctx x509 ca_dir crl_dir) = 1 ->
  verify_certificate W x509 ca_dir crl_dir policy s = Done (rv, s') ->
  exists s0 s1,
    last_error s0 = last_error s /\ io s0 = io s
    /\ check_for_revocation W x509 (store_ctx x509 ca_dir crl_dir) policy s0
       = Done (rv, s1)
    /\ io s' = io s1
    /\ last_error s'
       = if rv =? -1
         then ("check_for_revocation() failed: " ++ last_error s1)%string
         else last_error s1.
Proof.
  intros Hsetup Hok H.
  pose proof H as H0.
  rewrite verify_certificate_setup in H0 by exact Hsetup.
  cbv zeta in H0. rewrite Hok in H0. cbn [Z.eqb Pos.eqb negb] in H0.
  unfold bind at 1 in H0. unfold DBG at 1 in H0. cbn [last_error debug io] in H0.
  unfold bind at 1 in H0.
  match type of H0 with
  | context [check_for_revocation W x509 ?c policy ?s0] =>
      destruct (check_for_revocation W x509 c policy s0)
        as [[rv1 s1] |] eqn:E; [| discriminate H0];
      exists s0, s1
  end.
  destruct (verify_certificate_after_check _ _ _ _ _ _ _ _ Hsetup Hok E)
    as (s2 & Hv & Hio & Herr).
  rewrite Hv in H. inversion H; subst rv1 s2.
  repeat split; assumption.
Qed.

Lemma verify_certificate_is_the_check_witness :
  exists rv s',
    verify_certificate network roamer "/etc/pam_pkcs11/cacerts"
                       "/etc/pam_pkcs11/crls" CRLP_ONLINE initial_state
    = Done (rv, s')
    /\ exists s0 s1,
         last_error s0 = last_error initial_state
         /\ io s0 = io initial_state
         /\ check_for_revocation network roamer
              (store_ctx roamer "/etc/pam_pkcs11/cacerts"
                         "/etc/pam_pkcs11/crls") CRLP_ONLINE s0
            = Done (rv, s1)
         /\ io s' = io s1
         /\ last_error s'
            = if rv =? -1
              then ("check_for_revocation() failed: " ++ last_error s1)%string
              else last_error s1.
Proof.
  do 2 eexists. split; [vm_compute; reflexivity |].
  apply (verify_certificate_is_the_check network roamer
           "/etc/pam_pkcs11/cacerts" "/etc/pam_pkcs11/crls" CRLP_ONLINE
           initial_state).
  - reflexivity.
  - reflexivity.
  - vm_compute. reflexivity.
Defined.

(** X12.  [verify_certificate] returns 1 only when the set-up
    succeeded, the path validation returned 1, and either the policy is
    NONE or there is a CRL that the verifier finds valid and that does
    not list the certificate's serial number: the store's CRL of the
    certificate's issuer, or a CRL that one of the distribution-point
    URIs yields. *)
Theorem verify_certificate_accepts W x509 ca_dir crl_dir policy s s' :
  verify_certificate W x509 ca_dir crl_dir policy s = Done (1, s') ->
  setup_succeeds W ca_dir crl_dir = true
  /\ X509_verify_cert W (store_ctx x509 ca_dir crl_dir) = 1
  /\ (policy = CRLP_NONE
      \/ exists crl,
           crl_verifier W crl (store_ctx x509 ca_dir crl_dir) = Valid
           /\ lists_serial crl x509 = false
           /\ (lookup_crl W (store_ctx x509 ca_dir crl_dir)
                          (issuer_name x509) = Some crl
               \/ exists dist_points u,
                    online_points W x509 (store_ctx x509 ca_dir crl_dir)
                    = Some dist_points
                    /\ In u (distribution_uris dist_points)
                    /\ fetch_yields W u = Some (Some crl))).
Proof.
  intros H.
  destruct (setup_succeeds W ca_dir crl_dir) eqn:Hsetup.
  2:{ destruct (verify_certificate_setup_failure W x509 ca_dir crl_dir
                  policy s Hsetup) as (s0 & what & Hv & _).
      rewrite Hv in H. discriminate H. }
  split; [reflexivity |].
  pose proof H as H0.
  rewrite verify_certificate_setup in H0 by exact Hsetup.
  cbv zeta in H0.
  destruct (X509_verify_cert W (store_ctx x509 ca_dir crl_dir) =? 1) eqn:Hok;
    cbn [negb] in H0; [| discriminate H0].
  apply Z.eqb_eq in Hok. split; [exact Hok |].
  unfold bind at 1 in H0. unfold DBG at 1 in H0.
  cbn [last_error debug io] in H0. unfold bind at 1 in H0.
  match type of H0 with
  | context [check_for_revocation W x509 ?c policy ?s0] =>
      destruct (check_for_revocation W x509 c policy s0)
        as [[rv1 s1] |] eqn:E; [| discriminate H0]
  end.
  destruct (verify_certificate_after_check _ _ _ _ _ _ _ _ Hsetup Hok E)
    as (s2 & Hv & _).
  rewrite Hv in H. inversion H; subst rv1 s2.
  exact (check_for_revocation_accepts _ _ _ _ _ _ E).
Qed.

Lemma verify_certificate_accepts_witness :
  exists s',
    verify_certificate (offline_world [clean_crl]) leaf
                       "/etc/pam_pkcs11/cacerts" "/etc/pam_pkcs11/crls"
                       CRLP_OFFLINE initial_state = Done (1, s')
    /\ setup_succeeds (offline_world [clean_crl]) "/etc/pam_pkcs11/cacerts"
                      "/etc/pam_pkcs11/crls" = true
    /\ X509_verify_cert (offline_world [clean_crl]) (ctx_of leaf) = 1
    /\ (CRLP_OFFLINE = CRLP_NONE
        \/ exists crl,
             crl_verifier (offline_world [clean_crl]) crl (ctx_of leaf) = Valid
             /\ lists_serial crl leaf = false
             /\ (lookup_crl (offline_world [clean_crl]) (ctx_of leaf)
                            (issuer_name leaf) = Some crl
                 \/ exists dist_points u,
                      online_points (offline_world [clean_crl]) leaf
                                    (ctx_of leaf) = Some dist_points
                      /\ In u (distribution_uris dist_points)
                      /\ fetch_yields (offline_world [clean_crl]) u
                         = Some (Some crl))).
Proof.
  eexists. split; [vm_compute; reflexivity |].
  eapply (verify_certificate_accepts (offline_world [clean_crl]) leaf
           "/etc/pam_pkcs11/cacerts" "/etc/pam_pkcs11/crls" CRLP_OFFLINE
           initial_state).
  vm_compute. reflexivity.
Defined.

(** * The decoder, group by group *)

Lemma fill_four val c0 c1 c2 c3 :
  fill val 0 [c0; c1; c2; c3]
  = Quad (symbol_value c0) (symbol_value c1) (symbol_value c2)
         (symbol_value c3).
Proof. destruct val. reflexivity. Qed.

Lemma four_symbols (l : list ascii) :
  List.length l = 4%nat -> exists c0 c1 c2 c3, l = [c0; c1; c2; c3].
Proof.
  destruct l as [| c0 [| c1 [| c2 [| c3 [| c4 l]]]]]; try discriminate.
  intros _. eauto.
Qed.

Lemma fill_group_bytes g val :
  List.length (symbols g) = 4%nat ->
  bytes_of (fill val 0 (symbols g)) = group_bytes g.
Proof.
  intros H. unfold group_bytes.
  destruct (four_symbols _ H) as (c0 & c1 & c2 & c3 & ->).
  rewrite !fill_four. reflexivity.
Qed.

Lemma group_bytes_length g : List.length (group_bytes g) = 3%nat.
Proof. reflexivity. Qed.

Lemma pads_group g : is_group g = true -> (pads g <= 4)%nat.
Proof.
  intros H. destruct (is_group_parts _ H) as (Hn & _).
  rewrite <- pads_symbols, <- Hn. apply pads_le_length.
Qed.

(** One pass of the [while] loop over the text of a group, whatever the
    number of [=] before it. *)
Lemma while_loop_group_from g pl cap val out rest sl fuel :
  is_group g = true ->
  0 <= pl -> pl + 4 < SIZE_T_MOD ->
  Z.of_nat (List.length out) <= cap -> cap <= INT_MAX ->
  Z.of_nat (List.length g) <= sl < SIZE_T_MOD ->
  let len := Z.of_nat (List.length out) in
  let pl' := pl + Z.of_nat (pads g) in
  while_loop (S fuel) (g ++ rest) sl pl len cap val out
  = if cap <? len + 1 then Some (Done (-1, out))
    else if pl' =? 2 then
      Some (Done (len + 1, out ++ firstn 1 (group_bytes g)))
    else if cap <? len + 2 then
      Some (Done (-1, out ++ firstn 1 (group_bytes g)))
    else if pl' =? 1 then
      Some (Done (len + 2, out ++ firstn 2 (group_bytes g)))
    else if cap <? len + 3 then
      Some (Done (-1, out ++ firstn 2 (group_bytes g)))
    else
      while_loop fuel rest (sl - Z.of_nat (List.length g)) pl' (len + 3) cap
                 (fill val 0 (symbols g)) (out ++ group_bytes g).
Proof.
  intros Hg Hpl Hpl4 Hle Hmax Hsl len pl'.
  destruct (is_group_parts _ Hg) as (Hn & Hend & _ & Hlen).
  assert (Hmod : INT_MAX + 3 < SIZE_T_MOD) by (vm_compute; reflexivity).
  cbn [while_loop]. destruct (Z.ltb_spec 3 sl); [| lia].
  rewrite for_loop_group_fill; try assumption; try lia.
  cbv zeta. fold pl'. rewrite <- (fill_group_bytes g val Hn).
  fold len. unfold bytes_of. cbn [firstn].
  change (len + 2) with (len + (1 + 1)). change (len + 3) with (len + (1 + 1 + 1)).
  rewrite !Z.add_assoc.
  assert (Hlen0 : 0 <= len <= cap) by (unfold len; lia).
  rewrite (to_size_t_small (len + 1)) by lia.
  rewrite (to_size_t_small (len + 1 + 1)) by lia.
  rewrite (to_size_t_small (len + 1 + 1 + 1)) by lia.
  destruct (Z.ltb_spec cap (len + 1)); [reflexivity |].
  rewrite (to_int_small (len + 1)) by lia.
  destruct (pl' =? 2); [reflexivity |].
  destruct (Z.ltb_spec cap (len + 1 + 1)); [reflexivity |].
  rewrite (to_int_small (len + 1 + 1)) by lia.
  rewrite <- !app_assoc. cbn [app].
  destruct (pl' =? 1); [reflexivity |].
  destruct (Z.ltb_spec cap (len + 1 + 1 + 1)); reflexivity.
Qed.

(** The [while] loop on a text of groups followed by at most three
    characters. *)
Lemma while_loop_decode_groups cap gs :
  cap <= INT_MAX ->
  forall fuel rest sl pl val out,
  forallb is_group gs = true ->
  0 <= pl -> pl + 4 * Z.of_nat (List.length gs) < SIZE_T_MOD ->
  Z.of_nat (List.length out) <= cap ->
  Z.of_nat (List.length (List.concat gs)) <= sl
    <= Z.of_nat (List.length (List.concat gs)) + 3 ->
  sl < SIZE_T_MOD ->
  (List.length gs <= fuel)%nat ->
  while_loop fuel (List.concat gs ++ rest) sl pl (Z.of_nat (List.length out))
             cap val out
  = Some (Done (decode_groups pl out cap gs)).
Proof.
  intros Hmax.
  induction gs as [| g gs IH];
    intros fuel rest sl pl val out Hgs Hpl Hpl4 Hle Hsl Hmod Hfuel.
  - cbn [List.concat List.length app decode_groups] in *.
    destruct fuel; cbn [while_loop];
      (destruct (Z.ltb_spec 3 sl); [lia |]);
      rewrite to_int_small by lia; reflexivity.
  - cbn [forallb] in Hgs. apply andb_true_iff in Hgs.
    destruct Hgs as (Hg & Hgs).
    pose proof (pads_group g Hg) as Hp.
    destruct (is_group_parts _ Hg) as (Hn & _ & _ & Hlen).
    cbn [List.concat List.length] in *. rewrite length_app in Hsl.
    destruct fuel as [| fuel]; [lia |].
    rewrite <- app_assoc.
    rewrite while_loop_group_from; try assumption; try lia.
    cbn [decode_groups]. cbv zeta.
    destruct (Z.ltb_spec cap (Z.of_nat (List.length out) + 1)); [reflexivity |].
    destruct (pl + Z.of_nat (pads g) =? 2); [reflexivity |].
    destruct (Z.ltb_spec cap (Z.of_nat (List.length out) + 2)); [reflexivity |].
    destruct (pl + Z.of_nat (pads g) =? 1); [reflexivity |].
    destruct (Z.ltb_spec cap (Z.of_nat (List.length out) + 3)); [reflexivity |].
    replace (Z.of_nat (List.length out) + 3)
      with (Z.of_nat (List.length (out ++ group_bytes g)))
      by (rewrite length_app, group_bytes_length; lia).
    apply IH; try assumption; try lia.
    rewrite length_app, group_bytes_length. lia.
Qed.

Lemma groups_count gs :
  forallb is_group gs = true ->
  4 * Z.of_nat (List.length gs) <= Z.of_nat (List.length (List.concat gs)).
Proof.
  induction gs as [| g gs IH]; intros H; [cbn; lia |].
  cbn [forallb] in H. apply andb_true_iff in H. destruct H as (Hg & H).
  destruct (is_group_parts _ Hg) as (_ & _ & _ & Hlen).
  cbn [List.concat List.length]. rewrite length_app. specialize (IH H). lia.
Qed.

(** The decoder on the object of a C string whose text is made of groups
    followed by at most three characters. *)
Lemma base64_to_bin_groups gs trail after cap :
  forallb is_group gs = true ->
  no_nul trail = true -> (List.length trail <= 3)%nat ->
  0 <= cap <= INT_MAX ->
  Z.of_nat (List.length (List.concat gs) + List.length trail) < SIZE_T_MOD ->
  base64_to_bin (List.concat gs ++ trail ++ NUL :: after) cap
  = Done (decode_groups 0 [] cap gs).
Proof.
  intros Hgs Htn Htl Hcap Hsz.
  destruct (groups_text gs Hgs) as (Hn & Hl).
  pose proof (groups_count gs Hgs) as Hc.
  unfold base64_to_bin. rewrite app_assoc, strlen_exact
    by (rewrite no_nul_app, Hn, Htn; reflexivity).
  rewrite <- app_assoc.
  change 0 with (Z.of_nat (@List.length ascii [])) at 2.
  rewrite while_loop_decode_groups; try assumption; try reflexivity;
    try (cbn [List.length]; lia).
  - rewrite length_app. lia.
  - rewrite length_app. lia.
  - rewrite !length_app. cbn [List.length]. lia.
Qed.

(** *** The text without the characters the decoder skips *)

Lemma symbols_symbols s : symbols (symbols s) = symbols s.
Proof.
  unfold symbols. induction s as [| c s IH]; [reflexivity |].
  cbn [filter]. destruct (recognized c) eqn:R; [| exact IH].
  cbn [filter]. rewrite R, IH. reflexivity.
Qed.

Lemma no_nul_symbols s : no_nul s = true -> no_nul (symbols s) = true.
Proof.
  unfold no_nul, symbols. induction s as [| c s IH]; [reflexivity |].
  cbn [forallb filter]. intros H. apply andb_true_iff in H.
  destruct H as (Hc & H). destruct (recognized c); [| auto].
  cbn [forallb]. rewrite Hc, (IH H). reflexivity.
Qed.

Lemma ends_with_symbol_symbols s :
  (0 < List.length (symbols s))%nat -> ends_with_symbol (symbols s) = true.
Proof.
  induction s as [| c s IH]; [cbn; lia |].
  rewrite symbols_cons. destruct (recognized c) eqn:R; [| exact IH].
  intros _. cbn [ends_with_symbol].
  destruct (symbols s) as [| c' s'] eqn:E; [exact R |].
  apply IH. cbn [List.length]. lia.
Qed.

Lemma is_group_symbols g : is_group g = true -> is_group (symbols g) = true.
Proof.
  intros H. destruct (is_group_parts _ H) as (Hn & _ & Hnul & _).
  unfold is_group. rewrite symbols_symbols, Hn, (no_nul_symbols g Hnul).
  rewrite ends_with_symbol_symbols by lia. reflexivity.
Qed.

Lemma forallb_is_group_symbols gs :
  forallb is_group gs = true -> forallb is_group (map symbols gs) = true.
Proof.
  induction gs as [| g gs IH]; [reflexivity |].
  cbn [forallb map]. intros H. apply andb_true_iff in H.
  destruct H as (Hg & H). rewrite (is_group_symbols g Hg), (IH H). reflexivity.
Qed.

Lemma group_bytes_symbols g : group_bytes (symbols g) = group_bytes g.
Proof. unfold group_bytes. rewrite symbols_symbols. reflexivity. Qed.

Lemma decode_groups_symbols cap gs : forall pl out,
  decode_groups pl out cap (map symbols gs) = decode_groups pl out cap gs.
Proof.
  induction gs as [| g gs IH]; intros pl out; [reflexivity |].
  cbn [map decode_groups]. rewrite pads_symbols, group_bytes_symbols.
  rewrite IH. reflexivity.
Qed.

Lemma symbols_text_length gs :
  (List.length (List.concat (map symbols gs))
   <= List.length (List.concat gs))%nat.
Proof.
  induction gs as [| g gs IH]; [reflexivity |].
  cbn [map List.concat]. rewrite !length_app.
  pose proof (filter_length_le recognized g) as H.
  change (filter recognized g) with (symbols g) in H. lia.
Qed.

(** *** What the groups give *)

Lemma decode_groups_full cap groups : forall out more,
  forallb is_full_group groups = true ->
  Z.of_nat (List.length out) + 3 * Z.of_nat (List.length groups) <= cap ->
  decode_groups 0 out cap (groups ++ more)
  = decode_groups 0 (out ++ flat_map group_bytes groups) cap more.
Proof.
  induction groups as [| g groups IH]; intros out more Hall Hcap.
  - cbn [flat_map app]. rewrite app_nil_r. reflexivity.
  - cbn [forallb] in Hall. apply andb_true_iff in Hall.
    destruct Hall as (Hg & Hall). unfold is_full_group in Hg.
    apply andb_true_iff in Hg. destruct Hg as (_ & Hp).
    apply Nat.eqb_eq in Hp.
    cbn [List.length] in Hcap.
    change ((g :: groups) ++ more) with (g :: (groups ++ more)).
    cbn [decode_groups flat_map]. rewrite Hp.
    change (0 + Z.of_nat 0) with 0.
    change (0 =? 2) with false. change (0 =? 1) with false. cbv iota.
    destruct (Z.ltb_spec cap (Z.of_nat (List.length out) + 1)); [lia |].
    destruct (Z.ltb_spec cap (Z.of_nat (List.length out) + 2)); [lia |].
    destruct (Z.ltb_spec cap (Z.of_nat (List.length out) + 3)); [lia |].
    rewrite IH; [rewrite <- app_assoc; reflexivity | exact Hall |].
    rewrite length_app, group_bytes_length. lia.
Qed.

(** Once three [=] have been counted, no group ends the decoding. *)
Lemma decode_groups_past_two cap gs : forall pl out,
  3 <= pl ->
  Z.of_nat (List.length out) + 3 * Z.of_nat (List.length gs) <= cap ->
  decode_groups pl out cap gs
  = (Z.of_nat (List.length out) + 3 * Z.of_nat (List.length gs),
     out ++ flat_map group_bytes gs).
Proof.
  induction gs as [| g gs IH]; intros pl out Hpl Hcap.
  - cbn [decode_groups flat_map List.length]. rewrite app_nil_r.
    f_equal. lia.
  - cbn [List.length] in Hcap. cbn [decode_groups flat_map].
    destruct (Z.ltb_spec cap (Z.of_nat (List.length out) + 1)); [lia |].
    destruct (Z.eqb_spec (pl + Z.of_nat (pads g)) 2); [lia |].
    destruct (Z.ltb_spec cap (Z.of_nat (List.length out) + 2)); [lia |].
    destruct (Z.eqb_spec (pl + Z.of_nat (pads g)) 1); [lia |].
    destruct (Z.ltb_spec cap (Z.of_nat (List.length out) + 3)); [lia |].
    rewrite IH; [| lia | rewrite length_app, group_bytes_length; lia].
    rewrite length_app, group_bytes_length, <- app_assoc.
    cbn [List.length]. f_equal. lia.
Qed.

(** With room for three bytes a group, the decoder does not fail: it
    returns the number of bytes written, which is positive as soon as
    there is a group. *)
Lemma decode_groups_fits cap gs : forall pl out,
  Z.of_nat (List.length out) + 3 * Z.of_nat (List.length gs) <= cap ->
  let r := decode_groups pl out cap gs in
  fst r = Z.of_nat (List.length (snd r))
  /\ Z.of_nat (List.length out) <= fst r
     <= Z.of_nat (List.length out) + 3 * Z.of_nat (List.length gs)
  /\ (gs <> [] -> Z.of_nat (List.length out) < fst r).
Proof.
  induction gs as [| g gs IH]; intros pl out Hcap r; subst r.
  - cbn [decode_groups fst snd List.length]. repeat split; try lia.
    intros F; contradiction.
  - cbn [List.length] in Hcap. cbn [decode_groups].
    destruct (Z.ltb_spec cap (Z.of_nat (List.length out) + 1)); [lia |].
    destruct (pl + Z.of_nat (pads g) =? 2).
    { cbn [fst snd]. rewrite length_app. cbn [List.length firstn group_bytes bytes_of].
      repeat split; try lia. }
    destruct (Z.ltb_spec cap (Z.of_nat (List.length out) + 2)); [lia |].
    destruct (pl + Z.of_nat (pads g) =? 1).
    { cbn [fst snd]. rewrite length_app. cbn [List.length firstn group_bytes bytes_of].
      repeat split; try lia. }
    destruct (Z.ltb_spec cap (Z.of_nat (List.length out) + 3)); [lia |].
    destruct (IH (pl + Z.of_nat (pads g)) (out ++ group_bytes g))
      as (Ha & Hb & _).
    { rewrite length_app, group_bytes_length. lia. }
    rewrite length_app, group_bytes_length in Hb.
    cbn [List.length]. repeat split; try assumption; try lia.
Qed.

(** * The claims about the decoder *)

(** C6, as the code has it.  A character outside the alphabet other
    than [=] is not rejected, it is skipped: on a text made of groups,
    with any such characters before the characters of a group, followed
    by at most three more characters, the decoder returns the value and
    the bytes it returns on the text without them, and with room for
    three bytes a group that value is not an error.  On every string,
    the bytes written fit the capacity, and with any smaller capacity
    than the output takes the decoder returns -1 having written exactly
    that capacity. *)
Theorem base64_to_bin_capacity :
  (forall gs trail after after' buf_len,
      forallb is_group gs = true ->
      no_nul trail = true -> (List.length trail <= 3)%nat ->
      0 <= buf_len <= INT_MAX ->
      Z.of_nat (List.length (List.concat gs) + List.length trail)
        < SIZE_T_MOD ->
      exists rv out,
        base64_to_bin (List.concat gs ++ trail ++ NUL :: after) buf_len
        = Done (rv, out)
        /\ base64_to_bin (List.concat (map symbols gs) ++ NUL :: after')
                         buf_len
           = Done (rv, out)
        /\ (3 * Z.of_nat (List.length gs) <= buf_len ->
            rv = Z.of_nat (List.length out)))
  /\ forall str buf_len rv out,
      0 <= buf_len <= INT_MAX ->
      base64_to_bin str buf_len = Done (rv, out) ->
      Z.of_nat (List.length out) <= buf_len
      /\ forall cap,
          0 <= cap < Z.of_nat (List.length out) ->
          base64_to_bin str cap = Done (-1, firstn (Z.to_nat cap) out).
Proof.
  split.
  - intros gs trail after after' cap Hgs Htn Htl Hcap Hsz.
    exists (fst (decode_groups 0 [] cap gs)), (snd (decode_groups 0 [] cap gs)).
    rewrite <- surjective_pairing.
    split; [apply base64_to_bin_groups; assumption |].
    split.
    + rewrite <- (decode_groups_symbols cap gs).
      apply (base64_to_bin_groups (map symbols gs) [] after' cap);
        try assumption; try reflexivity.
      * apply forallb_is_group_symbols. exact Hgs.
      * cbn [List.length]. lia.
      * pose proof (symbols_text_length gs). cbn [List.length]. lia.
    + intros Hroom.
      destruct (decode_groups_fits cap gs 0 []) as (H & _);
        [cbn [List.length]; lia | exact H].
  - intros str buf_len rv out Hcap H. unfold base64_to_bin in *.
    destruct (strlen str) as [sl |]; [| discriminate].
    destruct (while_loop (S (List.length str)) str sl 0 0 buf_len
                         (Quad 0 0 0 0) []) as [r |] eqn:E; [| discriminate].
    subst r.
    destruct (while_loop_capacity _ _ _ _ _ _ _ _ _ _ E) as (_ & Hb & _);
      [reflexivity | lia | lia |].
    split; [exact Hb |].
    intros cap Hc.
    rewrite (while_loop_overflow _ _ _ _ _ cap buf_len _ _ _ _ E);
      [reflexivity | reflexivity | cbn; lia | lia | lia | lia].
Qed.

Lemma base64_to_bin_capacity_witness :
  (exists rv out,
      base64_to_bin (List.concat [list_ascii_of_string "Q UJD";
                                  LF :: list_ascii_of_string "QUJD"]
                     ++ [LF] ++ NUL :: []) 16
      = Done (rv, out)
      /\ base64_to_bin
           (List.concat (map symbols [list_ascii_of_string "Q UJD";
                                      LF :: list_ascii_of_string "QUJD"])
            ++ NUL :: [])
           16
         = Done (rv, out)
      /\ (3 * Z.of_nat (List.length [list_ascii_of_string "Q UJD";
                                     LF :: list_ascii_of_string "QUJD"]) <= 16 ->
          rv = Z.of_nat (List.length out)))
  /\ Z.of_nat (List.length (list_ascii_of_string "ABCABC")) <= 16
  /\ forall cap,
      0 <= cap < Z.of_nat (List.length (list_ascii_of_string "ABCABC")) ->
      base64_to_bin (cstr "QUJDQUJD") cap
      = Done (-1, firstn (Z.to_nat cap) (list_ascii_of_string "ABCABC")).
Proof.
  split.
  - apply (proj1 base64_to_bin_capacity
                 [list_ascii_of_string "Q UJD";
                  LF :: list_ascii_of_string "QUJD"] [LF] [] [] 16).
    + vm_compute. reflexivity.
    + reflexivity.
    + cbn [List.length]. lia.
    + unfold INT_MAX. lia.
    + vm_compute. reflexivity.
  - apply (proj2 base64_to_bin_capacity (cstr "QUJDQUJD") 16 6
                 (list_ascii_of_string "ABCABC")).
    + unfold INT_MAX. lia.
    + vm_compute. reflexivity.
Defined.

(** C6 as stated fails: a text with a blank in it decodes without error. *)
Lemma base64_to_bin_accepts_blank :
  In " "%char (cstr "Q UJD")
  /\ alphabet_value " "%char = None /\ is_pad " "%char = false
  /\ base64_to_bin (cstr "Q UJD") 10
     = Done (3, list_ascii_of_string "ABC").
Proof.
  split; [right; left; reflexivity |].
  repeat split; vm_compute; reflexivity.
Qed.

(** C10, as the code has it.  The number of [=] is counted over the
    whole text and never reset.  The text starts with a run of groups
    without [=] and a group that has [=].  When that group has exactly
    one or exactly two [=], the decoder (with room for the output)
    returns at its end, having written three bytes for each group
    before it and two bytes (one [=]) or one byte (two [=]) for the
    group itself; what follows the group in the object changes neither
    the value returned nor the bytes written.  When it has three or
    four [=], it yields three bytes, and so does every group behind it,
    whatever [=] these groups have: decoding goes on to the end of the
    text. *)
Theorem base64_to_bin_padding groups grp (p : nat) :
  forallb is_full_group groups = true ->
  is_group grp = true -> pads grp = p ->
  ((p = 1 \/ p = 2)%nat ->
   forall buf_len,
     3 * Z.of_nat (List.length groups) + 3 - Z.of_nat p <= buf_len <= INT_MAX ->
     exists out,
       Z.of_nat (List.length out)
       = 3 * Z.of_nat (List.length groups) + 3 - Z.of_nat p
       /\ forall rest,
            In NUL rest ->
            Z.of_nat (List.length ((List.concat groups ++ grp) ++ rest))
              < SIZE_T_MOD ->
            base64_to_bin ((List.concat groups ++ grp) ++ rest) buf_len
            = Done (3 * Z.of_nat (List.length groups) + 3 - Z.of_nat p, out))
  /\ ((3 <= p)%nat ->
      forall buf_len later trail after,
        forallb is_group later = true ->
        no_nul trail = true -> (List.length trail <= 3)%nat ->
        3 * Z.of_nat (List.length groups + 1 + List.length later)
          <= buf_len <= INT_MAX ->
        Z.of_nat (List.length (List.concat (groups ++ grp :: later))
                  + List.length trail) < SIZE_T_MOD ->
        base64_to_bin (List.concat (groups ++ grp :: later)
                       ++ trail ++ NUL :: after) buf_len
        = Done (3 * Z.of_nat (List.length groups + 1 + List.length later),
                flat_map group_bytes (groups ++ grp :: later))).
Proof.
  intros Hgs Hg Hp. split.
  - intros Hp12 buf_len Hcap.
    destruct (full_groups_text _ Hgs) as (Hall & Hnul & Hlen).
    destruct (is_group_parts _ Hg) as (_ & _ & Hn & _).
    destruct (while_loop_groups groups grp p buf_len Hall Hg Hp Hp12
                (proj2 Hcap) (Quad 0 0 0 0) [])
      as (out & Hout & Hrun); [cbn [List.length]; lia |].
    exists out. cbn [List.length] in Hout. split; [lia |].
    intros rest Hin Hsize. unfold base64_to_bin.
    destruct (strlen_app (List.concat groups ++ grp) rest) as (n & -> & Hb);
      [rewrite no_nul_app, Hnul, Hn; reflexivity | exact Hin |].
    change 0 with (Z.of_nat (@List.length ascii [])) at 2.
    rewrite Hrun.
    + do 2 f_equal. cbn [List.length] in *. lia.
    + lia.
    + rewrite !length_app in *. lia.
  - intros Hp3 buf_len later trail after Hlater Htn Htl Hcap Hsz.
    assert (Hfull : forallb is_group groups = true).
    { clear - Hgs. induction groups as [| g groups IH]; [reflexivity |].
      cbn [forallb] in *. apply andb_true_iff in Hgs.
      destruct Hgs as (Hg & Hgs). unfold is_full_group in Hg.
      apply andb_true_iff in Hg. destruct Hg as (-> & _).
      rewrite (IH Hgs). reflexivity. }
    rewrite base64_to_bin_groups; try assumption; try lia.
    2:{ rewrite forallb_app. cbn [forallb]. rewrite Hfull, Hg, Hlater.
        reflexivity. }
    rewrite !Nat2Z.inj_add in Hcap. cbn [List.length] in Hcap.
    rewrite decode_groups_full by (cbn [List.length]; try assumption; lia).
    cbn [app decode_groups]. rewrite Hp.
    pose proof (pads_group grp Hg) as Hp4. rewrite Hp in Hp4.
    assert (Hflat : Z.of_nat (List.length (flat_map group_bytes groups))
                    = 3 * Z.of_nat (List.length groups)).
    { clear. induction groups as [| g groups IH]; [reflexivity |].
      cbn [flat_map List.length]. rewrite length_app, group_bytes_length.
      lia. }
    rewrite Hflat.
    destruct (Z.ltb_spec buf_len (3 * Z.of_nat (List.length groups) + 1));
      [lia |].
    destruct (Z.eqb_spec (0 + Z.of_nat p) 2); [lia |].
    destruct (Z.ltb_spec buf_len (3 * Z.of_nat (List.length groups) + 2));
      [lia |].
    destruct (Z.eqb_spec (0 + Z.of_nat p) 1); [lia |].
    destruct (Z.ltb_spec buf_len (3 * Z.of_nat (List.length groups) + 3));
      [lia |].
    rewrite decode_groups_past_two;
      [| lia | rewrite length_app, group_bytes_length; lia].
    rewrite length_app, group_bytes_length, flat_map_app.
    cbn [flat_map]. rewrite <- app_assoc.
    do 2 f_equal. lia.
Qed.

Lemma base64_to_bin_padding_witness :
  (exists out,
      Z.of_nat (List.length out) = 3 * Z.of_nat 1 + 3 - Z.of_nat 1
      /\ forall rest,
           In NUL rest ->
           Z.of_nat (List.length
                       ((List.concat [list_ascii_of_string "QUJD"]
                         ++ list_ascii_of_string "QUI=") ++ rest))
             < SIZE_T_MOD ->
           base64_to_bin ((List.concat [list_ascii_of_string "QUJD"]
                           ++ list_ascii_of_string "QUI=") ++ rest) 16
           = Done (3 * Z.of_nat 1 + 3 - Z.of_nat 1, out))
  /\ base64_to_bin
       (List.concat ([list_ascii_of_string "QUJD"]
                     ++ list_ascii_of_string "A==="
                        :: [list_ascii_of_string "QUI=";
                            list_ascii_of_string "QQ=="])
        ++ [LF] ++ NUL :: []) 16
     = Done (3 * Z.of_nat (1 + 1 + 2),
             flat_map group_bytes
                      ([list_ascii_of_string "QUJD"]
                       ++ list_ascii_of_string "A==="
                          :: [list_ascii_of_string "QUI=";
                              list_ascii_of_string "QQ=="])).
Proof.
  split.
  - apply (proj1 (base64_to_bin_padding [list_ascii_of_string "QUJD"]
                    (list_ascii_of_string "QUI=") 1
                    eq_refl eq_refl eq_refl)).
    + left. reflexivity.
    + unfold INT_MAX. cbn [List.length]. lia.
  - apply (proj2 (base64_to_bin_padding [list_ascii_of_string "QUJD"]
                    (list_ascii_of_string "A===") 3
                    eq_refl eq_refl eq_refl)).
    + lia.
    + reflexivity.
    + reflexivity.
    + cbn [List.length]. lia.
    + unfold INT_MAX. cbn [List.length]. lia.
    + vm_compute. reflexivity.
Defined.

(** C10 as stated fails: a first group with three [=] yields three bytes
    and does not end the decoding; the groups after it are decoded too,
    and a [=] in them does not end the decoding either. *)
Lemma base64_to_bin_three_pads :
  base64_to_bin (cstr "A===QUJD") 16
  = Done (6, [NUL; NUL; NUL; "A"%char; "B"%char; "C"%char])
  /\ base64_to_bin (cstr "A===") 16 = Done (3, [NUL; NUL; NUL])
  /\ base64_to_bin (cstr "A===QUI=") 16
     = Done (6, [NUL; NUL; NUL; "A"%char; "B"%char; NUL]).
Proof. repeat split; vm_compute; reflexivity. Qed.

(** * The text between the markers *)

Lemma text_between_length data i j :
  0 <= i -> i + 24 <= j -> j <= Z.of_nat (List.length data) ->
  Z.of_nat (List.length (text_between data i j)) = j - (i + 24).
Proof.
  intros Hi Hij Hj. unfold text_between.
  rewrite length_firstn, length_skipn. lia.
Qed.

Lemma store_nul_split data : forall j,
  (j < List.length data)%nat ->
  store_nul data j = firstn j data ++ NUL :: skipn (S j) data.
Proof.
  induction data as [| c data IH]; intros j Hj; [cbn in Hj; lia |].
  destruct j as [| j]; [reflexivity |].
  cbn [store_nul firstn skipn app]. cbn [List.length] in Hj.
  rewrite IH by lia. reflexivity.
Qed.

(** What the decoder is given, when the END marker starts behind the
    BEGIN marker: the text between them, the NUL stored at the END
    marker, and the rest of the buffer. *)
Lemma decoder_input_text data i j :
  0 <= i -> i + 24 <= j -> j < Z.of_nat (List.length data) ->
  decoder_input data i j
  = text_between data i j ++ NUL :: skipn (S (Z.to_nat j)) data.
Proof.
  intros Hi Hij Hj. unfold decoder_input, text_between.
  rewrite store_nul_split by lia.
  rewrite skipn_app, length_firstn.
  replace (Z.to_nat (i + 24) - Nat.min (Z.to_nat j) (List.length data))%nat
    with 0%nat by lia.
  cbn [skipn]. f_equal.
  rewrite skipn_firstn_comm. f_equal. lia.
Qed.

(** * The claim about the framing *)

(** C7, as the code has it.  For a fetched buffer of at least 24 bytes
    (and less than 4 GiB): when the first BEGIN marker lies before the
    first END marker, the base64 branch is taken.  There, when the END
    marker starts behind the end of the BEGIN marker (and less than
    2 GiB behind its start) and the text between them is made of groups
    (with any characters the decoder skips) followed by at most three
    characters, that text is decoded and the bytes are parsed as DER; a
    text without a group gives NULL with "invalid base64 (pem) format",
    a buffer that cannot be allocated NULL with "not enough free memory
    available".  In every
    other case (no marker, one marker only, or the first END marker
    before the first BEGIN marker) the whole buffer is parsed as DER:
    the result is what the parser makes of it. *)
Theorem download_crl_framing W uri s :
  let data := fetch_data (get_from_uri W uri) in
  let pem := {| last_error := last_error s;
                debug := debug s ++ [Dbg "crl is base64 encoded"];
                io := io s ++ [Fetch uri] |} in
  fetch_rv (get_from_uri W uri) = 0 ->
  24 <= Z.of_nat (List.length data) < UINT_MOD ->
  match first_occurrence BEGIN_MARKER data,
        first_occurrence END_MARKER data with
  | Some i, Some j =>
      if i <? j then
        (malloc W (j - i + 1) = false ->
         download_crl W uri s
         = Done (None,
                 {| last_error := "not enough free memory available";
                    debug := debug pem; io := io pem |}))
        /\ (forall gs trail,
               malloc W (j - i + 1) = true ->
               i + 24 <= j -> j - i + 1 <= INT_MAX ->
               text_between data i j = List.concat gs ++ trail ->
               forallb is_group gs = true ->
               no_nul trail = true -> (List.length trail <= 3)%nat ->
               exists n der,
                 base64_to_bin (text_between data i j ++ [NUL]) (j - i + 1)
                 = Done (n, der)
                 /\ n = Z.of_nat (List.length der)
                 /\ (n = 0 <-> gs = [])
                 /\ download_crl W uri s
                    = if n =? 0 then
                        Done (None,
                              {| last_error := "invalid base64 (pem) format";
                                 debug := debug pem; io := io pem |})
                      else parsed (d2i_X509_CRL W der n) pem)
      else download_crl W uri s = (call (Fetch uri) ;; parse_der W data) s
  | _, _ => download_crl W uri s = (call (Fetch uri) ;; parse_der W data) s
  end.
Proof.
  intros data pem Hrv Hlen.
  rewrite download_crl_branches by assumption. fold data.
  unfold first_occurrence.
  destruct (first_occurrence_from (list_ascii_of_string BEGIN_MARKER) 0 data)
    as [i |] eqn:Ei; [| reflexivity].
  destruct (first_occurrence_from (list_ascii_of_string END_MARKER) 0 data)
    as [j |] eqn:Ej; [| reflexivity].
  destruct (Z.ltb_spec i j) as [Hij |]; [| reflexivity].
  apply first_occurrence_bounds in Ei, Ej.
  change (List.length (list_ascii_of_string BEGIN_MARKER)) with 24%nat in Ei.
  change (List.length (list_ascii_of_string END_MARKER)) with 22%nat in Ej.
  rewrite bind_call. fold pem.
  split.
  - intros Hm. unfold pem_branch, bind, DBG. cbn [last_error debug io].
    rewrite Hm. reflexivity.
  - intros gs trail Hm Hov Hint Htext Hgs Htn Htl.
    assert (Htl' : Z.of_nat (List.length (text_between data i j))
                   = j - (i + 24))
      by (apply text_between_length; lia).
    pose proof (groups_count gs Hgs) as Hc.
    rewrite Htext, length_app in Htl'.
    assert (Hsz : Z.of_nat (List.length (List.concat gs) + List.length trail)
                  < SIZE_T_MOD).
    { assert (UINT_MOD < SIZE_T_MOD) by (vm_compute; reflexivity). lia. }
    destruct (decode_groups_fits (j - i + 1) gs 0 []) as (Hn & Hb & Hpos);
      [cbn [List.length]; lia |].
    cbn [List.length] in Hb, Hpos.
    exists (fst (decode_groups 0 [] (j - i + 1) gs)),
           (snd (decode_groups 0 [] (j - i + 1) gs)).
    rewrite <- surjective_pairing.
    split.
    { rewrite Htext, <- app_assoc.
      apply base64_to_bin_groups; try assumption. lia. }
    split; [exact Hn |].
    split.
    { split.
      - intros H0. destruct gs as [| g gs]; [reflexivity |].
        assert (g :: gs <> []) as Hne by discriminate.
        specialize (Hpos Hne). lia.
      - intros ->. reflexivity. }
    unfold pem_branch, bind, DBG, lift. cbn [last_error debug io].
    rewrite Hm. cbn [negb].
    rewrite decoder_input_text by lia.
    rewrite Htext, <- app_assoc.
    rewrite base64_to_bin_groups by (try assumption; lia).
    fold pem.
    set (n := fst (decode_groups 0 [] (j - i + 1) gs)) in *.
    assert (Hn0 : 0 <= n <= INT_MAX) by lia.
    assert (Hmod : INT_MAX < UINT_MOD /\ UINT_MOD < SIZE_T_MOD)
      by (split; vm_compute; reflexivity).
    rewrite to_size_t_small by lia.
    rewrite to_long_small by lia.
    destruct (n =? 0); reflexivity.
Qed.

Lemma download_crl_framing_witness :
  download_crl (serving pem_buffer) "http://ca/crl.pem" initial_state
  = parsed (d2i_X509_CRL (serving pem_buffer) (list_ascii_of_string "012") 3)
           {| last_error := last_error initial_state;
              debug := debug initial_state ++ [Dbg "crl is base64 encoded"];
              io := io initial_state ++ [Fetch "http://ca/crl.pem"] |}.
Proof.
  assert (Hlen : 24 <= Z.of_nat (List.length pem_buffer) < UINT_MOD)
    by (vm_compute; split; [discriminate | reflexivity]).
  pose proof (download_crl_framing (serving pem_buffer) "http://ca/crl.pem"
                initial_state eq_refl Hlen) as H.
  change (fetch_data (get_from_uri (serving pem_buffer) "http://ca/crl.pem"))
    with pem_buffer in H.
  assert (Eb : first_occurrence BEGIN_MARKER pem_buffer = Some 0)
    by (vm_compute; reflexivity).
  assert (Ee : first_occurrence END_MARKER pem_buffer = Some 30)
    by (vm_compute; reflexivity).
  rewrite Eb, Ee in H. change (0 <? 30) with true in H. cbv iota in H.
  destruct H as (_ & H).
  destruct (H [LF :: list_ascii_of_string "MDEy"] [LF])
    as (n & der & Hd & _ & _ & Hrun).
  - reflexivity.
  - lia.
  - unfold INT_MAX. lia.
  - vm_compute. reflexivity.
  - vm_compute. reflexivity.
  - reflexivity.
  - cbn [List.length]. lia.
  - vm_compute in Hd. inversion Hd; subst n der. exact Hrun.
Defined.

(** C7 as stated fails on both sides.  Markers in reversed order are not
    rejected: the buffer goes to the DER parser as it is, and the CRL at
    its head is returned by a parser that, like [d2i_X509_CRL], reads
    one object and leaves what follows it.  And with the BEGIN marker
    before the END marker, but the END marker starting inside it, no
    text lies between the markers, yet the text behind the END marker
    is decoded and nine bytes go to the parser. *)
Lemma download_crl_reversed_markers :
  first_occurrence END_MARKER trailing_markers = Some 68
  /\ first_occurrence BEGIN_MARKER trailing_markers = Some 90
  /\ (forall parse,
         download_crl (world (fetch_buffer trailing_markers) parse [])
                      "http://ca/crl" initial_state
         = parsed (parse trailing_markers 114)
                  {| last_error := ""; debug := [Dbg "crl is der encoded"];
                     io := [Fetch "http://ca/crl"] |})
  /\ download_crl (world (fetch_buffer trailing_markers) d2i_head [])
                  "http://ca/crl" initial_state
     = Done (Some der_crl_value,
             {| last_error := ""; debug := [Dbg "crl is der encoded"];
                io := [Fetch "http://ca/crl"] |})
  /\ first_occurrence BEGIN_MARKER overlapping_markers = Some 0
  /\ first_occurrence END_MARKER overlapping_markers = Some 19
  /\ text_between overlapping_markers 0 19 = []
  /\ List.length overlapping_der = 9%nat
  /\ forall parse,
       download_crl (world (fetch_buffer overlapping_markers) parse [])
                    "http://ca/crl" initial_state
       = parsed (parse overlapping_der 9)
                {| last_error := ""; debug := [Dbg "crl is base64 encoded"];
                   io := [Fetch "http://ca/crl"] |}.
Proof.
  repeat split; try (intros parse); vm_compute; reflexivity.
Qed.

(** * The claim about AUTO *)

(** C4.  Under AUTO the check under ONLINE runs first, from the state
    on entry (after the debug line of AUTO): it fetches from the
    distribution points in their order and its value is the verdict on
    the first CRL fetched, or -1 when there is none.  If that value is
    the error -1, the check under OFFLINE follows and its value, which
    is a function of the store, is the result; the calls of OFFLINE
    come after those of ONLINE.  If the value of ONLINE is 0 or 1, it is
    the result, in the state ONLINE left: OFFLINE is not attempted and
    the store is not asked for a CRL. *)
Theorem auto_is_online_then_offline W x509 ctx s rv1 s1 :
  check_for_revocation W x509 ctx CRLP_ONLINE
    {| last_error := last_error s;
       debug := debug s ++ [Dbg1 "crl policy: %d" (ArgPolicy CRLP_AUTO)];
       io := io s |} = Done (rv1, s1) ->
  (exists tried crl,
      io s1 = io s ++ online_lookups x509 ++ map Fetch tried
              ++ match crl with
                 | Some c => [LookupCert (crl_issuer c)]
                 | None => []
                 end
      /\ match online_points W x509 ctx with
         | None => tried = [] /\ crl = None
         | Some dist_points =>
             tried_until W (distribution_uris dist_points) tried crl
         end
      /\ rv1 = match crl with
               | Some c => verdict_value W x509 ctx c
               | None => -1
               end)
  /\ (rv1 = -1 \/ rv1 = 0 \/ rv1 = 1)
  /\ exists s',
       check_for_revocation W x509 ctx CRLP_AUTO s
       = Done ((if rv1 =? -1 then offline_value W x509 ctx else rv1), s')
       /\ if rv1 =? -1
          then io s' = io s1 ++ offline_lookups W x509 ctx
          else s' = s1.
Proof.
  intros H.
  pose proof (check_for_revocation_range _ _ _ _ _ _ _ (or_introl eq_refl) H)
    as Hr.
  split; [| split; [exact Hr |]].
  - destruct (online_check _ _ _ _ _ _ H) as (tried & crl & Hio & Hp & Hv).
    exists tried, crl. cbn [io] in Hio. auto.
  - rewrite check_for_revocation_equation_4.
    unfold bind at 1. unfold DBG1 at 1. unfold bind at 1. rewrite H.
    destruct Hr as [-> | [-> | ->]].
    + change (-1 <? 0) with true. change (-1 =? -1) with true. cbv iota.
      unfold bind at 1. unfold get_error at 1. unfold bind at 1.
      unfold DBG1 at 1.
      match goal with
      | |- context [check_for_revocation W x509 ctx CRLP_OFFLINE ?s0] =>
          destruct (offline_check W x509 ctx s0) as (s2 & Hoff & Hio)
      end.
      exists s2. split; [exact Hoff |]. cbn [io] in Hio. exact Hio.
    + exists s1. split; reflexivity.
    + exists s1. split; reflexivity.
Qed.

Lemma auto_is_online_then_offline_witness :
  exists rv1 s1,
    check_for_revocation (offline_world [clean_crl]) roamer (ctx_of roamer)
      CRLP_ONLINE
      {| last_error := last_error initial_state;
         debug := debug initial_state
                  ++ [Dbg1 "crl policy: %d" (ArgPolicy CRLP_AUTO)];
         io := io initial_state |} = Done (rv1, s1)
    /\ rv1 = -1
    /\ (exists tried crl,
           io s1 = io initial_state ++ online_lookups roamer
                   ++ map Fetch tried
                   ++ match crl with
                      | Some c => [LookupCert (crl_issuer c)]
                      | None => []
                      end
           /\ match online_points (offline_world [clean_crl]) roamer
                                  (ctx_of roamer) with
              | None => tried = [] /\ crl = None
              | Some dist_points =>
                  tried_until (offline_world [clean_crl])
                              (distribution_uris dist_points) tried crl
              end
           /\ rv1 = match crl with
                    | Some c =>
                        verdict_value (offline_world [clean_crl]) roamer
                                      (ctx_of roamer) c
                    | None => -1
                    end)
    /\ (rv1 = -1 \/ rv1 = 0 \/ rv1 = 1)
    /\ exists s',
         check_for_revocation (offline_world [clean_crl]) roamer
                              (ctx_of roamer) CRLP_AUTO initial_state
         = Done ((if rv1 =? -1
                  then offline_value (offline_world [clean_crl]) roamer
                                     (ctx_of roamer)
                  else rv1), s')
         /\ if rv1 =? -1
            then io s' = io s1 ++ offline_lookups (offline_world [clean_crl])
                                                  roamer (ctx_of roamer)
            else s' = s1.
Proof.
  do 2 eexists. split; [vm_compute; reflexivity |].
  split; [reflexivity |].
  apply (auto_is_online_then_offline (offline_world [clean_crl]) roamer
           (ctx_of roamer) initial_state).
  vm_compute. reflexivity.
Defined.

(** * Further properties of the chain validator and the signature check *)

Lemma failed_step_setup W ca_dir crl_dir :
  failed_step W ca_dir crl_dir = None <-> setup_succeeds W ca_dir crl_dir = true.
Proof.
  unfold failed_step, setup_succeeds.
  destruct (X509_STORE_new W), (X509_STORE_add_lookup W),
    (X509_LOOKUP_add_dir W ca_dir X509_FILETYPE_PEM =? 1),
    (X509_LOOKUP_add_dir W ca_dir X509_FILETYPE_ASN1 =? 1),
    (X509_LOOKUP_add_dir W crl_dir X509_FILETYPE_PEM =? 1),
    (X509_LOOKUP_add_dir W crl_dir X509_FILETYPE_ASN1 =? 1),
    (X509_STORE_CTX_new W); cbn [negb andb]; split; intros F;
    try reflexivity; discriminate F.
Qed.

(** X13.  When a step of the set-up fails, [verify_certificate] returns
    -1 with the error slot holding the name of the first step that
    failed (in the order: store, lookup, directory of the CA
    certificates as PEM and as ASN1, directory of the CRLs as PEM and
    as ASN1, store context), the words " failed: " and the library's
    error string; it has made no fetch and no store lookup. *)
Theorem verify_certificate_setup_error W x509 ca_dir crl_dir policy s step :
  failed_step W ca_dir crl_dir = Some step ->
  exists s',
    verify_certificate W x509 ca_dir crl_dir policy s = Done (-1, s')
    /\ io s' = io s
    /\ last_error s' = (step ++ " failed: " ++ ERR_error_string W)%string.
Proof.
  unfold failed_step, verify_certificate. run.
  repeat
    match goal with
    | |- context [negb ?b] =>
        destruct b; cbn [negb];
        [| solve [intros F; inversion F; subst step; eexists;
                  repeat split]]
    end.
  discriminate.
Qed.

Lemma verify_certificate_setup_error_witness :
  exists s',
    verify_certificate
      (missing_dir "/etc/pam_pkcs11/crls" (offline_world [clean_crl])) leaf
      "/etc/pam_pkcs11/cacerts" "/etc/pam_pkcs11/crls" CRLP_OFFLINE
      initial_state = Done (-1, s')
    /\ io s' = io initial_state
    /\ last_error s'
       = ("X509_LOOKUP_add_dir(PEM)" ++ " failed: "
          ++ ERR_error_string
               (missing_dir "/etc/pam_pkcs11/crls"
                            (offline_world [clean_crl])))%string.
Proof.
  apply (verify_certificate_setup_error
           (missing_dir "/etc/pam_pkcs11/crls" (offline_world [clean_crl]))
           leaf "/etc/pam_pkcs11/cacerts" "/etc/pam_pkcs11/crls"
           CRLP_OFFLINE initial_state "X509_LOOKUP_add_dir(PEM)").
  reflexivity.
Defined.

(** X14.  [verify_certificate] returns -1, 0 or 1 and nothing else.  A
    result of -1 has one of two causes: a step of the set-up failed; or
    the set-up and the path validation succeeded and the revocation
    check returned -1, and then the error slot holds the message of the
    check behind the prefix "check_for_revocation() failed: ". *)
Theorem verify_certificate_values W x509 ca_dir crl_dir policy s rv s' :
  verify_certificate W x509 ca_dir crl_dir policy s = Done (rv, s') ->
  (rv = -1 \/ rv = 0 \/ rv = 1)
  /\ (rv = -1 ->
      setup_succeeds W ca_dir crl_dir = false
      \/ setup_succeeds W ca_dir crl_dir = true
         /\ X509_verify_cert W (store_ctx x509 ca_dir crl_dir) = 1
         /\ exists s0 s1,
              last_error s0 = last_error s /\ io s0 = io s
              /\ check_for_revocation W x509 (store_ctx x509 ca_dir crl_dir)
                                      policy s0 = Done (-1, s1)
              /\ last_error s'
                 = ("check_for_revocation() failed: "
                    ++ last_error s1)%string).
Proof.
  intros H.
  destruct (setup_succeeds W ca_dir crl_dir) eqn:Hsetup.
  2:{ destruct (verify_certificate_setup_failure W x509 ca_dir crl_dir
                  policy s Hsetup) as (s0 & what & Hv & _).
      rewrite Hv in H. inversion H; subst rv s0.
      split; [left; reflexivity | intros _; left; reflexivity]. }
  pose proof H as H0.
  rewrite verify_certificate_setup in H0 by exact Hsetup.
  cbv zeta in H0.
  destruct (X509_verify_cert W (store_ctx x509 ca_dir crl_dir) =? 1) eqn:Hok;
    cbn [negb] in H0.
  2:{ inversion H0; subst rv. split; [right; left; reflexivity |].
      intros F; discriminate F. }
  apply Z.eqb_eq in Hok.
  unfold bind at 1 in H0. unfold DBG at 1 in H0.
  cbn [last_error debug io] in H0. unfold bind at 1 in H0.
  match type of H0 with
  | context [check_for_revocation W x509 ?c policy ?s0] =>
      destruct (check_for_revocation W x509 c policy s0)
        as [[rv1 s1] |] eqn:E; [| discriminate H0];
      set (st := s0) in *
  end.
  destruct (verify_certificate_after_check _ _ _ _ _ _ _ _ Hsetup Hok E)
    as (s2 & Hv & _ & Herr).
  rewrite Hv in H. inversion H; subst rv1 s2.
  split; [exact (check_for_revocation_values _ _ _ _ _ _ _ E) |].
  intros ->. change (-1 =? -1) with true in Herr. right.
  split; [reflexivity |]. split; [exact Hok |].
  exists st, s1. repeat split; assumption.
Qed.

Lemma verify_certificate_values_witness :
  exists rv s',
    verify_certificate (offline_world []) leaf "/etc/pam_pkcs11/cacerts"
                       "/etc/pam_pkcs11/crls" CRLP_AUTO initial_state
    = Done (rv, s')
    /\ rv = -1
    /\ (rv = -1 \/ rv = 0 \/ rv = 1)
    /\ (rv = -1 ->
        setup_succeeds (offline_world []) "/etc/pam_pkcs11/cacerts"
                       "/etc/pam_pkcs11/crls" = false
        \/ setup_succeeds (offline_world []) "/etc/pam_pkcs11/cacerts"
                          "/etc/pam_pkcs11/crls" = true
           /\ X509_verify_cert (offline_world [])
                (store_ctx leaf "/etc/pam_pkcs11/cacerts"
                           "/etc/pam_pkcs11/crls") = 1
           /\ exists s0 s1,
                last_error s0 = last_error initial_state
                /\ io s0 = io initial_state
                /\ check_for_revocation (offline_world []) leaf
                     (store_ctx leaf "/etc/pam_pkcs11/cacerts"
                                "/etc/pam_pkcs11/crls") CRLP_AUTO s0
                   = Done (-1, s1)
                /\ last_error s'
                   = ("check_for_revocation() failed: "
                      ++ last_error s1)%string).
Proof.
  do 2 eexists. split; [vm_compute; reflexivity |].
  split; [reflexivity |].
  apply (verify_certificate_values (offline_world []) leaf
           "/etc/pam_pkcs11/cacerts" "/etc/pam_pkcs11/crls" CRLP_AUTO
           initial_state).
  vm_compute. reflexivity.
Defined.

(** X15.  [verify_signature] always returns, and makes no fetch and no
    store lookup.  For a certificate without a public key it returns -1
    with the error slot set to "X509_get_pubkey() failed: " and the
    library's error string.  With a key, it returns 0 and leaves the
    error slot as it was when the SHA-1 signature check with that key
    returns 1; every other value of the check (0 for a signature that
    does not match as well as a negative one) gives -1 with the error
    slot set to "EVP_VerifyFinal() failed: " and the library's error
    string. *)
Theorem verify_signature_result W V x509 data data_length signature
    signature_length s :
  exists rv s',
    verify_signature W V x509 data data_length signature signature_length s
    = Done (rv, s')
    /\ io s' = io s
    /\ match pubkey x509 with
       | None =>
           rv = -1
           /\ last_error s'
              = ("X509_get_pubkey() failed: " ++ ERR_error_string W)%string
       | Some pkey =>
           if V pkey data data_length signature signature_length =? 1
           then rv = 0 /\ last_error s' = last_error s
           else rv = -1
                /\ last_error s'
                   = ("EVP_VerifyFinal() failed: "
                      ++ ERR_error_string W)%string
       end.
Proof.
  unfold verify_signature. run.
  destruct (pubkey x509) as [pkey |].
  - cbv zeta.
    destruct (V pkey data data_length signature signature_length =? 1);
      cbn [negb]; do 2 eexists; repeat split.
  - do 2 eexists; repeat split.
Qed.
